(** * pelita/player/base2.py: teams, player sessions and speculative moves

    A shallow embedding of [SimpleTeam], [Player2] and the reference players
    of [pelita.player.base2].  Python objects live in a store addressed by
    references, so that aliasing between a session, its history list and the
    universes it holds is visible; methods are computations in a state and
    exception monad over that store. *)

From Stdlib Require Import ZArith Lia.
From stdpp Require Import gmap strings list pretty.

Local Open Scope Z_scope.

(** ** Python values, exceptions and results *)

Module Py.

(** The exceptions the module raises or lets through. *)
Inductive exn :=
| AttributeError (name : string)
| IndexError
| KeyError (key : string)
| ValueError (msg : string)
| TypeError (msg : string)
| Exception (msg : string)
| IllegalMoveException
| StopIteration
| DanglingReference. (* a reference outside the store: no Python counterpart *)

Inductive res (A : Type) :=
| Ok (a : A)
| Raise (e : exn).
Arguments Ok {A} a.
Arguments Raise {A} e.

(** Values found under the keys of a game-state dict. *)
Inductive val :=
| VNone
| VInt (z : Z)
| VStr (s : string)
| VNames (names : list string).

(** A reference to an object of the store. *)
Abbreviation loc := nat.

(** [l[i]] with Python's negative indices; [None] stands for IndexError. *)
Definition getitem {A} (l : list A) (i : Z) : option A :=
  let n := Z.of_nat (length l) in
  let j := if i <? 0 then i + n else i in
  if (0 <=? j) && (j <? n) then l !! Z.to_nat j else None.

(** [v + z] for an integer [z]. *)
Definition add_int (v : val) (z : Z) : res Z :=
  match v with
  | VInt a => Ok (a + z)
  | _ => Raise (TypeError "unsupported operand type(s) for +")
  end.

End Py.
Import Py.

(** ** The interface of pelita.datamodel used by this module *)

Module datamodel.

Record Bot := { index : Z; current_pos : Z * Z; initial_pos : Z * Z }.

(** The universe and the moves are imported by base2.py, not defined in it:
    they are taken as parameters.  [move_bot u i m] is the universe after
    [u.move_bot(i, m)] has changed it in place, together with the game
    state the call returns, or the exception it raises. *)
Class World := {
  universe : Type;
  move : Type;
  north : move;
  south : move;
  west : move;
  east : move;
  stop : move;
  bots : universe -> list Bot;
  team_bots : universe -> Z -> list Bot;
  move_bot : universe -> Z -> move -> res (universe * gmap string val);
}.

End datamodel.
Import datamodel.

(** ** Objects and the store *)

(** The instance attributes of a SimpleTeam object. *)
Module Team.
Record attrs := {
  team_name : string;
  _players : list loc;
  _bot_players : gmap Z loc;
  _remote_game : bool;
}.
End Team.

Module Heap.
Section heap.
Context `{W : World}.

(** The two bound methods [_store_universe] can be set to. *)
Inductive store_policy := store_copy | store_ref.

(** A [random.Random] object, by how it was seeded: by the system, or by
    the call [seed(z)], of which the argument is recorded.  Objects seeded
    with the same argument give the same stream.  The numbers drawn are the
    library's and are not modelled: two arguments that differ are two
    seeds, not necessarily two streams. *)
Inductive Random := SystemSeeded | Seeded (z : Z).

(** [SteppingPlayer.moves]: an iterator over a list of moves, or the
    generator [(self._MOVES[move] for move in moves)] over a string. *)
Inductive move_iter :=
| list_iter (pending : list move)
| gen_iter (pending : string).

(** The classes deriving from Player2; [UserPlayer k] is the k-th class
    written by a user of the module.  SpeakingPlayer, TurnBasedPlayer and
    DebuggablePlayer override [get_move] only (a random choice, a table
    look-up, the debugger): here they are user classes like any other. *)
Inductive class_id :=
| StoppingPlayer
| SteppingPlayer
| MoveExceptionPlayer
| InitialExceptionPlayer
| UserPlayer (k : nat).

(** The instance attributes of a Player2 object; [None] is an attribute
    that has not been set. *)
Record player := {
  cls : class_id;
  _index : option Z;
  _remote_game : option bool;
  _store_universe : option store_policy;
  _current_state : option loc;
  universe_states : option loc;
  seed_offset : option Z;
  rnd : option Random;
  _say : option string;
  moves : option move_iter;
}.

Inductive obj :=
| OUniverse (u : universe)
| ODict (d : gmap string val)
| OList (l : list loc)
| OStr (s : string)
| OPlayer (p : player)
| OTeam (t : Team.attrs)
| OForeign (attrs : list string). (* any other object, by its attribute names *)

(** The store: a reference is a position in it; nothing is ever freed. *)
Local Abbreviation heap := (list obj).

(** State and exception monad: the store survives a raised exception. *)
Definition M (A : Type) : Type := heap -> heap * res A.

Definition ret {A} (a : A) : M A := fun h => (h, Ok a).
Definition raise {A} (e : exn) : M A := fun h => (h, Raise e).
Definition bind {A B} (c : M A) (k : A -> M B) : M B :=
  fun h => match c h with
           | (h', Ok a) => k a h'
           | (h', Raise e) => (h', Raise e)
           end.
Definition lift {A} (r : res A) : M A := fun h => (h, r).

(** [try c except e': handler] for one exception. *)
Definition try_except {A} (c : M A) (catches : exn -> bool) (handler : M A) : M A :=
  fun h => match c h with
           | (h', Raise e) => if catches e then handler h' else (h', Raise e)
           | r => r
           end.

Definition alloc (o : obj) : M loc := fun h => (h ++ [o], Ok (length h)).
Definition load (l : loc) : M obj :=
  fun h => match h !! l with
           | Some o => (h, Ok o)
           | None => (h, Raise DanglingReference)
           end.
Definition store (l : loc) (o : obj) : M unit := fun h => (<[l := o]> h, Ok tt).

End heap.

Abbreviation heap := (list obj).

End Heap.
Import Heap.

Declare Scope py_scope.
Delimit Scope py_scope with py.
Notation "'let*' x := c 'in' k" := (bind c (fun x => k))
  (at level 10, x name, c at level 100, k at level 200) : py_scope.
Notation "c ;; k" := (bind c (fun _ => k))
  (at level 100, k at level 200, right associativity) : py_scope.
Local Open Scope py_scope.

(** ** Code supplied by users of the module

    Subclasses of Player2 override the hooks [set_initial] and
    [get_move] and may define further methods; [simulate_move] calls
    [self.copy()], which Player2 does not define, so a class has it only if
    it defines it itself.  Objects that are not Player2 instances can be
    handed to SimpleTeam as well: their methods are opaque. *)

Module User.
Section user.
Context `{W : World}.

(** The dict [_get_move] returns; [None] is Python's None. *)
Record response := { resp_move : option move; resp_say : string }.

Class Code := {
  user_set_initial : nat -> loc -> M unit;
  user_get_move : nat -> loc -> M (option move);
  user_copy : nat -> option (loc -> M loc);
  duck_set_index : loc -> Z -> M unit;
  duck_set_initial : loc -> loc -> loc -> M unit;
  duck_get_move : loc -> loc -> loc -> M response;
}.

End user.
End User.
Import User.

(** ** class Player2 *)

Module Player2.
Section player2.
Context `{W : World} `{U : !Code}.

(** A Player2 object on which no attribute has been set yet. *)
Definition new_player (c : class_id) : player :=
  {| cls := c; _index := None; _remote_game := None; _store_universe := None;
     _current_state := None; universe_states := None; seed_offset := None;
     rnd := None; _say := None; moves := None |}.

(** Attribute assignments [self.x = v]. *)
Definition with_index (v : Z) (p : player) : player :=
  {| cls := cls p; _index := Some v; _remote_game := _remote_game p;
     _store_universe := _store_universe p; _current_state := _current_state p;
     universe_states := universe_states p; seed_offset := seed_offset p;
     rnd := rnd p; _say := _say p; moves := moves p |}.
Definition with_remote_game (v : bool) (p : player) : player :=
  {| cls := cls p; _index := _index p; _remote_game := Some v;
     _store_universe := _store_universe p; _current_state := _current_state p;
     universe_states := universe_states p; seed_offset := seed_offset p;
     rnd := rnd p; _say := _say p; moves := moves p |}.
Definition with_store_universe (v : store_policy) (p : player) : player :=
  {| cls := cls p; _index := _index p; _remote_game := _remote_game p;
     _store_universe := Some v; _current_state := _current_state p;
     universe_states := universe_states p; seed_offset := seed_offset p;
     rnd := rnd p; _say := _say p; moves := moves p |}.
Definition with_current_state (v : loc) (p : player) : player :=
  {| cls := cls p; _index := _index p; _remote_game := _remote_game p;
     _store_universe := _store_universe p; _current_state := Some v;
     universe_states := universe_states p; seed_offset := seed_offset p;
     rnd := rnd p; _say := _say p; moves := moves p |}.
Definition with_universe_states (v : loc) (p : player) : player :=
  {| cls := cls p; _index := _index p; _remote_game := _remote_game p;
     _store_universe := _store_universe p; _current_state := _current_state p;
     universe_states := Some v; seed_offset := seed_offset p;
     rnd := rnd p; _say := _say p; moves := moves p |}.
Definition with_rnd (v : Random) (p : player) : player :=
  {| cls := cls p; _index := _index p; _remote_game := _remote_game p;
     _store_universe := _store_universe p; _current_state := _current_state p;
     universe_states := universe_states p; seed_offset := seed_offset p;
     rnd := Some v; _say := _say p; moves := moves p |}.
Definition with_say (v : string) (p : player) : player :=
  {| cls := cls p; _index := _index p; _remote_game := _remote_game p;
     _store_universe := _store_universe p; _current_state := _current_state p;
     universe_states := universe_states p; seed_offset := seed_offset p;
     rnd := rnd p; _say := Some v; moves := moves p |}.
Definition with_moves (v : move_iter) (p : player) : player :=
  {| cls := cls p; _index := _index p; _remote_game := _remote_game p;
     _store_universe := _store_universe p; _current_state := _current_state p;
     universe_states := universe_states p; seed_offset := seed_offset p;
     rnd := rnd p; _say := _say p; moves := Some v |}.

(** The Player2 object behind [self]; on any other object the attribute
    [name] that was asked for is missing. *)
Definition self_player (name : string) (self : loc) : M player :=
  let* o := load self in
  match o with
  | OPlayer p => ret p
  | _ => raise (AttributeError name)
  end.

(** [self.name], for the attribute read by [field]. *)
Definition getattr {A} (name : string) (field : player -> option A) (self : loc) : M A :=
  let* p := self_player name self in
  match field p with
  | Some v => ret v
  | None => raise (AttributeError name)
  end.

(** [self.name = v], by the record update [upd]. *)
Definition setattr (name : string) (upd : player -> player) (self : loc) : M unit :=
  let* p := self_player name self in
  store self (OPlayer (upd p)).

(** [obj.copy()] on a universe: an independent copy, a new object.  Lists
    and dicts have a [copy] of their own; other objects have none here. *)
Definition obj_copy (l : loc) : M loc :=
  let* o := load l in
  match o with
  | OUniverse u => alloc (OUniverse u)
  | OList xs => alloc (OList xs)
  | ODict d => alloc (ODict d)
  | _ => raise (AttributeError "copy")
  end.

(** [lst.append(x)] *)
Definition list_append (lst x : loc) : M unit :=
  let* o := load lst in
  match o with
  | OList xs => store lst (OList (xs ++ [x]))
  | _ => raise (AttributeError "append")
  end.

(** [lst[i]] *)
Definition list_getitem (lst : loc) (i : Z) : M loc :=
  let* o := load lst in
  match o with
  | OList xs =>
      match getitem xs i with
      | Some x => ret x
      | None => raise IndexError
      end
  | _ => raise (TypeError "object is not subscriptable")
  end.

(** [d.get(key)]: [VNone] when the key is missing. *)
Definition dict_get (d : loc) (key : string) : M val :=
  let* o := load d in
  match o with
  | ODict m => ret (default VNone (m !! key))
  | _ => raise (AttributeError "get")
  end.

(** [d[key]] *)
Definition dict_getitem (d : loc) (key : string) : M val :=
  let* o := load d in
  match o with
  | ODict m =>
      match m !! key with
      | Some v => ret v
      | None => raise (KeyError key)
      end
  | _ => raise (TypeError "object is not subscriptable")
  end.

Definition _set_index (self : loc) (index : Z) : M unit :=
  setattr "_index" (with_index index) self.

Definition _store_universe_copy (self universe : loc) : M unit :=
  let* states := getattr "universe_states" universe_states self in
  let* c := obj_copy universe in
  list_append states c.

Definition _store_universe_ref (self universe : loc) : M unit :=
  let* states := getattr "universe_states" universe_states self in
  list_append states universe.

(** [self._store_universe(universe)]: the bound method chosen by
    [_set_initial]. *)
Definition call_store_universe (self universe : loc) : M unit :=
  let* pol := getattr "_store_universe" _store_universe self in
  match pol with
  | store_copy => _store_universe_copy self universe
  | store_ref => _store_universe_ref self universe
  end.

(** The hook [set_initial]: [pass] unless the class overrides it. *)
Definition set_initial (self : loc) : M unit :=
  let* p := self_player "set_initial" self in
  match cls p with
  | InitialExceptionPlayer => raise (Exception "Exception from InitialExceptionPlayer.")
  | UserPlayer k => user_set_initial k self
  | _ => ret tt
  end.

Definition _set_initial (self universe game_state : loc) : M unit :=
  let* p := self_player "_remote_game" self in
  (if default false (_remote_game p)
   then setattr "_store_universe" (with_store_universe store_ref) self
   else setattr "_store_universe" (with_store_universe store_copy) self) ;;
  setattr "_current_state" (with_current_state game_state) self ;;
  let* states := alloc (OList []) in
  setattr "universe_states" (with_universe_states states) self ;;
  call_store_universe self universe ;;
  let* i := getattr "_index" _index self in
  let* p := self_player "seed_offset" self in
  let seed_offset := default i (seed_offset p) in
  setattr "rnd" (with_rnd SystemSeeded) self ;;
  let* seed := dict_get game_state "seed" in
  match seed with
  | VNone => ret tt
  | _ =>
      let* seed := dict_getitem game_state "seed" in
      let* z := lift (add_int seed seed_offset) in
      setattr "rnd" (with_rnd (Seeded z)) self
  end ;;
  set_initial self.

(** The property [_current_uni]: [self.universe_states[-1]]. *)
Definition _current_uni (self : loc) : M loc :=
  let* states := getattr "universe_states" universe_states self in
  list_getitem states (-1).

(** [obj.name] must be a method of a universe. *)
Definition universe_of (name : string) (l : loc) : M universe :=
  let* o := load l in
  match o with
  | OUniverse u => ret u
  | _ => raise (AttributeError name)
  end.

(** [universe.bots[i]] *)
Definition bots_getitem (u : universe) (i : Z) : M Bot :=
  match getitem (bots u) i with
  | Some b => ret b
  | None => raise IndexError
  end.

(** The property [current_pos]. *)
Definition current_pos (self : loc) : M (Z * Z) :=
  let* cur := _current_uni self in
  let* u := universe_of "bots" cur in
  let* i := getattr "_index" _index self in
  let* b := bots_getitem u i in
  ret (datamodel.current_pos b).

(** The property [previous_pos]. *)
Definition previous_pos (self : loc) : M (Z * Z) :=
  let* states := getattr "universe_states" universe_states self in
  let* prev := list_getitem states (-2) in
  let* u := universe_of "bots" prev in
  let* i := getattr "_index" _index self in
  let* b := bots_getitem u i in
  ret (datamodel.current_pos b).

(** [SteppingPlayer._MOVES] *)
Definition _MOVES : gmap string move :=
  <["^" := north]> (<["v" := south]> (<["<" := west]> (<[">" := east]> (<["-" := stop]> ∅)))).

(** [SteppingPlayer.__init__(moves)], for a string or a list of moves. *)
Definition SteppingPlayer__init__ (moves : string + list move) : M loc :=
  match moves with
  | inl s => alloc (OPlayer (with_moves (gen_iter s) (new_player SteppingPlayer)))
  | inr l => alloc (OPlayer (with_moves (list_iter l) (new_player SteppingPlayer)))
  end.

(** [next(self.moves)]; a generator that has raised is finished. *)
Definition next_move (self : loc) : M move :=
  let* it := getattr "moves" moves self in
  match it with
  | list_iter [] => raise StopIteration
  | list_iter (m :: ms) => setattr "moves" (with_moves (list_iter ms)) self ;; ret m
  | gen_iter EmptyString => raise StopIteration
  | gen_iter (String c cs) =>
      match _MOVES !! String c EmptyString with
      | Some m => setattr "moves" (with_moves (gen_iter cs)) self ;; ret m
      | None =>
          setattr "moves" (with_moves (gen_iter EmptyString)) self ;;
          raise (KeyError (String c EmptyString))
      end
  end.

Definition is_StopIteration (e : exn) : bool :=
  match e with StopIteration => true | _ => false end.

(** The hook [get_move] of each class; [None] is Python's None. *)
Definition get_move (self : loc) : M (option move) :=
  let* p := self_player "get_move" self in
  match cls p with
  | StoppingPlayer => ret (Some stop)
  | SteppingPlayer =>
      try_except (let* m := next_move self in ret (Some m))
                 is_StopIteration
                 (raise (ValueError EmptyString))
  | MoveExceptionPlayer => raise (Exception "Exception from MoveExceptionPlayer.")
  | InitialExceptionPlayer => ret None
  | UserPlayer k => user_get_move k self
  end.

(** The statements of [_get_move] that come before the call of
    [self.get_move()].  The time marker kept for [time_spent] is left out. *)
Definition enter_get_move (self universe game_state : loc) : M unit :=
  setattr "_current_state" (with_current_state game_state) self ;;
  call_store_universe self universe ;;
  setattr "_say" (with_say EmptyString) self.

Definition _get_move (self universe game_state : loc) : M response :=
  enter_get_move self universe game_state ;;
  let* move := get_move self in
  let* say := getattr "_say" _say self in
  ret {| resp_move := move; resp_say := say |}.

(** The method [copy] of a class, if it defines one: Player2 and the classes
    of the module do not. *)
Definition class_copy (c : class_id) : option (loc -> M loc) :=
  match c with
  | UserPlayer k => user_copy k
  | _ => None
  end.

(** [self.copy()] *)
Definition copy (self : loc) : M loc :=
  let* p := self_player "copy" self in
  match class_copy (cls p) with
  | Some f => f self
  | None => raise (AttributeError "copy")
  end.

(** [universe.move_bot(i, move)] on the universe object at [l], whose
    content is [u]: the object is changed in place and the new game state
    is a new dict. *)
Definition call_move_bot (l : loc) (u : universe) (i : Z) (m : move) : M loc :=
  match move_bot u i m with
  | Ok (u', state) => store l (OUniverse u') ;; alloc (ODict state)
  | Raise e => raise e
  end.

Definition simulate_move (self : loc) (move : move) : M loc :=
  let* cur := _current_uni self in
  let* future_uni := obj_copy cur in
  let* future_self := copy self in
  let* u := universe_of "move_bot" future_uni in
  let* i := getattr "_index" _index self in
  let* new_state := call_move_bot future_uni u i move in
  let* states := getattr "universe_states" universe_states future_self in
  list_append states future_uni ;;
  setattr "_current_state" (with_current_state new_state) future_self ;;
  ret future_self.

(** Modelled from the spec: the [copy] method [simulate_move] needs, which
    base2.py does not contain: "clone the calling session's full state
    (history, metadata reference, bound index, random-stream state) into a
    new, unlinked session object".  The history becomes a new list of new
    copies of the snapshots; the metadata reference is kept. *)
Fixpoint copy_all (xs : list loc) : M (list loc) :=
  match xs with
  | [] => ret []
  | x :: r =>
      let* y := obj_copy x in
      let* ys := copy_all r in
      ret (y :: ys)
  end.

(** Modelled from the spec: see [copy_all]. *)
Definition clone_session (self : loc) : M loc :=
  let* p := self_player "copy" self in
  match universe_states p with
  | None => alloc (OPlayer p)
  | Some states =>
      let* o := load states in
      match o with
      | OList xs =>
          let* ys := copy_all xs in
          let* states' := alloc (OList ys) in
          alloc (OPlayer (with_universe_states states' p))
      | _ => raise (TypeError "universe_states is not a list")
      end
  end.

End player2.
End Player2.
Import Player2.

(** ** class SimpleTeam *)

Module SimpleTeam.
Section simple_team.
Context `{W : World} `{U : !Code}.

Import Team.

(** The SimpleTeam object behind [self]. *)
Definition self_team (name : string) (self : loc) : M Team.attrs :=
  let* o := load self in
  match o with
  | OTeam t => ret t
  | _ => raise (AttributeError name)
  end.

(** The methods every Player2 instance has by its class. *)
Definition player2_methods : list string :=
  ["_set_index"; "_set_initial"; "set_initial"; "_store_universe_copy";
   "_store_universe_ref"; "_get_move"; "get_move"; "time_spent";
   "simulate_move"; "say"].

(** [hasattr(o, name)] for a method name. *)
Definition hasattr (o : loc) (name : string) : M bool :=
  let* x := load o in
  ret match x with
      | OPlayer _ => bool_decide (name ∈ player2_methods)
      | OForeign names => bool_decide (name ∈ names)
      | _ => false
      end.

(** The inner loop of [__init__], over the method names still to check. *)
Fixpoint check_methods (player : loc) (methods : list string) : M unit :=
  match methods with
  | [] => ret tt
  | method :: rest =>
      let* b := hasattr player method in
      if b then check_methods player rest
      else raise (TypeError ("player missing " +:+ method +:+ "()"))
  end.

Definition required_methods : list string := ["_set_index"; "_get_move"; "_set_initial"].

(** The outer loop of [__init__]. *)
Fixpoint check_players (players : list loc) : M unit :=
  match players with
  | [] => ret tt
  | player :: rest => check_methods player required_methods ;; check_players rest
  end.

(** [player._remote_game = v] *)
Definition set_player_remote_game (v : bool) (player : loc) : M unit :=
  let* o := load player in
  match o with
  | OPlayer p => store player (OPlayer (with_remote_game v p))
  | OForeign names => store player (OForeign ("_remote_game" :: names))
  | _ => raise (AttributeError "_remote_game")
  end.

Fixpoint set_players_remote_game (v : bool) (players : list loc) : M unit :=
  match players with
  | [] => ret tt
  | player :: rest => set_player_remote_game v player ;; set_players_remote_game v rest
  end.

(** The setter of the property [remote_game]. *)
Definition set_remote_game (self : loc) (remote_game : bool) : M unit :=
  let* t := self_team "_remote_game" self in
  store self (OTeam {| team_name := team_name t; _players := _players t;
                       _bot_players := _bot_players t; _remote_game := remote_game |}) ;;
  set_players_remote_game remote_game (_players t).

(** [SimpleTeam(args...)]: the new team object, once [__init__] has run. *)
Definition __init__ (args : list loc) : M loc :=
  match args with
  | [] => raise (ValueError "No teams given.")
  | first :: rest =>
      let* o := load first in
      let '(name, players) :=
        match o with
        | OStr s => (s, rest)
        | _ => (EmptyString, args)
        end in
      check_players players ;;
      let* self := alloc (OTeam {| team_name := name; _players := players;
                                   _bot_players := ∅; _remote_game := false |}) in
      set_remote_game self false ;;
      ret self
  end.

(** [player._set_index(i)] and [player._set_initial(universe, game_state)]
    on a Player2 instance or on any other object. *)
Definition call_set_index (player : loc) (i : Z) : M unit :=
  let* o := load player in
  match o with
  | OPlayer _ => _set_index player i
  | OForeign names =>
      if bool_decide ("_set_index" ∈ names) then duck_set_index player i
      else raise (AttributeError "_set_index")
  | _ => raise (AttributeError "_set_index")
  end.

Definition call_set_initial (player universe game_state : loc) : M unit :=
  let* o := load player in
  match o with
  | OPlayer _ => _set_initial player universe game_state
  | OForeign names =>
      if bool_decide ("_set_initial" ∈ names) then duck_set_initial player universe game_state
      else raise (AttributeError "_set_initial")
  | _ => raise (AttributeError "_set_initial")
  end.

Definition call_get_move (player universe game_state : loc) : M response :=
  let* o := load player in
  match o with
  | OPlayer _ => _get_move player universe game_state
  | OForeign names =>
      if bool_decide ("_get_move" ∈ names) then duck_get_move player universe game_state
      else raise (AttributeError "_get_move")
  | _ => raise (AttributeError "_get_move")
  end.

(** [self._bot_players[i] = player] *)
Definition register (self : loc) (i : Z) (player : loc) : M unit :=
  let* t := self_team "_bot_players" self in
  store self (OTeam {| team_name := team_name t; _players := _players t;
                       _bot_players := <[i := player]> (_bot_players t);
                       _remote_game := _remote_game t |}).

(** The loop of [set_initial] over [zip(team_bots, self._players)]. *)
Fixpoint bind_bots (self universe game_state : loc) (pairs : list (Bot * loc)) : M unit :=
  match pairs with
  | [] => ret tt
  | (bot, player) :: rest =>
      call_set_index player (index bot) ;;
      call_set_initial player universe game_state ;;
      register self (index bot) player ;;
      bind_bots self universe game_state rest
  end.

Definition set_initial (self : loc) (team_id : Z) (universe game_state : loc) : M string :=
  let* u := universe_of "team_bots" universe in
  let team_bots := team_bots u team_id in
  let* t := self_team "_players" self in
  if bool_decide (length (_players t) < length team_bots)%nat
  then raise (ValueError ("Tried to set " +:+ pretty (length team_bots) +:+
                          " bot_ids with only " +:+ pretty (length (_players t)) +:+
                          " Players."))
  else
    bind_bots self universe game_state (zip team_bots (_players t)) ;;
    let* t := self_team "team_name" self in
    ret (team_name t).

Definition get_move (self : loc) (bot_id : Z) (universe game_state : loc) : M response :=
  let* t := self_team "_bot_players" self in
  match _bot_players t !! bot_id with
  | Some player => call_get_move player universe game_state
  | None => raise (KeyError (pretty bot_id))
  end.

End simple_team.
End SimpleTeam.

(** ** A small world to evaluate the code on

  Bots on an unbounded grid without walls: a move is a pair of integers,
  the five directions are legal for a bot of the universe and every other
  move is rejected.  Teams are told apart by the parity of the bot index.
  User class 0 defines [copy] as a clone of the session and
  answers a move request with its previous position; the other user
  classes stand still and define nothing else. *)

Module Grid.

Definition directions : list (Z * Z) := [(0, -1); (0, 1); (-1, 0); (1, 0); (0, 0)].

Definition step (m : Z * Z) (b : Bot) : Bot :=
  {| datamodel.index := index b;
     datamodel.current_pos :=
       ((datamodel.current_pos b).1 + m.1, (datamodel.current_pos b).2 + m.2);
     datamodel.initial_pos := initial_pos b |}.

Definition grid_move_bot (u : list Bot) (i : Z) (m : Z * Z)
  : res (list Bot * gmap string val) :=
  if bool_decide (m ∈ directions) then
    match getitem u i with
    | Some b => Ok (<[Z.to_nat (if i <? 0 then i + Z.of_nat (length u) else i) := step m b]> u,
                    {["bot_moved" := VInt i]})
    | None => Raise IndexError
    end
  else Raise IllegalMoveException.

#[export] Instance world : World := {|
  universe := list Bot;
  move := Z * Z;
  north := (0, -1);
  south := (0, 1);
  west := (-1, 0);
  east := (1, 0);
  stop := (0, 0);
  bots := fun u => u;
  team_bots := fun u team => filter (fun b => index b `mod` 2 = team) u;
  move_bot := grid_move_bot;
|}.

#[export] Instance code : Code := {|
  user_set_initial := fun _ _ => ret tt;
  user_get_move := fun k self =>
    match k with
    | O => let* pos := previous_pos self in ret (Some pos)
    | _ => ret (Some (0, 0))
    end;
  user_copy := fun k => match k with O => Some clone_session | _ => None end;
  duck_set_index := fun _ _ => ret tt;
  duck_set_initial := fun _ _ _ => ret tt;
  duck_get_move := fun _ _ _ => ret {| resp_move := Some (0, 0); resp_say := EmptyString |};
|}.

Definition bot (i : Z) (pos : Z * Z) : Bot :=
  {| datamodel.index := i; datamodel.current_pos := pos;
     datamodel.initial_pos := pos |}.

Definition two_bots : list Bot := [bot 0 (1, 1); bot 1 (5, 5)].

(** A store with a universe at 0, a game state with seed 42 at 1 and a new
    player object of class [c] at 2. *)
Definition store0 (c : class_id) : heap :=
  [OUniverse two_bots; ODict {["seed" := VInt 42]}; OPlayer (new_player c)].

(** The store once the player at 2 has been bound to bot [i]. *)
Definition bound (c : class_id) (i : Z) : heap :=
  (_set_index 2%nat i (store0 c)).1.

(** The store once the player at 2 has been bound to bot 0 and initialized
    with the universe and the game state. *)
Definition started (c : class_id) : heap :=
  (_set_initial 2%nat 0%nat 1%nat (bound c 0)).1.

(** The same player bound to bot 0, in a remote game. *)
Definition remote (c : class_id) : heap :=
  [OUniverse two_bots; ODict {["seed" := VInt 42]};
   OPlayer (with_remote_game true (with_index 0 (new_player c)))].

(** A universe whose bots 3 and 7 are those of team 1, a game state with
    seed 42 and two players that stand still. *)
Definition lineup : heap :=
  [OUniverse [bot 3 (1, 1); bot 7 (2, 2)]; ODict {["seed" := VInt 42]};
   OPlayer (new_player StoppingPlayer); OPlayer (new_player StoppingPlayer)].

(** The store once a team has been made of the players given. *)
Definition fielded (players : list loc) : heap :=
  (SimpleTeam.__init__ players lineup).1.

End Grid.

(** ** What a store says about a session *)

Module Session.
Section session.
Context `{W : World}.
Implicit Types (h : heap) (s l : loc).

Definition player_at h s : option player :=
  match h !! s with
  | Some (OPlayer p) => Some p
  | _ => None
  end.

Definition team_at h s : option Team.attrs :=
  match h !! s with
  | Some (OTeam t) => Some t
  | _ => None
  end.

(** The content of the universe object at [l]. *)
Definition snapshot h l : option universe :=
  match h !! l with
  | Some (OUniverse u) => Some u
  | _ => None
  end.

(** The history of the session at [s]: the entries of its list
    [universe_states]. *)
Definition history h s : option (list loc) :=
  match player_at h s with
  | Some p =>
      match universe_states p with
      | Some states =>
          match h !! states with
          | Some (OList us) => Some us
          | _ => None
          end
      | None => None
      end
  | None => None
  end.

(** What the history reports: the content of every entry, in order. *)
Definition reports h s : option (list universe) :=
  match history h s with
  | Some us => mapM (snapshot h) us
  | None => None
  end.

(** The metadata reference of the session: [_current_state]. *)
Definition metadata h s : option loc :=
  match player_at h s with
  | Some p => _current_state p
  | None => None
  end.

(** The random stream of the session. *)
Definition stream h s : option Random :=
  match player_at h s with
  | Some p => rnd p
  | None => None
  end.

(** The seed of the stream of the session: the argument [seed] was called
    with, if it was called. *)
Definition stream_seed h s : option Z :=
  match stream h s with
  | Some (Seeded z) => Some z
  | _ => None
  end.

(** The storage policy of the session. *)
Definition policy h s : option store_policy :=
  match player_at h s with
  | Some p => _store_universe p
  | None => None
  end.

(** The bound bot index of the session. *)
Definition bound_index h s : option Z :=
  match player_at h s with
  | Some p => _index p
  | None => None
  end.

(** A session of class [c] bound to bot [i] whose history holds the
    universe objects [us]. *)
Definition session h s (c : class_id) (i : Z) (us : list loc) : Prop :=
  ∃ p states,
    h !! s = Some (OPlayer p) ∧ cls p = c ∧ _index p = Some i ∧
    universe_states p = Some states ∧ h !! states = Some (OList us) ∧
    Forall (λ l, is_Some (snapshot h l)) us.

(** An initialized session: at least the initial snapshot is stored. *)
Definition initialized h s : Prop :=
  ∃ c i us, session h s c i us ∧ us ≠ [].

(** A session object on which [_set_initial] has not run. *)
Definition uninitialized h s : Prop :=
  ∃ p, h !! s = Some (OPlayer p) ∧ universe_states p = None.

(** The content of the current universe, the last entry of the history. *)
Definition current h s : option universe :=
  match history h s with
  | Some us =>
      match last us with
      | Some l => snapshot h l
      | None => None
      end
  | None => None
  end.

(** [n] successive calls of [c], with their results in order. *)
Fixpoint calls {A} (n : nat) (c : M A) : M (list A) :=
  match n with
  | O => ret []
  | S n => let* a := c in let* r := calls n c in ret (a :: r)
  end.

(** The moves a shorthand string stands for, when all its symbols are keys
    of [_MOVES]. *)
Fixpoint shorthand (symbols : string) : option (list move) :=
  match symbols with
  | EmptyString => Some []
  | String c cs =>
      match _MOVES !! String c EmptyString, shorthand cs with
      | Some m, Some ms => Some (m :: ms)
      | _, _ => None
      end
  end.

(** [hasattr(o, name)], read off the store. *)
Definition has_attr h (o : loc) (name : string) : bool :=
  match h !! o with
  | Some (OPlayer _) => bool_decide (name ∈ SimpleTeam.player2_methods)
  | Some (OForeign names) => bool_decide (name ∈ names)
  | _ => false
  end.

(** The object at [o] has the three methods SimpleTeam calls. *)
Definition capable h (o : loc) : bool :=
  forallb (has_attr h o) SimpleTeam.required_methods.

(** The first required method that the first deficient player lacks. *)
Fixpoint missing_method h (players : list loc) : option string :=
  match players with
  | [] => None
  | player :: rest =>
      match find (λ m, negb (has_attr h player m)) SimpleTeam.required_methods with
      | Some m => Some m
      | None => missing_method h rest
      end
  end.

(** The team name and the players [__init__] takes from its arguments. *)
Definition split_args h (args : list loc) : string * list loc :=
  match args with
  | [] => (EmptyString, [])
  | first :: rest =>
      match h !! first with
      | Some (OStr name) => (name, rest)
      | _ => (EmptyString, args)
      end
  end.

(** A Player2 instance or a foreign object: something attributes can be
    set on. *)
Definition agent h (o : loc) : Prop :=
  match h !! o with
  | Some (OPlayer _) | Some (OForeign _) => True
  | _ => False
  end.

(** The policy [_set_initial] chooses for a value of [_remote_game]. *)
Definition policy_of_flag (flag : option bool) : store_policy :=
  if default false flag then store_ref else store_copy.

(** The stream [_set_initial] makes for a game state and a seed offset. *)
Definition stream_of_seed (g : gmap string val) (offset : Z) : Random :=
  match g !! "seed" with
  | Some (VInt z) => Seeded (z + offset)
  | _ => SystemSeeded
  end.

(** The seed of a game state is missing, None or an integer. *)
Definition seed_ok (g : gmap string val) : Prop :=
  match g !! "seed" with
  | Some (VStr _) | Some (VNames _) => False
  | _ => True
  end.

(** The team attributes once [player] is registered under bot index [i]. *)
Definition registered (i : Z) (player : loc) (t : Team.attrs) : Team.attrs :=
  {| Team.team_name := Team.team_name t; Team._players := Team._players t;
     Team._bot_players := <[i := player]> (Team._bot_players t);
     Team._remote_game := Team._remote_game t |}.

(** Every object of [h] is found unchanged in [h']. *)
Definition preserved h h' : Prop :=
  ∀ l o, h !! l = Some o → h' !! l = Some o.

(** The original snapshot object at [l] is changed in place to [v]. *)
Definition mutate l (v : universe) h : heap := <[l := OUniverse v]> h.

End session.

Section contract.
Context `{W : World} `{U : !Code}.

(** What has become of the object [o] is [r]: a player object keeps its
    class and its bound index, any other object is unchanged. *)
Definition keeps (o : obj) (r : option obj) : Prop :=
  match o with
  | OPlayer q => ∃ q', r = Some (OPlayer q') ∧ cls q' = cls q ∧ _index q' = _index q
  | _ => r = Some o
  end.

Definition kept (h h' : heap) : Prop :=
  ∀ l o, h !! l = Some o → keeps o (h' !! l).

(** The hook [set_initial] of class [c] returns normally; it may allocate
    and set attributes of player objects other than the bound index. *)
Definition hook_returns (c : class_id) : Prop :=
  ∀ h s p, h !! s = Some (OPlayer p) → cls p = c →
    ∃ h', set_initial s h = (h', Ok tt) ∧ kept h h'.

(** Whatever the hook [set_initial] of class [c] does, and whether it
    returns or raises, it leaves the class and the bound index of every
    player object and every other object as they were; it may allocate and
    set other attributes of player objects. *)
Definition hook_keeps (c : class_id) : Prop :=
  ∀ h s p h' r, h !! s = Some (OPlayer p) → cls p = c →
    set_initial s h = (h', r) → kept h h'.

End contract.

End Session.
Import Session.

(** ** class TurnBasedPlayer

    [get_move] reads and writes the attributes [moves] and [turn_index] of
    the player and nothing else: the two are passed along explicitly. *)

Module TurnBasedPlayer.
Section turn_based.
Context `{W : World}.

(** [moves]: a list or a dict of moves. *)
Inductive table :=
| table_list (l : list move)
| table_dict (d : gmap Z move).

(** The two attributes; [None] is Python's None. *)
Record attrs := { moves : table; turn_index : option Z }.

Definition __init__ (moves : table) : attrs :=
  {| moves := moves; turn_index := None |}.

(** [moves[i]] *)
Definition moves_getitem (t : table) (i : Z) : res move :=
  match t with
  | table_list l =>
      match getitem l i with
      | Some m => Ok m
      | None => Raise IndexError
      end
  | table_dict d =>
      match d !! i with
      | Some m => Ok m
      | None => Raise (KeyError (pretty i))
      end
  end.

Definition get_move (self : attrs) : attrs * res move :=
  let i := match turn_index self with
           | None => 0
           | Some i => i + 1
           end in
  let self' := {| moves := moves self; turn_index := Some i |} in
  match moves_getitem (moves self') i with
  | Raise IndexError | Raise (KeyError _) => (self', Ok stop)
  | r => (self', r)
  end.

(** The answer to the call number [n], counted from 0, after [__init__]. *)
Fixpoint nth_move (n : nat) (self : attrs) : res move :=
  match n with
  | O => (get_move self).2
  | S n => nth_move n (get_move self).1
  end.

(** The entry of a table under the turn [n], if there is one. *)
Definition entry (t : table) (n : nat) : option move :=
  match t with
  | table_list l => l !! n
  | table_dict d => d !! Z.of_nat n
  end.

End turn_based.
End TurnBasedPlayer.

(** ** More of class Player2 *)

Module Player2Views.
Section views.
Context `{W : World} `{U : !Code}.

(** The property [current_state]. *)
Definition current_state (self : loc) : M loc :=
  getattr "_current_state" _current_state self.

(** The property [initial_pos]. *)
Definition initial_pos (self : loc) : M (Z * Z) :=
  let* cur := _current_uni self in
  let* u := universe_of "bots" cur in
  let* i := getattr "_index" _index self in
  let* b := bots_getitem u i in
  ret (datamodel.initial_pos b).

(** [say(text)] *)
Definition say (self : loc) (text : string) : M unit :=
  setattr "_say" (with_say text) self.

(** [universe.bots[i].current_pos] and [universe.bots[i].initial_pos] as
    results: an index outside the list is an IndexError. *)
Definition bot_current_pos (u : universe) (i : Z) : res (Z * Z) :=
  match getitem (bots u) i with
  | Some b => Ok (datamodel.current_pos b)
  | None => Raise IndexError
  end.

Definition bot_initial_pos (u : universe) (i : Z) : res (Z * Z) :=
  match getitem (bots u) i with
  | Some b => Ok (datamodel.initial_pos b)
  | None => Raise IndexError
  end.

End views.
End Player2Views.
Import Player2Views.

(** ** Teams of Player2 instances *)

Module TeamViews.
Section team_views.
Context `{W : World}.

(** The class inherits the hook [set_initial] of Player2, which does
    nothing. *)
Definition inherits_hook (c : class_id) : Prop :=
  match c with
  | InitialExceptionPlayer | UserPlayer _ => False
  | _ => True
  end.

(** The object at [l] is a Player2 instance whose class inherits the hook. *)
Definition plain_player (h : heap) (l : loc) : Prop :=
  ∃ p, h !! l = Some (OPlayer p) ∧ inherits_hook (cls p).

(** The team attributes with the flag [_remote_game] set to [v]. *)
Definition flagged (v : bool) (t : Team.attrs) : Team.attrs :=
  {| Team.team_name := Team.team_name t; Team._players := Team._players t;
     Team._bot_players := Team._bot_players t; Team._remote_game := v |}.

(** What [set_initial] leaves of the player at [pl], which was [p] in the
    store [h] and is bound to the bot [b], in the store [h']: the
    attributes of an initialized session, whose history is one entry, a
    copy made after [h] or the universe at [lu] itself. *)
Definition set_up (h : heap) (lu : loc) (u : universe) (lg : loc) (g : gmap string val)
    (b : Bot) (p : player) (h' : heap) (pl : loc) : Prop :=
  ∃ e,
    bound_index h' pl = Some (index b) ∧
    policy h' pl = Some (policy_of_flag (_remote_game p)) ∧
    metadata h' pl = Some lg ∧
    stream h' pl = Some (stream_of_seed g (default (index b) (seed_offset p))) ∧
    history h' pl = Some [e] ∧ reports h' pl = Some [u] ∧
    match policy_of_flag (_remote_game p) with
    | store_copy => (length h <= e)%nat
    | store_ref => e = lu
    end.

End team_views.
End TeamViews.
Import TeamViews.

(** ** A user class with a shallow copy

    On the small world again: user class 0 now defines [copy] as a new
    object with the attributes of the original, so that the two share the
    list [universe_states]; it stands still. *)

Module Shallow.
Import Grid.

Definition shallow_copy (self : loc) : M loc :=
  let* p := self_player "copy" self in
  alloc (OPlayer p).

Definition code : Code := {|
  user_set_initial := fun _ _ => ret tt;
  user_get_move := fun _ _ => ret (Some (0, 0));
  user_copy := fun k => match k with O => Some shallow_copy | _ => None end;
  duck_set_index := fun _ _ => ret tt;
  duck_set_initial := fun _ _ _ => ret tt;
  duck_get_move := fun _ _ _ => ret {| resp_move := Some (0, 0); resp_say := EmptyString |};
|}.

End Shallow.

(** ** Further samples on the small world *)

Module Samples.
Import Grid.

(** The player object of [started c]. *)
Definition started_player (c : class_id) : player :=
  with_rnd (Seeded 42) (with_universe_states 3%nat (with_current_state 1%nat
    (with_store_universe store_copy (with_index 0 (new_player c))))).

(** The universe once bot 0 has gone east. *)
Definition moved : list Bot := [step (1, 0) (bot 0 (1, 1)); bot 1 (5, 5)].

(** [started c] with that universe as a further object, at 5. *)
Definition second_round (c : class_id) : heap := started c ++ [OUniverse moved].

(** The attributes of a new team of [players] without a name. *)
Definition team_of (players : list loc) : Team.attrs :=
  {| Team.team_name := EmptyString; Team._players := players;
     Team._bot_players := ∅; Team._remote_game := false |}.

(** A store whose game state is [g], with a player bound to bot 0. *)
Definition seeded_with (g : gmap string val) : heap :=
  [OUniverse two_bots; ODict g; OPlayer (with_index 0 (new_player StoppingPlayer))].

(** A player, an object that has [_set_index] only and an object that has
    none of the three methods. *)
Definition crowd : heap :=
  [OPlayer (new_player StoppingPlayer); OForeign ["_set_index"]; OForeign []].

End Samples.

(** * Properties *)

(** ** Running the primitives *)

Section run.
Context `{W : World} `{U : !Code}.
Implicit Types (h : heap) (s l : loc) (p : player).

Lemma run_bind {A B} (c : M A) (k : A -> M B) h h' a :
  c h = (h', Ok a) -> bind c k h = k a h'.
Proof. unfold bind. by intros ->. Qed.

Lemma run_bind_raise {A B} (c : M A) (k : A -> M B) h h' e :
  c h = (h', Raise e) -> bind c k h = (h', Raise e).
Proof. unfold bind. by intros ->. Qed.

Lemma bind_assoc {A B C} (c : M A) (k : A -> M B) (k' : B -> M C) h :
  bind (bind c k) k' h = bind c (λ a, bind (k a) k') h.
Proof. unfold bind. by destruct (c h) as [h' [a|e]]. Qed.

Lemma run_bind_same {A B} (c c' : M A) (k : A -> M B) h h' :
  c h = c' h' -> bind c k h = bind c' k h'.
Proof. unfold bind. by intros ->. Qed.

Lemma run_load h l o : h !! l = Some o -> load l h = (h, Ok o).
Proof. unfold load. by intros ->. Qed.

Lemma run_self_player name h s p :
  h !! s = Some (OPlayer p) -> self_player name s h = (h, Ok p).
Proof. intros Hs. unfold self_player. by rewrite (run_bind _ _ _ _ _ (run_load _ _ _ Hs)). Qed.

Lemma run_getattr {A} name (field : player -> option A) h s p v :
  h !! s = Some (OPlayer p) -> field p = Some v ->
  getattr name field s h = (h, Ok v).
Proof.
  intros Hs Hf. unfold getattr.
  rewrite (run_bind _ _ _ _ _ (run_self_player name _ _ _ Hs)). by rewrite Hf.
Qed.

Lemma run_getattr_unset {A} name (field : player -> option A) h s p :
  h !! s = Some (OPlayer p) -> field p = None ->
  getattr name field s h = (h, Raise (AttributeError name)).
Proof.
  intros Hs Hf. unfold getattr.
  rewrite (run_bind _ _ _ _ _ (run_self_player name _ _ _ Hs)). by rewrite Hf.
Qed.

Lemma run_setattr name upd h s p :
  h !! s = Some (OPlayer p) ->
  setattr name upd s h = (<[s := OPlayer (upd p)]> h, Ok tt).
Proof.
  intros Hs. unfold setattr.
  by rewrite (run_bind _ _ _ _ _ (run_self_player name _ _ _ Hs)).
Qed.

Lemma run_universe_of name h l u :
  h !! l = Some (OUniverse u) -> universe_of name l h = (h, Ok u).
Proof. intros Hl. unfold universe_of. by rewrite (run_bind _ _ _ _ _ (run_load _ _ _ Hl)). Qed.

Lemma run_obj_copy h l u :
  h !! l = Some (OUniverse u) -> obj_copy l h = (h ++ [OUniverse u], Ok (length h)).
Proof. intros Hl. unfold obj_copy. by rewrite (run_bind _ _ _ _ _ (run_load _ _ _ Hl)). Qed.

Lemma run_list_append h lst xs x :
  h !! lst = Some (OList xs) ->
  list_append lst x h = (<[lst := OList (xs ++ [x])]> h, Ok tt).
Proof. intros Hl. unfold list_append. by rewrite (run_bind _ _ _ _ _ (run_load _ _ _ Hl)). Qed.

Lemma run_list_getitem h lst xs i x :
  h !! lst = Some (OList xs) -> getitem xs i = Some x ->
  list_getitem lst i h = (h, Ok x).
Proof.
  intros Hl Hi. unfold list_getitem.
  rewrite (run_bind _ _ _ _ _ (run_load _ _ _ Hl)). by rewrite Hi.
Qed.

Lemma run_list_getitem_out h lst xs i :
  h !! lst = Some (OList xs) -> getitem xs i = None ->
  list_getitem lst i h = (h, Raise IndexError).
Proof.
  intros Hl Hi. unfold list_getitem.
  rewrite (run_bind _ _ _ _ _ (run_load _ _ _ Hl)). by rewrite Hi.
Qed.

(** Python's [xs[-1]] is the last element and [xs[-2]] the one before. *)
Lemma getitem_last {A} (xs : list A) x : getitem (xs ++ [x]) (-1) = Some x.
Proof.
  unfold getitem. rewrite length_app, Nat.add_1_r. simpl length.
  replace (-1 <? 0) with true by done.
  destruct (_ && _) eqn:Hb.
  - replace (Z.to_nat (-1 + Z.of_nat (S (length xs)))) with (length xs) by lia.
    by apply list_lookup_middle.
  - apply andb_false_iff in Hb as [Hb|Hb]; [apply Z.leb_gt in Hb | apply Z.ltb_ge in Hb]; lia.
Qed.

Lemma getitem_before_last {A} (xs : list A) x y :
  getitem (xs ++ [x; y]) (-2) = Some x.
Proof.
  unfold getitem. rewrite length_app. simpl length.
  replace (-2 <? 0) with true by done.
  destruct (_ && _) eqn:Hb.
  - replace (Z.to_nat (-2 + Z.of_nat (length xs + 2))) with (length xs) by lia.
    by apply list_lookup_middle.
  - apply andb_false_iff in Hb as [Hb|Hb]; [apply Z.leb_gt in Hb | apply Z.ltb_ge in Hb]; lia.
Qed.

Lemma getitem_short {A} (xs : list A) :
  (length xs < 2)%nat -> getitem xs (-2) = None.
Proof.
  intros Hlen. unfold getitem. replace (-2 <? 0) with true by done.
  destruct (_ && _) eqn:Hb; [|done].
  apply andb_true_iff in Hb as [Hb _]. apply Z.leb_le in Hb. lia.
Qed.

End run.

Section frame.
Context `{W : World} `{U : !Code}.
Implicit Types (h : heap) (s l : loc) (p : player).

Lemma preserved_refl h : preserved h h.
Proof. by intros l o. Qed.

Lemma preserved_trans h1 h2 h3 : preserved h1 h2 -> preserved h2 h3 -> preserved h1 h3.
Proof. intros H12 H23 l o Hl. by apply H23, H12. Qed.

Lemma preserved_app h ext : preserved h (h ++ ext).
Proof. intros l o Hl. by apply lookup_app_l_Some. Qed.

Lemma preserved_insert_fresh h h' l o :
  preserved h h' -> (length h <= l)%nat -> preserved h (<[l := o]> h').
Proof.
  intros Hp Hl k x Hk. rewrite list_lookup_insert_ne; [by apply Hp|].
  apply lookup_lt_Some in Hk. lia.
Qed.

Lemma preserved_length h h' : preserved h h' -> (length h <= length h')%nat.
Proof.
  intros Hp. destruct (decide (length h <= length h')%nat) as [|Hn]; [done|].
  destruct (lookup_lt_is_Some_2 h (length h')) as [o Ho]; [lia|].
  apply Hp, lookup_lt_Some in Ho. lia.
Qed.

Lemma preserved_snapshot h h' l u :
  preserved h h' -> snapshot h l = Some u -> snapshot h' l = Some u.
Proof.
  unfold snapshot. intros Hp Hl.
  destruct (h !! l) as [[]|] eqn:E; simplify_eq. by rewrite (Hp _ _ E).
Qed.

Lemma preserved_history h h' s us :
  preserved h h' -> history h s = Some us -> history h' s = Some us.
Proof.
  unfold history, player_at. intros Hp Hs.
  destruct (h !! s) as [[]|] eqn:E; simplify_eq. rewrite (Hp _ _ E).
  destruct (universe_states p) as [states|]; simplify_eq.
  destruct (h !! states) as [[]|] eqn:E'; simplify_eq. by rewrite (Hp _ _ E').
Qed.

Lemma preserved_mapM h h' us rs :
  preserved h h' -> mapM (snapshot h) us = Some rs -> mapM (snapshot h') us = Some rs.
Proof.
  intros Hp. rewrite !mapM_Some. intros HF.
  eapply Forall2_impl; [exact HF|]. intros l u. by apply preserved_snapshot.
Qed.

Lemma preserved_reports h h' s rs :
  preserved h h' -> reports h s = Some rs -> reports h' s = Some rs.
Proof.
  unfold reports. intros Hp Hr.
  destruct (history h s) as [us|] eqn:E; simplify_eq.
  rewrite (preserved_history _ _ _ _ Hp E). by eapply preserved_mapM.
Qed.

Lemma preserved_metadata h h' s g :
  preserved h h' -> metadata h s = Some g -> metadata h' s = Some g.
Proof.
  unfold metadata, player_at. intros Hp Hs.
  destruct (h !! s) as [[]|] eqn:E; simplify_eq. by rewrite (Hp _ _ E).
Qed.

Lemma preserved_session h h' s c i us :
  preserved h h' -> session h s c i us -> session h' s c i us.
Proof.
  intros Hp (p & states & Hs & Hc & Hi & Hst & Hl & HF).
  exists p, states. repeat split; auto.
  eapply Forall_impl; [exact HF|]. intros l [u Hu]. exists u.
  by eapply preserved_snapshot.
Qed.

Lemma snapshot_Some h l u : snapshot h l = Some u <-> h !! l = Some (OUniverse u).
Proof.
  unfold snapshot. split.
  - destruct (h !! l) as [[]|]; naive_solver.
  - by intros ->.
Qed.

Lemma reports_Some h s p states us rs :
  h !! s = Some (OPlayer p) -> universe_states p = Some states ->
  h !! states = Some (OList us) ->
  Forall2 (λ l r, h !! l = Some (OUniverse r)) us rs ->
  reports h s = Some rs.
Proof.
  intros Hs Hst Hl HF. unfold reports, history, player_at. rewrite Hs, Hst, Hl.
  apply mapM_Some. eapply Forall2_impl; [exact HF|]. intros l r. apply snapshot_Some.
Qed.

End frame.

(** ** Speculative moves *)

Section simulate.
Context `{W : World} `{U : !Code}.
Implicit Types (h : heap) (s l : loc) (p : player).

(** Copying the snapshots of a history allocates one new universe object
    per entry, with the same content, and touches nothing else. *)
Lemma run_copy_all h0 us : forall h,
  preserved h0 h ->
  Forall (λ l, is_Some (snapshot h0 l)) us ->
  ∃ ext ys, copy_all us h = (h ++ ext, Ok ys) ∧
    Forall2 (λ x y, (length h <= y)%nat ∧ snapshot (h ++ ext) y = snapshot h0 x) us ys.
Proof.
  induction us as [|x us IH]; intros h Hp HF.
  - exists [], []. rewrite app_nil_r. by split.
  - apply Forall_cons in HF as [[u Hx] HF].
    pose proof (preserved_snapshot _ _ _ _ Hp Hx) as Hx'.
    apply snapshot_Some in Hx'. simpl.
    rewrite (run_bind _ _ _ _ _ (run_obj_copy _ _ _ Hx')).
    destruct (IH (h ++ [OUniverse u])) as (ext & ys & Hrun & Hys); [|done|].
    { eapply preserved_trans; [exact Hp|apply preserved_app]. }
    rewrite (run_bind _ _ _ _ _ Hrun). exists ([OUniverse u] ++ ext), (length h :: ys).
    rewrite app_assoc. split; [done|]. constructor.
    + split; [lia|]. rewrite Hx. apply snapshot_Some.
      apply lookup_app_l_Some. by apply list_lookup_middle.
    + eapply Forall2_impl; [exact Hys|]. intros a b [Hlen Hsn].
      rewrite length_app in Hlen. simpl in Hlen. split; [lia|done].
Qed.

Lemma Forall2_length_eq {A B} (R : A -> B -> Prop) (xs : list A) (ys : list B) :
  Forall2 R xs ys -> length ys = length xs.
Proof. intros HF. symmetry. by eapply Forall2_length. Qed.

(** The modelled [copy]: a new session object with a new history list. *)
Lemma run_clone_session h s p states us :
  h !! s = Some (OPlayer p) -> universe_states p = Some states ->
  h !! states = Some (OList us) ->
  Forall (λ l, is_Some (snapshot h l)) us ->
  ∃ ext ys,
    clone_session s h =
      (((h ++ ext) ++ [OList ys]) ++ [OPlayer (with_universe_states (length (h ++ ext)) p)],
       Ok (S (length (h ++ ext)))) ∧
    Forall2 (λ x y, (length h <= y)%nat ∧ snapshot (h ++ ext) y = snapshot h x) us ys.
Proof.
  intros Hs Hst Hl HF. unfold clone_session.
  rewrite (run_bind _ _ _ _ _ (run_self_player _ _ _ _ Hs)), Hst.
  rewrite (run_bind _ _ _ _ _ (run_load _ _ _ Hl)).
  destruct (run_copy_all h us h (preserved_refl h) HF) as (ext & ys & Hrun & Hys).
  exists ext, ys. split; [|done].
  rewrite (run_bind _ _ _ _ _ Hrun). unfold bind, alloc.
  do 2 f_equal. rewrite (length_app (h ++ ext)). simpl. lia.
Qed.


Lemma run_current_uni h s p states us l :
  h !! s = Some (OPlayer p) -> universe_states p = Some states ->
  h !! states = Some (OList us) -> last us = Some l ->
  _current_uni s h = (h, Ok l).
Proof.
  intros Hs Hst Hl Hlast. unfold _current_uni.
  rewrite (run_bind _ _ _ _ _ (run_getattr _ _ _ _ _ _ Hs Hst)).
  eapply run_list_getitem; [exact Hl|].
  destruct (last_Some us l) as [[us' ->] _]; [done|]. apply getitem_last.
Qed.

(** The entries of [current]. *)
Lemma current_Some h s c i us u :
  session h s c i us -> current h s = Some u ->
  ∃ l, last us = Some l ∧ h !! l = Some (OUniverse u).
Proof.
  intros (p & states & Hs & _ & _ & Hst & Hl & _). unfold current, history, player_at.
  rewrite Hs, Hst, Hl. destruct (last us) as [l|]; [|done].
  intros Hu. exists l. split; [done|]. by apply snapshot_Some.
Qed.

(** A move the universe accepts: the session returned is a new object with
    one more snapshot, and every object that existed is left as it was. *)
Lemma simulate_move_accepted h s c i us rs u m u' g :
  session h s c i us -> reports h s = Some rs -> current h s = Some u ->
  class_copy c = Some clone_session ->
  move_bot u i m = Ok (u', g) ->
  ∃ h' s' us' g',
    simulate_move s m h = (h', Ok s') ∧ preserved h h' ∧ (length h <= s')%nat ∧
    session h' s' c i us' ∧ length us' = S (length us) ∧
    reports h' s' = Some (rs ++ [u']) ∧ current h' s' = Some u' ∧
    metadata h' s' = Some g' ∧ h' !! g' = Some (ODict g).
Proof.
  intros Hsess Hrs Hcur Hcopy Hmove.
  destruct (current_Some _ _ _ _ _ _ Hsess Hcur) as (cur & Hlast & Hcuru).
  destruct Hsess as (p & states & Hs & Hc & Hi & Hst & Hl & HF).
  pose proof (lookup_lt_Some _ _ _ Hs) as Hslt.
  pose proof (lookup_lt_Some _ _ _ Hl) as Hllt.
  assert (Hold : Forall2 (λ l r, snapshot h l = Some r) us rs).
  { unfold reports, history, player_at in Hrs. rewrite Hs, Hst, Hl in Hrs.
    by apply mapM_Some in Hrs. }
  unfold simulate_move.
  rewrite (run_bind _ _ _ _ _ (run_current_uni _ _ _ _ _ _ Hs Hst Hl Hlast)).
  rewrite (run_bind _ _ _ _ _ (run_obj_copy _ _ _ Hcuru)).
  set (h1 := h ++ [OUniverse u]).
  assert (Hp1 : preserved h h1) by apply preserved_app.
  destruct (run_clone_session h1 s p states us) as (ext & ys & Hclone & Hys); auto.
  { eapply Forall_impl; [exact HF|]. intros l [v Hv]. exists v.
    by eapply preserved_snapshot. }
  set (h2 := h1 ++ ext) in *.
  set (p' := with_universe_states (length h2) p) in *.
  set (h4 := (h2 ++ [OList ys]) ++ [OPlayer p']) in *.
  assert (Hcopy' : copy s h1 = (h4, Ok (S (length h2)))).
  { unfold copy. rewrite (run_bind _ _ _ _ _ (run_self_player _ _ _ _ (Hp1 _ _ Hs))).
    by rewrite Hc, Hcopy. }
  rewrite (run_bind _ _ _ _ _ Hcopy').
  assert (Hlen1 : length h1 = S (length h)).
  { unfold h1. rewrite length_app. simpl. lia. }
  assert (Hlen2 : (length h1 <= length h2)%nat).
  { unfold h2. rewrite length_app. lia. }
  assert (Hlen4 : length h4 = S (S (length h2))).
  { unfold h4. rewrite !length_app. simpl. lia. }
  assert (Hp4 : preserved h1 h4).
  { unfold h4, h2. rewrite <- !app_assoc. apply preserved_app. }
  assert (Hfu : h4 !! length h = Some (OUniverse u)).
  { apply Hp4. by apply list_lookup_middle. }
  rewrite (run_bind _ _ _ _ _ (run_universe_of _ _ _ _ Hfu)).
  rewrite (run_bind _ _ _ _ _ (run_getattr _ _ _ _ _ _ (Hp4 _ _ (Hp1 _ _ Hs)) Hi)).
  unfold call_move_bot. rewrite Hmove.
  set (h5 := <[length h := OUniverse u']> h4).
  assert (Hlen5 : length h5 = length h4) by apply length_insert.
  set (h6 := h5 ++ [ODict g]).
  assert (Hmb : bind (store (length h) (OUniverse u')) (λ _, alloc (ODict g)) h4
                = (h6, Ok (length h4))).
  { unfold bind, store, alloc, h6, h5. by rewrite length_insert. }
  rewrite (run_bind _ _ _ _ _ Hmb).
  assert (Hfs6 : h6 !! S (length h2) = Some (OPlayer p')).
  { unfold h6. apply lookup_app_l_Some. unfold h5.
    rewrite list_lookup_insert_ne by lia. unfold h4.
    apply list_lookup_middle. rewrite length_app. simpl. lia. }
  assert (Hst6 : h6 !! length h2 = Some (OList ys)).
  { unfold h6. apply lookup_app_l_Some. unfold h5.
    rewrite list_lookup_insert_ne by lia. unfold h4.
    apply lookup_app_l_Some. by apply list_lookup_middle. }
  rewrite (run_bind _ _ _ _ _ (run_getattr _ _ _ _ _ (length h2) Hfs6 eq_refl)).
  rewrite (run_bind _ _ _ _ _ (run_list_append _ _ _ (length h) Hst6)).
  set (h7 := <[length h2 := OList (ys ++ [length h])]> h6).
  assert (Hfs7 : h7 !! S (length h2) = Some (OPlayer p')).
  { unfold h7. by rewrite list_lookup_insert_ne by lia. }
  rewrite (run_bind _ _ _ _ _ (run_setattr _ _ _ _ _ Hfs7)).
  set (p'' := with_current_state (length h4) p').
  set (h8 := <[S (length h2) := OPlayer p'']> h7).
  assert (Hlen6 : length h6 = S (length h4)).
  { unfold h6. rewrite length_app, Hlen5. simpl. lia. }
  assert (Hlen7 : length h7 = length h6) by apply length_insert.
  (* what the final store holds *)
  assert (Hp8 : preserved h h8).
  { unfold h8, h7. do 2 (apply preserved_insert_fresh; [|lia]).
    unfold h6. eapply preserved_trans; [|apply preserved_app].
    unfold h5. apply preserved_insert_fresh; [|lia].
    by eapply preserved_trans. }
  assert (Hnew : ∀ l, l ≠ S (length h2) -> l ≠ length h2 -> l ≠ length h ->
                      (l < length h2)%nat -> h8 !! l = h2 !! l).
  { intros l ? ? ? ?. unfold h8, h7. rewrite !list_lookup_insert_ne by done.
    unfold h6. rewrite lookup_app_l by lia. unfold h5.
    rewrite list_lookup_insert_ne by done. unfold h4.
    rewrite <- app_assoc. by rewrite lookup_app_l by lia. }
  exists h8, (S (length h2)), (ys ++ [length h]), (length h4).
  split; [done|]. split; [done|]. split; [lia|].
  assert (Hfs8 : h8 !! S (length h2) = Some (OPlayer p'')).
  { unfold h8. apply list_lookup_insert_eq. lia. }
  assert (Hst8 : h8 !! length h2 = Some (OList (ys ++ [length h]))).
  { unfold h8. rewrite list_lookup_insert_ne by lia. unfold h7.
    apply list_lookup_insert_eq. lia. }
  assert (Hfu8 : h8 !! length h = Some (OUniverse u')).
  { unfold h8, h7. rewrite !list_lookup_insert_ne by lia. unfold h6.
    apply lookup_app_l_Some. unfold h5. apply list_lookup_insert_eq. lia. }
  assert (Hcopied2 : Forall2 (λ y r, (length h1 <= y)%nat ∧ h2 !! y = Some (OUniverse r)) ys rs).
  { clear -Hys Hold Hp1. revert rs Hold.
    induction Hys as [|x y us ys [Hy Hsn] _ IH]; intros rs Hold.
    - apply Forall2_nil_inv_l in Hold as ->. constructor.
    - apply Forall2_cons_inv_l in Hold as (r & rs' & Hr & Hold & ->).
      constructor; [|by apply IH]. split; [done|].
      rewrite (preserved_snapshot _ _ _ _ Hp1 Hr) in Hsn. by apply snapshot_Some in Hsn. }
  assert (Hcopied : Forall2 (λ y r, h8 !! y = Some (OUniverse r)) ys rs).
  { eapply Forall2_impl; [exact Hcopied2|]. intros y r [Hy Hyr].
    pose proof (lookup_lt_Some _ _ _ Hyr). rewrite Hnew by lia. done. }
  split; [|split; [|split; [|split; [|split]]]].
  - exists p'', (length h2). repeat split; auto.
    apply Forall_app. split.
    + eapply Forall2_Forall_r; [exact Hys|].
      eapply Forall_impl; [exact HF|]. intros x [v Hv] y [Hy Hsn].
      rewrite (preserved_snapshot _ _ _ _ Hp1 Hv) in Hsn.
      apply snapshot_Some in Hsn. pose proof (lookup_lt_Some _ _ _ Hsn).
      exists v. apply snapshot_Some. rewrite Hnew by lia. done.
    + apply Forall_singleton. exists u'. by apply snapshot_Some.
  - rewrite length_app, (Forall2_length_eq _ _ _ Hys). simpl. lia.
  - eapply reports_Some; [exact Hfs8|reflexivity|exact Hst8|].
    apply Forall2_app; [done|]. by constructor.
  - unfold current, history, player_at. rewrite Hfs8. simpl. rewrite Hst8.
    rewrite last_snoc. by apply snapshot_Some.
  - unfold metadata, player_at. by rewrite Hfs8.
  - unfold h8, h7. rewrite !list_lookup_insert_ne by lia. unfold h6.
    apply list_lookup_middle. by rewrite Hlen5.
Qed.


(** A move the universe rejects: the exception of [move_bot] reaches the
    caller when the class has the modelled [copy]. *)
Lemma simulate_move_rejected h s c i us u m e :
  session h s c i us -> current h s = Some u ->
  class_copy c = Some clone_session ->
  move_bot u i m = Raise e ->
  ∃ h', simulate_move s m h = (h', Raise e) ∧ preserved h h'.
Proof.
  intros Hsess Hcur Hcopy Hmove.
  destruct (current_Some _ _ _ _ _ _ Hsess Hcur) as (cur & Hlast & Hcuru).
  destruct Hsess as (p & states & Hs & Hc & Hi & Hst & Hl & HF).
  unfold simulate_move.
  rewrite (run_bind _ _ _ _ _ (run_current_uni _ _ _ _ _ _ Hs Hst Hl Hlast)).
  rewrite (run_bind _ _ _ _ _ (run_obj_copy _ _ _ Hcuru)).
  set (h1 := h ++ [OUniverse u]).
  assert (Hp1 : preserved h h1) by apply preserved_app.
  destruct (run_clone_session h1 s p states us) as (ext & ys & Hclone & Hys); auto.
  { eapply Forall_impl; [exact HF|]. intros l [v Hv]. exists v.
    by eapply preserved_snapshot. }
  set (h4 := ((h1 ++ ext) ++ [OList ys]) ++ _) in *.
  assert (Hcopy' : copy s h1 = (h4, Ok (S (length (h1 ++ ext))))).
  { unfold copy. rewrite (run_bind _ _ _ _ _ (run_self_player _ _ _ _ (Hp1 _ _ Hs))).
    by rewrite Hc, Hcopy. }
  rewrite (run_bind _ _ _ _ _ Hcopy').
  assert (Hp4 : preserved h1 h4).
  { unfold h4. rewrite <- !app_assoc. apply preserved_app. }
  assert (Hfu : h4 !! length h = Some (OUniverse u)).
  { apply Hp4. by apply list_lookup_middle. }
  rewrite (run_bind _ _ _ _ _ (run_universe_of _ _ _ _ Hfu)).
  rewrite (run_bind _ _ _ _ _ (run_getattr _ _ _ _ _ _ (Hp4 _ _ (Hp1 _ _ Hs)) Hi)).
  unfold call_move_bot. rewrite Hmove.
  exists h4. split; [done|]. by eapply preserved_trans.
Qed.

(** No [copy] in the class: the call [self.copy()] fails, whatever the move. *)
Lemma simulate_move_no_copy h s c i us u m :
  session h s c i us -> current h s = Some u ->
  class_copy c = None ->
  simulate_move s m h = (h ++ [OUniverse u], Raise (AttributeError "copy")).
Proof.
  intros Hsess Hcur Hcopy.
  destruct (current_Some _ _ _ _ _ _ Hsess Hcur) as (cur & Hlast & Hcuru).
  destruct Hsess as (p & states & Hs & Hc & Hi & Hst & Hl & HF).
  unfold simulate_move.
  rewrite (run_bind _ _ _ _ _ (run_current_uni _ _ _ _ _ _ Hs Hst Hl Hlast)).
  rewrite (run_bind _ _ _ _ _ (run_obj_copy _ _ _ Hcuru)).
  apply run_bind_raise. unfold copy.
  rewrite (run_bind _ _ _ _ _ (run_self_player _ _ _ _ (preserved_app _ _ _ _ Hs))).
  by rewrite Hc, Hcopy.
Qed.

Lemma simulate_move_uninitialized h s m :
  uninitialized h s ->
  simulate_move s m h = (h, Raise (AttributeError "universe_states")).
Proof.
  intros (p & Hs & Hst). unfold simulate_move, _current_uni.
  do 2 apply run_bind_raise. by eapply run_getattr_unset.
Qed.

(** An initialized session has a current universe. *)
Lemma initialized_current h s :
  initialized h s -> ∃ c i us u, session h s c i us ∧ current h s = Some u.
Proof.
  intros (c & i & us & Hsess & Hne). exists c, i, us.
  destruct Hsess as (p & states & Hs & Hc & Hi & Hst & Hl & HF).
  destruct (last us) as [l|] eqn:Hlast.
  - destruct (proj1 (Forall_forall _ _) HF l) as [u Hu].
    { destruct (last_Some us l) as [[us' ->] _]; [done|]. set_solver. }
    exists u. split; [by exists p, states|].
    unfold current, history, player_at. by rewrite Hs, Hst, Hl, Hlast.
  - by apply last_None in Hlast.
Qed.

Lemma session_reports h s c i us : session h s c i us -> is_Some (reports h s).
Proof.
  intros (p & states & Hs & Hc & Hi & Hst & Hl & HF).
  unfold reports, history, player_at. rewrite Hs, Hst, Hl.
  by apply mapM_is_Some.
Qed.

Lemma session_history h s c i us : session h s c i us -> history h s = Some us.
Proof.
  intros (p & states & Hs & Hc & Hi & Hst & Hl & HF).
  unfold history, player_at. by rewrite Hs, Hst, Hl.
Qed.

(** C1 (as amended): for an initialized session whose class has a [copy]
    that clones the session, and moves [m1], [m2] that [move_bot] accepts,
    [simulate_move] returns a new session whose history has one more entry,
    and the chain of two calls a session with two more: they report what
    the original history reports, followed by the universes after the
    moves.  The history of the original session, what it reports, its
    metadata reference and the session object itself are as before. *)
Theorem C1_simulate_move_detached h s c i us rs u m1 u1 g1 m2 u2 g2 :
  session h s c i us -> reports h s = Some rs -> current h s = Some u ->
  class_copy c = Some clone_session ->
  move_bot u i m1 = Ok (u1, g1) ->
  move_bot u1 i m2 = Ok (u2, g2) ->
  ∃ h1 s1 us1 h2 s2 us2,
    simulate_move s m1 h = (h1, Ok s1) ∧
    s1 ≠ s ∧ history h1 s1 = Some us1 ∧ length us1 = S (length us) ∧
    reports h1 s1 = Some (rs ++ [u1]) ∧
    history h1 s = Some us ∧ reports h1 s = Some rs ∧
    metadata h1 s = metadata h s ∧ h1 !! s = h !! s ∧
    (let* s1 := simulate_move s m1 in simulate_move s1 m2) h = (h2, Ok s2) ∧
    s2 ≠ s ∧ history h2 s2 = Some us2 ∧ length us2 = S (S (length us)) ∧
    reports h2 s2 = Some (rs ++ [u1; u2]) ∧
    history h2 s = Some us ∧ reports h2 s = Some rs ∧
    metadata h2 s = metadata h s ∧ h2 !! s = h !! s.
Proof.
  intros Hsess Hrs Hcur Hcopy Hm1 Hm2.
  destruct (simulate_move_accepted _ _ _ _ _ _ _ _ _ _ Hsess Hrs Hcur Hcopy Hm1)
    as (h1 & s1 & us1 & g1' & Hrun1 & Hp1 & Hfresh1 & Hsess1 & Hlen1 & Hrs1 & Hcur1 & _).
  destruct (simulate_move_accepted _ _ _ _ _ _ _ _ _ _ Hsess1 Hrs1 Hcur1 Hcopy Hm2)
    as (h2 & s2 & us2 & g2' & Hrun2 & Hp2 & Hfresh2 & Hsess2 & Hlen2 & Hrs2 & Hcur2 & _).
  pose proof (preserved_trans _ _ _ Hp1 Hp2) as Hp12.
  pose proof (session_history _ _ _ _ _ Hsess) as Hhist.
  destruct Hsess as (p & states & Hs & _).
  pose proof (lookup_lt_Some _ _ _ Hs) as Hslt.
  pose proof (preserved_length _ _ Hp1) as Hlen01.
  assert (Hmeta : ∀ h', preserved h h' -> metadata h' s = metadata h s).
  { intros h' Hp. unfold metadata, player_at. by rewrite (Hp _ _ Hs), Hs. }
  exists h1, s1, us1, h2, s2, us2.
  split; [done|]. split; [lia|]. split; [by eapply session_history|].
  split; [done|]. split; [done|]. split; [by eapply preserved_history|].
  split; [by eapply preserved_reports|]. split; [by apply Hmeta|].
  split; [by rewrite (Hp1 _ _ Hs)|].
  split; [by rewrite (run_bind _ _ _ _ _ Hrun1)|]. split; [lia|].
  split; [by eapply session_history|]. split; [lia|].
  split; [by rewrite <- app_assoc in Hrs2|]. split; [by eapply preserved_history|].
  split; [by eapply preserved_reports|]. split; [by apply Hmeta|].
  by rewrite (Hp12 _ _ Hs).
Qed.

(** C10: a session whose class defines no [copy] cannot simulate any move.
    Before initialization the history attribute is missing; afterwards the
    current universe is copied and the call [self.copy()] fails.  Both are
    attribute errors, whatever the move, and no object of the store is
    changed. *)
Theorem C10_simulate_move_needs_copy h s p m :
  h !! s = Some (OPlayer p) ->
  class_copy (cls p) = None ->
  (uninitialized h s ->
   simulate_move s m h = (h, Raise (AttributeError "universe_states"))) ∧
  (initialized h s ->
   ∃ u, current h s = Some u ∧
        simulate_move s m h = (h ++ [OUniverse u], Raise (AttributeError "copy"))).
Proof.
  intros Hs Hcopy. split.
  - apply simulate_move_uninitialized.
  - intros Hin.
    destruct (initialized_current _ _ Hin) as (c & i & us & u & Hsess & Hcur).
    exists u. split; [done|]. eapply simulate_move_no_copy; eauto.
    destruct Hsess as (p' & ? & Hs' & Hc & _). by simplify_eq.
Qed.

End simulate.

(** ** Speculative moves on the small world *)

Section grid_simulate.
Import Grid.

Lemma started_session c : session (started c) 2%nat c 0 [4%nat].
Proof.
  exists (with_rnd (Seeded 42) (with_universe_states 3%nat (with_current_state 1%nat
            (with_store_universe store_copy (with_index 0 (new_player c)))))), 3%nat.
  destruct c; repeat split; try reflexivity; repeat constructor; by eexists.
Qed.

Lemma started_current c : current (started c) 2%nat = Some two_bots.
Proof. by destruct c. Qed.

(** C1, as first stated, fails on a move the universe rejects: no session
    is returned, whatever the class. *)
Lemma C1_rejected_move_returns_no_session :
  initialized (started (UserPlayer 0)) 2%nat ∧
  (simulate_move 2%nat (1, 1) (started (UserPlayer 0))).2 = Raise IllegalMoveException.
Proof.
  split; [|by vm_compute].
  exists (UserPlayer 0), 0, [4%nat]. split; [apply started_session|done].
Qed.

(** C1 on a session that goes east, then south. *)
Lemma C1_witness :
  ∃ h1 s1 us1 h2 s2 us2,
    simulate_move 2%nat east (started (UserPlayer 0)) = (h1, Ok s1) ∧
    s1 ≠ 2%nat ∧ history h1 s1 = Some us1 ∧ length us1 = 2%nat ∧
    reports h1 s1 = Some [two_bots; [step (1, 0) (bot 0 (1, 1)); bot 1 (5, 5)]] ∧
    history h1 2%nat = Some [4%nat] ∧ reports h1 2%nat = Some [two_bots] ∧
    metadata h1 2%nat = metadata (started (UserPlayer 0)) 2%nat ∧
    h1 !! 2%nat = started (UserPlayer 0) !! 2%nat ∧
    (let* s1 := simulate_move 2%nat east in simulate_move s1 south)
      (started (UserPlayer 0)) = (h2, Ok s2) ∧
    s2 ≠ 2%nat ∧ history h2 s2 = Some us2 ∧ length us2 = 3%nat ∧
    reports h2 s2 = Some [two_bots; [step (1, 0) (bot 0 (1, 1)); bot 1 (5, 5)];
                          [step (0, 1) (step (1, 0) (bot 0 (1, 1))); bot 1 (5, 5)]] ∧
    history h2 2%nat = Some [4%nat] ∧ reports h2 2%nat = Some [two_bots] ∧
    metadata h2 2%nat = metadata (started (UserPlayer 0)) 2%nat ∧
    h2 !! 2%nat = started (UserPlayer 0) !! 2%nat.
Proof.
  apply (C1_simulate_move_detached (started (UserPlayer 0)) 2%nat (UserPlayer 0) 0 [4%nat]
           [two_bots] two_bots east
           [step (1, 0) (bot 0 (1, 1)); bot 1 (5, 5)] {["bot_moved" := VInt 0]} south
           [step (0, 1) (step (1, 0) (bot 0 (1, 1))); bot 1 (5, 5)] {["bot_moved" := VInt 0]}).
  - apply started_session.
  - reflexivity.
  - apply started_current.
  - reflexivity.
  - vm_compute. reflexivity.
  - vm_compute. reflexivity.
Defined.

(** C10 on an initialized StoppingPlayer. *)
Lemma C10_witness :
  ∃ u, current (started StoppingPlayer) 2%nat = Some u ∧
       simulate_move 2%nat stop (started StoppingPlayer) =
         (started StoppingPlayer ++ [OUniverse u], Raise (AttributeError "copy")).
Proof.
  apply (C10_simulate_move_needs_copy (started StoppingPlayer) 2%nat
           (with_rnd (Seeded 42) (with_universe_states 3%nat (with_current_state 1%nat
              (with_store_universe store_copy (with_index 0 (new_player StoppingPlayer))))))
           stop).
  - reflexivity.
  - reflexivity.
  - exists StoppingPlayer, 0, [4%nat]. split; [apply started_session|done].
Defined.

(** C6: for a StoppingPlayer, a class without [copy], the move (1, 1) that
    [move_bot] rejects with IllegalMoveException makes [simulate_move] raise
    the AttributeError of [self.copy()] instead: [move_bot] is never called. *)
Lemma C6_illegal_move_hidden_by_missing_copy :
  move_bot two_bots 0 (1, 1) = Raise IllegalMoveException ∧
  (simulate_move 2%nat (1, 1) (started StoppingPlayer)).2 = Raise (AttributeError "copy").
Proof. split; by vm_compute. Qed.

End grid_simulate.

(** ** SteppingPlayer *)

Section stepping.
Context `{W : World} `{U : !Code}.
Implicit Types (h : heap) (s l : loc) (p : player).

Lemma stepping_get_move h s p c cs m :
  h !! s = Some (OPlayer p) -> cls p = SteppingPlayer ->
  moves p = Some (gen_iter (String c cs)) ->
  _MOVES !! String c EmptyString = Some m ->
  get_move s h = (<[s := OPlayer (with_moves (gen_iter cs) p)]> h, Ok (Some m)).
Proof.
  intros Hs Hc Hm Hk. unfold get_move.
  rewrite (run_bind _ _ _ _ _ (run_self_player _ _ _ _ Hs)), Hc.
  unfold try_except, next_move. rewrite bind_assoc.
  rewrite (run_bind _ _ _ _ _ (run_getattr _ _ _ _ _ _ Hs Hm)), Hk.
  rewrite bind_assoc. by rewrite (run_bind _ _ _ _ _ (run_setattr _ _ _ _ _ Hs)).
Qed.

Lemma stepping_get_move_exhausted h s p :
  h !! s = Some (OPlayer p) -> cls p = SteppingPlayer ->
  moves p = Some (gen_iter EmptyString) ->
  get_move s h = (h, Raise (ValueError EmptyString)).
Proof.
  intros Hs Hc Hm. unfold get_move.
  rewrite (run_bind _ _ _ _ _ (run_self_player _ _ _ _ Hs)), Hc.
  unfold try_except, next_move. rewrite bind_assoc.
  by rewrite (run_bind _ _ _ _ _ (run_getattr _ _ _ _ _ _ Hs Hm)).
Qed.

(** A scripted player plays the moves of its shorthand string in order and
    is then left with an exhausted generator. *)
Lemma stepping_plays symbols : forall ms h s p,
  shorthand symbols = Some ms ->
  h !! s = Some (OPlayer p) -> cls p = SteppingPlayer ->
  moves p = Some (gen_iter symbols) ->
  calls (length ms) (get_move s) h =
    (<[s := OPlayer (with_moves (gen_iter EmptyString) p)]> h, Ok (Some <$> ms)).
Proof.
  induction symbols as [|c cs IH]; intros ms h s p Hsh Hs Hc Hm.
  - simpl in Hsh. simplify_eq. simpl. unfold ret. f_equal.
    symmetry. apply list_insert_id. rewrite Hs.
    destruct p as [? ? ? ? ? ? ? ? ? mv]. simpl in Hm. by subst mv.
  - simpl in Hsh. destruct (_MOVES !! String c EmptyString) as [m|] eqn:Hk; [|done].
    destruct (shorthand cs) as [ms'|] eqn:Hcs; [|done]. simplify_eq. simpl.
    rewrite (run_bind _ _ _ _ _ (stepping_get_move _ _ _ _ _ _ Hs Hc Hm Hk)).
    pose proof (lookup_lt_Some _ _ _ Hs) as Hlt.
    erewrite run_bind;
      [|eapply (IH ms'); [reflexivity|by apply list_lookup_insert_eq|exact Hc|reflexivity]].
    unfold ret. by rewrite list_insert_insert_eq.
Qed.

(** C9: a scripted player made from the shorthand string of the five
    symbols answers its first five move requests with east, west, south,
    north and stop, and the sixth with a ValueError without message: the
    StopIteration of the exhausted generator does not leave [get_move]. *)
Theorem C9_stepping_player_script h :
  ∃ h',
    (let* s := SteppingPlayer__init__ (inl "><v^-") in
     let* ms := calls 5 (get_move s) in
     ret (s, ms)) h
    = (h', Ok (length h, [Some east; Some west; Some south; Some north; Some stop])) ∧
    get_move (length h) h' = (h', Raise (ValueError EmptyString)).
Proof.
  set (p0 := with_moves (gen_iter "><v^-") (new_player SteppingPlayer)).
  set (h0 := h ++ [OPlayer p0]).
  assert (Hs : h0 !! length h = Some (OPlayer p0)) by by apply list_lookup_middle.
  exists (<[length h := OPlayer (with_moves (gen_iter EmptyString) p0)]> h0). split.
  - unfold SteppingPlayer__init__.
    erewrite run_bind; [|reflexivity].
    erewrite run_bind; [reflexivity|].
    apply (stepping_plays "><v^-" [east; west; south; north; stop]); [reflexivity|exact Hs|reflexivity..].
  - eapply stepping_get_move_exhausted;
      [apply list_lookup_insert_eq; by eapply lookup_lt_Some|reflexivity..].
Qed.

End stepping.

(** ** SimpleTeam *)

Section team.
Context `{W : World} `{U : !Code}.
Implicit Types (h : heap) (s l : loc) (p : player) (t : Team.attrs).

Lemma run_self_team name h s t :
  h !! s = Some (OTeam t) -> SimpleTeam.self_team name s h = (h, Ok t).
Proof.
  intros Hs. unfold SimpleTeam.self_team.
  by rewrite (run_bind _ _ _ _ _ (run_load _ _ _ Hs)).
Qed.

(** C3: with more bot indices than players, [set_initial] raises a
    ValueError before anything is bound: the store, and with it the
    bot-to-player mapping of the team, is exactly as it was. *)
Theorem C3_set_initial_too_many_bots h self t team_id universe u game_state :
  h !! self = Some (OTeam t) ->
  h !! universe = Some (OUniverse u) ->
  (length (Team._players t) < length (team_bots u team_id))%nat ->
  SimpleTeam.set_initial self team_id universe game_state h =
    (h, Raise (ValueError ("Tried to set " +:+ pretty (length (team_bots u team_id)) +:+
                           " bot_ids with only " +:+ pretty (length (Team._players t)) +:+
                           " Players."))).
Proof.
  intros Hs Hu Hlen. unfold SimpleTeam.set_initial.
  rewrite (run_bind _ _ _ _ _ (run_universe_of _ _ _ _ Hu)).
  rewrite (run_bind _ _ _ _ _ (run_self_team _ _ _ _ Hs)).
  by rewrite bool_decide_eq_true_2.
Qed.

Lemma run_hasattr h o x name :
  h !! o = Some x -> SimpleTeam.hasattr o name h = (h, Ok (has_attr h o name)).
Proof.
  intros Ho. unfold SimpleTeam.hasattr, has_attr.
  rewrite (run_bind _ _ _ _ _ (run_load _ _ _ Ho)), Ho. by destruct x.
Qed.

Lemma run_check_methods h o methods :
  is_Some (h !! o) ->
  SimpleTeam.check_methods o methods h =
    match find (λ m, negb (has_attr h o m)) methods with
    | Some m => (h, Raise (TypeError ("player missing " +:+ m +:+ "()")))
    | None => (h, Ok tt)
    end.
Proof.
  intros [x Ho]. induction methods as [|m ms IH]; [done|]. simpl.
  rewrite (run_bind _ _ _ _ _ (run_hasattr _ _ _ m Ho)).
  by destruct (has_attr h o m).
Qed.

Lemma run_check_players h players :
  Forall (λ o, is_Some (h !! o)) players ->
  SimpleTeam.check_players players h =
    match missing_method h players with
    | Some m => (h, Raise (TypeError ("player missing " +:+ m +:+ "()")))
    | None => (h, Ok tt)
    end.
Proof.
  induction 1 as [|o players Ho _ IH]; [done|].
  cbn [SimpleTeam.check_players missing_method]. unfold bind.
  rewrite (run_check_methods _ _ _ Ho).
  by destruct (find _ SimpleTeam.required_methods).
Qed.

Lemma missing_method_None h players :
  missing_method h players = None <-> Forall (λ o, capable h o = true) players.
Proof.
  induction players as [|o players IH]; [by split|].
  cbn [missing_method]. rewrite Forall_cons, <- IH. unfold capable.
  destruct (find _ SimpleTeam.required_methods) as [m|] eqn:Hf.
  - split; [done|]. intros [Hall _]. apply find_some in Hf as [Hin Hm].
    rewrite forallb_forall in Hall. rewrite (Hall _ Hin) in Hm. done.
  - split; [|by intros [_ ?]]. intros ->. split; [|done].
    apply forallb_forall. intros m Hin.
    pose proof (find_none _ _ Hf m Hin) as Hm. by apply negb_false_iff in Hm.
Qed.

Lemma missing_method_Some h players m :
  missing_method h players = Some m ->
  ∃ o, o ∈ players ∧ m ∈ SimpleTeam.required_methods ∧ has_attr h o m = false.
Proof.
  induction players as [|o players IH]; [done|]. cbn [missing_method].
  destruct (find _ SimpleTeam.required_methods) as [m'|] eqn:Hf.
  - intros [= ->]. apply find_some in Hf as [Hin Hm]. exists o.
    split; [apply elem_of_cons; by left|].
    split; [by apply list_elem_of_In|by apply negb_true_iff].
  - intros Hm. destruct (IH Hm) as (o' & ? & ? & ?). exists o'.
    split; [apply elem_of_cons; by right|done].
Qed.

Lemma capable_agent h o : capable h o = true -> agent h o.
Proof.
  unfold capable, agent, has_attr. simpl.
  by destruct (h !! o) as [[]|].
Qed.

Lemma run_set_players_remote_game v players : forall h,
  Forall (agent h) players ->
  ∃ h', SimpleTeam.set_players_remote_game v players h = (h', Ok tt) ∧
    (∀ l, l ∉ players -> h' !! l = h !! l) ∧ (∀ l, agent h l -> agent h' l).
Proof.
  induction players as [|o players IH]; intros h HF.
  - exists h. by repeat split.
  - apply Forall_cons in HF as [Ho HF].
    assert (∃ x, SimpleTeam.set_player_remote_game v o h = (<[o := x]> h, Ok tt) ∧
                 agent (<[o := x]> h) o ∧ ∀ l, agent h l -> agent (<[o := x]> h) l)
      as (x & Hrun & Hox & Hag).
    { unfold agent in Ho. unfold SimpleTeam.set_player_remote_game.
      destruct (h !! o) as [x|] eqn:Hx; [|done].
      pose proof (lookup_lt_Some _ _ _ Hx) as Hlt.
      rewrite (run_bind _ _ _ _ _ (run_load _ _ _ Hx)).
      assert (∀ y, (match y with OPlayer _ | OForeign _ => True | _ => False end) ->
                   agent (<[o := y]> h) o ∧ ∀ l, agent h l -> agent (<[o := y]> h) l) as Hy.
      { intros y Hy. unfold agent. rewrite list_lookup_insert_eq by done. split; [done|].
        intros l Hl. destruct (decide (o = l)) as [<-|Hne].
        - by rewrite list_lookup_insert_eq.
        - by rewrite list_lookup_insert_ne. }
      destruct x; try done; eexists; (split; [reflexivity|by apply Hy]). }
    destruct (IH (<[o := x]> h)) as (h' & Hrun' & Hfr & Hag').
    { eapply Forall_impl; [exact HF|]. auto. }
    exists h'. simpl. rewrite (run_bind _ _ _ _ _ Hrun). split; [done|]. split.
    + intros l Hl. rewrite Hfr by set_solver.
      apply list_lookup_insert_ne. set_solver.
    + auto.
Qed.

(** [__init__] with at least one argument: the first missing method stops
    it; without one the team object is made at the next free reference. *)
Lemma run_init h first rest :
  Forall (λ o, is_Some (h !! o)) (first :: rest) ->
  match missing_method h (split_args h (first :: rest)).2 with
  | Some m =>
      SimpleTeam.__init__ (first :: rest) h =
        (h, Raise (TypeError ("player missing " +:+ m +:+ "()")))
  | None =>
      ∃ h', SimpleTeam.__init__ (first :: rest) h = (h', Ok (length h)) ∧
            team_at h' (length h) =
              Some {| Team.team_name := (split_args h (first :: rest)).1;
                      Team._players := (split_args h (first :: rest)).2;
                      Team._bot_players := ∅; Team._remote_game := false |}
  end.
Proof.
  intros Hargs.
  assert (Hpl : Forall (λ o, is_Some (h !! o)) (split_args h (first :: rest)).2).
  { simpl. apply Forall_cons in Hargs as Hfr. destruct Hfr as [_ Hrest].
    by destruct (h !! first) as [[]|]. }
  assert (Hinit : SimpleTeam.__init__ (first :: rest) h =
    (SimpleTeam.check_players (split_args h (first :: rest)).2 ;;
     let* self := alloc (OTeam {| Team.team_name := (split_args h (first :: rest)).1;
                                  Team._players := (split_args h (first :: rest)).2;
                                  Team._bot_players := ∅; Team._remote_game := false |}) in
     SimpleTeam.set_remote_game self false ;; ret self) h).
  { apply Forall_cons in Hargs as [[x Hx] _]. unfold SimpleTeam.__init__.
    rewrite (run_bind _ _ _ _ _ (run_load _ _ _ Hx)). simpl. rewrite Hx. by destruct x. }
  rewrite Hinit. clear Hinit.
  set (players := (split_args h (first :: rest)).2) in *.
  set (name := (split_args h (first :: rest)).1) in *.
  pose proof (run_check_players _ _ Hpl) as Hcp.
  destruct (missing_method h players) as [m|] eqn:Hmiss.
  - by rewrite (run_bind_raise _ _ _ _ _ Hcp).
  - apply missing_method_None in Hmiss.
    rewrite (run_bind _ _ _ _ _ Hcp).
    set (t := {| Team.team_name := name; Team._players := players;
                 Team._bot_players := ∅; Team._remote_game := false |}).
    erewrite run_bind; [|reflexivity].
    assert (Hself : (h ++ [OTeam t]) !! length h = Some (OTeam t)) by by apply list_lookup_middle.
    destruct (run_set_players_remote_game false players (h ++ [OTeam t]))
      as (h' & Hrun & Hfr & _).
    { eapply Forall_impl; [exact Hmiss|]. intros o Ho. apply capable_agent in Ho.
      unfold agent in *. destruct (h !! o) eqn:E; [|done].
      by rewrite (lookup_app_l_Some _ _ _ _ E). }
    exists h'. split.
    + unfold SimpleTeam.set_remote_game. rewrite !bind_assoc.
      rewrite (run_bind _ _ _ _ _ (run_self_team _ _ _ _ Hself)). rewrite bind_assoc.
      unfold store at 1. unfold bind at 1. simpl Team.team_name. fold t.
      change (Team._players t) with players.
      rewrite list_insert_id by done. unfold bind. by rewrite Hrun.
    + unfold team_at. rewrite Hfr, Hself; [done|].
      intros Hin. rewrite Forall_forall in Hpl.
      destruct (Hpl _ Hin) as [x Hx]. apply lookup_lt_Some in Hx. lia.
Qed.

(** The first deficient player of a list and what [find] gives for it. *)
Lemma missing_method_first h players m :
  missing_method h players = Some m ->
  ∃ before o after,
    players = before ++ o :: after ∧
    Forall (λ o', capable h o' = true) before ∧
    find (λ m, negb (has_attr h o m)) SimpleTeam.required_methods = Some m.
Proof.
  induction players as [|o players IH]; [done|]. cbn [missing_method].
  destruct (find _ SimpleTeam.required_methods) as [m'|] eqn:Hf.
  - intros [= ->]. by exists [], o, players.
  - intros Hm. destruct (IH Hm) as (before & o' & after & -> & Hbefore & Hfind).
    exists (o :: before), o', after. split; [done|]. split; [|done].
    constructor; [|done]. unfold capable. apply forallb_forall. intros m' Hin.
    pose proof (find_none _ _ Hf m' Hin) as Hm'. by apply negb_false_iff in Hm'.
Qed.

(** The three methods are asked for in the order [_set_index], [_get_move],
    [_set_initial]. *)
Lemma find_required h o m :
  find (λ m, negb (has_attr h o m)) SimpleTeam.required_methods = Some m ->
  (m = "_set_index" ∧ has_attr h o "_set_index" = false) ∨
  (m = "_get_move" ∧ has_attr h o "_set_index" = true ∧ has_attr h o "_get_move" = false) ∨
  (m = "_set_initial" ∧ has_attr h o "_set_index" = true ∧ has_attr h o "_get_move" = true ∧
   has_attr h o "_set_initial" = false).
Proof.
  unfold SimpleTeam.required_methods. cbn [find].
  destruct (has_attr h o "_set_index") eqn:E1; cbn [negb]; [|intros [= <-]; by left].
  destruct (has_attr h o "_get_move") eqn:E2; cbn [negb]; [|intros [= <-]; right; by left].
  destruct (has_attr h o "_set_initial") eqn:E3; cbn [negb]; [done|].
  intros [= <-]. right. by right.
Qed.

Lemma capable_has h o :
  capable h o = true ->
  has_attr h o "_set_index" = true ∧ has_attr h o "_get_move" = true ∧
  has_attr h o "_set_initial" = true.
Proof.
  unfold capable, SimpleTeam.required_methods. cbn [forallb].
  rewrite !andb_true_iff. tauto.
Qed.

(** C7 (as amended): the construction of a team fails in exactly two cases:
    with a ValueError when there is no argument at all, and with a TypeError
    when a player lacks one of [_set_index], [_get_move] and
    [_set_initial].  The TypeError names one method: of the first player,
    in the order of the arguments, that lacks any of the three, the first
    it lacks in the order [_set_index], [_get_move], [_set_initial].
    Otherwise the construction succeeds; in particular a team given a name
    and no player is made, with that name and no player. *)
Theorem C7_team_construction h args :
  Forall (λ o, is_Some (h !! o)) args ->
  (args = [] ∧
   SimpleTeam.__init__ args h = (h, Raise (ValueError "No teams given."))) ∨
  (args ≠ [] ∧ ∃ before o after m,
     (split_args h args).2 = before ++ o :: after ∧
     Forall (λ o', has_attr h o' "_set_index" = true ∧ has_attr h o' "_get_move" = true ∧
                   has_attr h o' "_set_initial" = true) before ∧
     ((m = "_set_index" ∧ has_attr h o "_set_index" = false) ∨
      (m = "_get_move" ∧ has_attr h o "_set_index" = true ∧
       has_attr h o "_get_move" = false) ∨
      (m = "_set_initial" ∧ has_attr h o "_set_index" = true ∧
       has_attr h o "_get_move" = true ∧ has_attr h o "_set_initial" = false)) ∧
     SimpleTeam.__init__ args h = (h, Raise (TypeError ("player missing " +:+ m +:+ "()")))) ∨
  (args ≠ [] ∧
   Forall (λ o, has_attr h o "_set_index" = true ∧ has_attr h o "_get_move" = true ∧
                has_attr h o "_set_initial" = true) (split_args h args).2 ∧
   ∃ h' self,
     SimpleTeam.__init__ args h = (h', Ok self) ∧
     team_at h' self =
       Some {| Team.team_name := (split_args h args).1;
               Team._players := (split_args h args).2;
               Team._bot_players := ∅; Team._remote_game := false |}).
Proof.
  intros Hargs. destruct args as [|first rest]; [by left|]. right.
  pose proof (run_init h first rest Hargs) as Hrun.
  destruct (missing_method h (split_args h (first :: rest)).2) as [m|] eqn:Hmiss.
  - left. split; [done|].
    destruct (missing_method_first _ _ _ Hmiss) as (before & o & after & Hsplit & Hbefore & Hfind).
    exists before, o, after, m. split; [done|]. split.
    { eapply Forall_impl; [exact Hbefore|]. intros o'. apply capable_has. }
    split; [by apply find_required|done].
  - right. split; [done|]. split.
    { apply missing_method_None in Hmiss.
      eapply Forall_impl; [exact Hmiss|]. intros o'. apply capable_has. }
    destruct Hrun as (h' & Hrun & Hteam). by exists h', (length h).
Qed.

End team.

(** ** Initialization and move requests of a session *)

Section lifecycle.
Context `{W : World} `{U : !Code}.
Implicit Types (h : heap) (s l : loc) (p : player).

Lemma run_dict_get h d m key :
  h !! d = Some (ODict m) -> dict_get d key h = (h, Ok (default VNone (m !! key))).
Proof. intros Hd. unfold dict_get. by rewrite (run_bind _ _ _ _ _ (run_load _ _ _ Hd)). Qed.

Lemma run_dict_getitem h d m key v :
  h !! d = Some (ODict m) -> m !! key = Some v -> dict_getitem d key h = (h, Ok v).
Proof.
  intros Hd Hk. unfold dict_getitem.
  rewrite (run_bind _ _ _ _ _ (run_load _ _ _ Hd)). by rewrite Hk.
Qed.

(** Storing a snapshot under either policy. *)
Lemma run_call_store_universe h s p pol states us lu u :
  h !! s = Some (OPlayer p) -> _store_universe p = Some pol ->
  universe_states p = Some states -> h !! states = Some (OList us) ->
  h !! lu = Some (OUniverse u) ->
  call_store_universe s lu h =
    match pol with
    | store_copy =>
        (<[states := OList (us ++ [length h])]> (h ++ [OUniverse u]), Ok tt)
    | store_ref => (<[states := OList (us ++ [lu])]> h, Ok tt)
    end.
Proof.
  intros Hs Hpol Hst Hl Hu. unfold call_store_universe.
  rewrite (run_bind _ _ _ _ _ (run_getattr _ _ _ _ _ _ Hs Hpol)).
  destruct pol.
  - unfold _store_universe_copy.
    rewrite (run_bind _ _ _ _ _ (run_getattr _ _ _ _ _ _ Hs Hst)).
    rewrite (run_bind _ _ _ _ _ (run_obj_copy _ _ _ Hu)).
    apply run_list_append. by apply lookup_app_l_Some.
  - unfold _store_universe_ref.
    rewrite (run_bind _ _ _ _ _ (run_getattr _ _ _ _ _ _ Hs Hst)).
    by apply run_list_append.
Qed.

(** The store in which [_set_initial] calls the hook [set_initial]. *)
Lemma run_set_initial h s p i lu u lg g :
  h !! s = Some (OPlayer p) -> _index p = Some i ->
  h !! lu = Some (OUniverse u) -> h !! lg = Some (ODict g) -> seed_ok g ->
  ∃ h1 p1 e,
    _set_initial s lu lg h = set_initial s h1 ∧
    h1 !! s = Some (OPlayer p1) ∧
    cls p1 = cls p ∧ _index p1 = Some i ∧ _remote_game p1 = _remote_game p ∧
    _store_universe p1 = Some (policy_of_flag (_remote_game p)) ∧
    _current_state p1 = Some lg ∧ universe_states p1 = Some (length h) ∧
    rnd p1 = Some (stream_of_seed g (default i (seed_offset p))) ∧
    h1 !! length h = Some (OList [e]) ∧ h1 !! e = Some (OUniverse u) ∧
    e = match policy_of_flag (_remote_game p) with
        | store_copy => S (length h)
        | store_ref => lu
        end ∧
    (length h < length h1)%nat ∧
    (∀ l, (l < length h)%nat -> l ≠ s -> h1 !! l = h !! l).
Proof.
  intros Hs Hi Hu Hg Hok.
  pose proof (lookup_lt_Some _ _ _ Hs) as Hslt.
  pose proof (lookup_lt_Some _ _ _ Hu) as Hult.
  pose proof (lookup_lt_Some _ _ _ Hg) as Hglt.
  set (pol := policy_of_flag (_remote_game p)).
  set (pa := with_store_universe pol p).
  set (pb := with_current_state lg pa).
  set (pc := with_universe_states (length h) pb).
  set (pd := with_rnd SystemSeeded pc).
  set (ha := <[s := OPlayer pa]> h).
  set (hb := <[s := OPlayer pb]> ha).
  set (hc := <[s := OPlayer pc]> (hb ++ [OList []])).
  set (e := match pol with store_copy => S (length h) | store_ref => lu end).
  set (hd := match pol with
             | store_copy => <[length h := OList [e]]> (hc ++ [OUniverse u])
             | store_ref => <[length h := OList [e]]> hc
             end).
  set (he := <[s := OPlayer pd]> hd).
  assert (Hlena : length ha = length h) by apply length_insert.
  assert (Hlenb : length hb = length h) by (unfold hb; by rewrite length_insert).
  assert (Hlenc : length hc = S (length h)).
  { unfold hc. rewrite length_insert, length_app, Hlenb. simpl. lia. }
  assert (Hlend : (length h < length hd)%nat).
  { unfold hd. destruct pol; rewrite length_insert, ?length_app, Hlenc; simpl; lia. }
  assert (Hsa : ha !! s = Some (OPlayer pa)) by by apply list_lookup_insert_eq.
  assert (Hsb : hb !! s = Some (OPlayer pb)).
  { apply list_lookup_insert_eq. lia. }
  assert (Hsc : hc !! s = Some (OPlayer pc)).
  { apply list_lookup_insert_eq. rewrite length_app. lia. }
  assert (Hstc : hc !! length h = Some (OList [])).
  { unfold hc. rewrite list_lookup_insert_ne by lia. by apply list_lookup_middle. }
  assert (Hfrc : ∀ l, (l < length h)%nat -> l ≠ s -> hc !! l = h !! l).
  { intros l Hl Hne. unfold hc. rewrite list_lookup_insert_ne by done.
    rewrite lookup_app_l by lia. unfold hb, ha.
    by rewrite !list_lookup_insert_ne by done. }
  assert (Hstore : call_store_universe s lu hc = (hd, Ok tt)).
  { erewrite (run_call_store_universe hc s pc pol (length h) [] lu u); auto.
    - unfold hd, e. destruct pol; by rewrite ?Hlenc.
    - rewrite Hfrc; [done|lia|]. intros ->. by rewrite Hs in Hu. }
  assert (Hsd : hd !! s = Some (OPlayer pc)).
  { unfold hd. destruct pol; rewrite list_lookup_insert_ne by lia; [|done].
    by apply lookup_app_l_Some. }
  assert (Hfrd : ∀ l, (l < length h)%nat -> hd !! l = hc !! l).
  { intros l Hl. unfold hd. destruct pol; rewrite list_lookup_insert_ne by lia; [|done].
    rewrite lookup_app_l; [done|lia]. }
  assert (Hstd : hd !! length h = Some (OList [e])).
  { unfold hd. destruct pol; apply list_lookup_insert_eq; rewrite ?length_app; lia. }
  assert (Hed : hd !! e = Some (OUniverse u)).
  { unfold hd, e. destruct pol.
    - rewrite list_lookup_insert_ne by lia. by apply list_lookup_middle.
    - rewrite list_lookup_insert_ne by lia. rewrite Hfrc; [done|lia|].
      intros ->. by rewrite Hs in Hu. }
  assert (Hene : e ≠ s).
  { unfold e. destruct pol; [lia|]. intros ->. by rewrite Hs in Hu. }
  assert (Hgd : hd !! lg = Some (ODict g)).
  { rewrite Hfrd, Hfrc; [done|lia| |lia]. intros ->. by rewrite Hs in Hg. }
  (* the run up to the seeding *)
  assert (Hrun : ∀ k : M unit,
    (_set_initial s lu lg) h =
    (let* seed := dict_get lg "seed" in
     match seed with
     | VNone => ret tt
     | _ => let* seed := dict_getitem lg "seed" in
            let* z := lift (add_int seed (default i (seed_offset p))) in
            setattr "rnd" (with_rnd (Seeded z)) s
     end ;; set_initial s) he).
  { intros _. unfold _set_initial.
    rewrite (run_bind _ _ _ _ _ (run_self_player _ _ _ _ Hs)).
    assert (Hpol : (if default false (_remote_game p)
                    then setattr "_store_universe" (with_store_universe store_ref) s
                    else setattr "_store_universe" (with_store_universe store_copy) s) h
                   = (ha, Ok tt)).
    { unfold ha, pa, pol, policy_of_flag.
      destruct (default false (_remote_game p)); by apply run_setattr. }
    rewrite (run_bind _ _ _ _ _ Hpol).
    rewrite (run_bind _ _ _ _ _ (run_setattr _ _ _ _ _ Hsa)). fold pb hb.
    erewrite (run_bind (alloc _)); [|reflexivity]. rewrite Hlenb.
    erewrite (run_bind (setattr _ _ _)); [|apply run_setattr; by apply lookup_app_l_Some].
    fold pc hc.
    rewrite (run_bind _ _ _ _ _ Hstore).
    rewrite (run_bind _ _ _ _ _ (run_getattr _ _ _ _ _ _ Hsd Hi)).
    rewrite (run_bind _ _ _ _ _ (run_self_player _ _ _ _ Hsd)).
    by rewrite (run_bind _ _ _ _ _ (run_setattr _ _ _ _ _ Hsd)). }
  rewrite (Hrun (ret tt)). clear Hrun.
  assert (Hse : he !! s = Some (OPlayer pd)).
  { apply list_lookup_insert_eq. by apply lookup_lt_Some in Hsd. }
  assert (Hfre : ∀ l, l ≠ s -> he !! l = hd !! l).
  { intros l Hne. unfold he. by rewrite list_lookup_insert_ne. }
  assert (Hge : he !! lg = Some (ODict g)).
  { rewrite Hfre; [done|]. intros ->. by rewrite Hs in Hg. }
  rewrite (run_bind _ _ _ _ _ (run_dict_get _ _ _ "seed" Hge)).
  assert (Hste : he !! length h = Some (OList [e])) by (rewrite Hfre by lia; done).
  assert (Hee : he !! e = Some (OUniverse u)) by (rewrite Hfre by done; done).
  assert (Hlene : (length h < length he)%nat) by (unfold he; by rewrite length_insert).
  assert (Hframe : ∀ l, (l < length h)%nat -> l ≠ s -> he !! l = h !! l).
  { intros l Hl Hne. rewrite Hfre, Hfrd, Hfrc; auto. }
  unfold seed_ok in Hok. unfold stream_of_seed.
  destruct (g !! "seed") as [[|z|?|?]|] eqn:Hseed; try done.
  - (* the seed is None *)
    exists he, pd, e. split; [|by repeat split].
    simpl. by erewrite run_bind; [|reflexivity].
  - (* an integer seed *)
    set (pe := with_rnd (Seeded (z + default i (seed_offset p))) pd).
    exists (<[s := OPlayer pe]> he), pe, e. split.
    { simpl. rewrite bind_assoc.
      rewrite (run_bind _ _ _ _ _ (run_dict_getitem _ _ _ "seed" _ Hge Hseed)).
      rewrite bind_assoc. erewrite (run_bind (lift _)); [|reflexivity].
      by rewrite (run_bind _ _ _ _ _ (run_setattr _ _ _ _ _ Hse)). }
    split; [apply list_lookup_insert_eq; by apply lookup_lt_Some in Hse|].
    rewrite !list_lookup_insert_ne by (try done; lia). rewrite length_insert.
    repeat split; auto.
    intros l Hl Hne. rewrite list_lookup_insert_ne by done. auto.
  - (* no seed *)
    exists he, pd, e. split; [|by repeat split].
    simpl. by erewrite run_bind; [|reflexivity].
Qed.

(** [_set_initial] up to the point where the snapshot is stored: nothing
    has been asked of the bot index or of the game state by then. *)
Lemma run_set_initial_stored h s p lu u lg :
  h !! s = Some (OPlayer p) -> h !! lu = Some (OUniverse u) ->
  ∃ hd e,
    _set_initial s lu lg h =
      (let* i := getattr "_index" _index s in
       let* p := self_player "seed_offset" s in
       let seed_offset := default i (seed_offset p) in
       setattr "rnd" (with_rnd SystemSeeded) s ;;
       let* seed := dict_get lg "seed" in
       match seed with
       | VNone => ret tt
       | _ =>
           let* seed := dict_getitem lg "seed" in
           let* z := lift (add_int seed seed_offset) in
           setattr "rnd" (with_rnd (Seeded z)) s
       end ;;
       set_initial s) hd ∧
    hd !! s = Some (OPlayer (with_universe_states (length h) (with_current_state lg
                (with_store_universe (policy_of_flag (_remote_game p)) p)))) ∧
    hd !! length h = Some (OList [e]) ∧ hd !! e = Some (OUniverse u) ∧ e ≠ s ∧
    (length h < length hd)%nat ∧
    (∀ l, (l < length h)%nat -> l ≠ s -> hd !! l = h !! l).
Proof.
  intros Hs Hu.
  pose proof (lookup_lt_Some _ _ _ Hs) as Hslt.
  pose proof (lookup_lt_Some _ _ _ Hu) as Hult.
  assert (Hnu : lu ≠ s) by (intros ->; by rewrite Hs in Hu).
  set (pol := policy_of_flag (_remote_game p)).
  set (pa := with_store_universe pol p).
  set (pb := with_current_state lg pa).
  set (pc := with_universe_states (length h) pb).
  set (ha := <[s := OPlayer pa]> h).
  set (hb := <[s := OPlayer pb]> ha).
  set (hc := <[s := OPlayer pc]> (hb ++ [OList []])).
  set (e := match pol with store_copy => S (length h) | store_ref => lu end).
  set (hd := match pol with
             | store_copy => <[length h := OList [e]]> (hc ++ [OUniverse u])
             | store_ref => <[length h := OList [e]]> hc
             end).
  assert (Hlena : length ha = length h) by apply length_insert.
  assert (Hlenb : length hb = length h) by (unfold hb; by rewrite length_insert).
  assert (Hlenc : length hc = S (length h)).
  { unfold hc. rewrite length_insert, length_app, Hlenb. simpl. lia. }
  assert (Hsa : ha !! s = Some (OPlayer pa)) by by apply list_lookup_insert_eq.
  assert (Hsb : hb !! s = Some (OPlayer pb)).
  { apply list_lookup_insert_eq. lia. }
  assert (Hsc : hc !! s = Some (OPlayer pc)).
  { apply list_lookup_insert_eq. rewrite length_app. lia. }
  assert (Hfrc : ∀ l, (l < length h)%nat -> l ≠ s -> hc !! l = h !! l).
  { intros l Hl Hne. unfold hc. rewrite list_lookup_insert_ne by done.
    rewrite lookup_app_l by lia. unfold hb, ha.
    by rewrite !list_lookup_insert_ne by done. }
  assert (Hstc : hc !! length h = Some (OList [])).
  { unfold hc. rewrite list_lookup_insert_ne by lia. by apply list_lookup_middle. }
  assert (Hstore : call_store_universe s lu hc = (hd, Ok tt)).
  { erewrite (run_call_store_universe hc s pc pol (length h) [] lu u); auto.
    - unfold hd, e. destruct pol; by rewrite ?Hlenc.
    - rewrite Hfrc; [done|lia|done]. }
  exists hd, e. split; [|split; [|split; [|split; [|split; [|split]]]]].
  - unfold _set_initial.
    rewrite (run_bind _ _ _ _ _ (run_self_player _ _ _ _ Hs)).
    assert (Hpol : (if default false (_remote_game p)
                    then setattr "_store_universe" (with_store_universe store_ref) s
                    else setattr "_store_universe" (with_store_universe store_copy) s) h
                   = (ha, Ok tt)).
    { unfold ha, pa, pol, policy_of_flag.
      destruct (default false (_remote_game p)); by apply run_setattr. }
    rewrite (run_bind _ _ _ _ _ Hpol).
    rewrite (run_bind _ _ _ _ _ (run_setattr _ _ _ _ _ Hsa)). fold pb hb.
    erewrite (run_bind (alloc _)); [|reflexivity]. rewrite Hlenb.
    erewrite (run_bind (setattr _ _ _)); [|apply run_setattr; by apply lookup_app_l_Some].
    fold pc hc. by rewrite (run_bind _ _ _ _ _ Hstore).
  - unfold hd. destruct pol; rewrite list_lookup_insert_ne by lia; [|done].
    by apply lookup_app_l_Some.
  - unfold hd. destruct pol; apply list_lookup_insert_eq; rewrite ?length_app; lia.
  - unfold hd, e. destruct pol.
    + rewrite list_lookup_insert_ne by lia. by apply list_lookup_middle.
    + rewrite list_lookup_insert_ne by lia. rewrite Hfrc; [done|lia|done].
  - unfold e. destruct pol; [lia|done].
  - unfold hd. destruct pol; rewrite length_insert, ?length_app, Hlenc; simpl; lia.
  - intros l Hl Hne. unfold hd.
    destruct pol; rewrite list_lookup_insert_ne by lia; [|by apply Hfrc].
    rewrite lookup_app_l by lia. by apply Hfrc.
Qed.

(** With a seed that is a string or a list, [_set_initial] raises at the
    sum of the seed and the offset, before the hook. *)
Lemma run_set_initial_bad_seed h s p i lu u lg g :
  h !! s = Some (OPlayer p) -> _index p = Some i ->
  h !! lu = Some (OUniverse u) -> h !! lg = Some (ODict g) ->
  ¬ seed_ok g ->
  ∃ h1 e, _set_initial s lu lg h = (h1, Raise e).
Proof.
  intros Hs Hi Hu Hg Hbad.
  destruct (run_set_initial_stored h s p lu u lg Hs Hu)
    as (hd & e & Hrun & Hsd & Hld & Hed & Hes & Hlen & Hfr).
  pose proof (lookup_lt_Some _ _ _ Hs) as Hslt.
  pose proof (lookup_lt_Some _ _ _ Hg) as Hglt.
  assert (Hng : lg ≠ s) by (intros ->; by rewrite Hs in Hg).
  set (pc := with_universe_states _ _) in Hsd.
  set (he := <[s := OPlayer (with_rnd SystemSeeded pc)]> hd).
  assert (Hge : he !! lg = Some (ODict g)).
  { unfold he. rewrite list_lookup_insert_ne by done. by rewrite Hfr. }
  assert (∃ v, g !! "seed" = Some v ∧ v ≠ VNone ∧
               ∃ e', add_int v (default i (seed_offset p)) = Raise e')
    as (v & Hv & Hnone & e' & Hadd).
  { unfold seed_ok in Hbad. destruct (g !! "seed") as [[| | |]|]; try (by destruct Hbad);
      eexists; (split; [reflexivity|]); (split; [done|]); by eexists. }
  exists he, e'. rewrite Hrun.
  rewrite (run_bind _ _ _ _ _ (run_getattr _ _ _ _ _ _ Hsd Hi)).
  rewrite (run_bind _ _ _ _ _ (run_self_player _ _ _ _ Hsd)).
  rewrite (run_bind _ _ _ _ _ (run_setattr _ _ _ _ _ Hsd)). fold he.
  rewrite (run_bind _ _ _ _ _ (run_dict_get _ _ _ "seed" Hge)). rewrite Hv. simpl.
  apply run_bind_raise.
  assert (Hfail : (let* seed := dict_getitem lg "seed" in
                   let* z := lift (add_int seed (default i (seed_offset p))) in
                   setattr "rnd" (with_rnd (Seeded z)) s) he = (he, Raise e')).
  { rewrite (run_bind _ _ _ _ _ (run_dict_getitem _ _ _ "seed" _ Hge Hv)).
    apply run_bind_raise. unfold lift. by rewrite Hadd. }
  by destruct v.
Qed.

(** The store in which [_get_move] calls the hook [get_move]. *)
Lemma run_enter_get_move h s p pol states us lu u lg :
  h !! s = Some (OPlayer p) -> _store_universe p = Some pol ->
  universe_states p = Some states -> h !! states = Some (OList us) ->
  h !! lu = Some (OUniverse u) ->
  ∃ h' p' e,
    enter_get_move s lu lg h = (h', Ok tt) ∧
    h' !! s = Some (OPlayer p') ∧
    cls p' = cls p ∧ _index p' = _index p ∧ _store_universe p' = Some pol ∧
    universe_states p' = Some states ∧ _current_state p' = Some lg ∧
    _say p' = Some EmptyString ∧
    h' !! states = Some (OList (us ++ [e])) ∧ h' !! e = Some (OUniverse u) ∧
    e = match pol with store_copy => length h | store_ref => lu end ∧
    (length h <= length h')%nat ∧
    (∀ l, (l < length h)%nat -> l ≠ s -> l ≠ states -> h' !! l = h !! l).
Proof.
  intros Hs Hpol Hst Hl Hu.
  pose proof (lookup_lt_Some _ _ _ Hs) as Hslt.
  pose proof (lookup_lt_Some _ _ _ Hl) as Hllt.
  pose proof (lookup_lt_Some _ _ _ Hu) as Hult.
  assert (Hne : states ≠ s) by (intros ->; by rewrite Hs in Hl).
  assert (Hnu : lu ≠ s) by (intros ->; by rewrite Hs in Hu).
  assert (Hnl : lu ≠ states) by (intros ->; by rewrite Hl in Hu).
  set (pa := with_current_state lg p).
  set (ha := <[s := OPlayer pa]> h).
  set (e := match pol with store_copy => length h | store_ref => lu end).
  set (hb := match pol with
             | store_copy => <[states := OList (us ++ [e])]> (ha ++ [OUniverse u])
             | store_ref => <[states := OList (us ++ [e])]> ha
             end).
  set (pb := with_say EmptyString pa).
  assert (Hlena : length ha = length h) by apply length_insert.
  assert (Hsa : ha !! s = Some (OPlayer pa)) by by apply list_lookup_insert_eq.
  assert (Hstore : call_store_universe s lu ha = (hb, Ok tt)).
  { erewrite (run_call_store_universe ha s pa pol states us lu u); auto.
    - unfold hb, e. destruct pol; by rewrite ?Hlena.
    - unfold ha. by rewrite list_lookup_insert_ne.
    - unfold ha. by rewrite list_lookup_insert_ne. }
  assert (Hlenb : (length h <= length hb)%nat).
  { unfold hb. destruct pol; rewrite length_insert, ?length_app, Hlena; lia. }
  assert (Hsb : hb !! s = Some (OPlayer pa)).
  { unfold hb. destruct pol; rewrite list_lookup_insert_ne by done; [|done].
    by apply lookup_app_l_Some. }
  exists (<[s := OPlayer pb]> hb), pb, e.
  split.
  { unfold enter_get_move.
    rewrite (run_bind _ _ _ _ _ (run_setattr _ _ _ _ _ Hs)).
    rewrite (run_bind _ _ _ _ _ Hstore). by apply run_setattr. }
  split; [apply list_lookup_insert_eq; lia|].
  rewrite length_insert. do 6 (split; [done|]).
  assert (He : e ≠ s) by (unfold e; destruct pol; lia).
  assert (He' : e ≠ states) by (unfold e; destruct pol; lia).
  split; [|split; [|split; [done|split; [done|]]]].
  - rewrite list_lookup_insert_ne by done. unfold hb.
    destruct pol; apply list_lookup_insert_eq; rewrite ?length_app, Hlena; lia.
  - rewrite list_lookup_insert_ne by done. unfold hb, e.
    destruct pol; rewrite list_lookup_insert_ne by lia.
    + apply list_lookup_middle. lia.
    + unfold ha. by rewrite list_lookup_insert_ne.
  - intros l Hlt H1 H2. rewrite list_lookup_insert_ne by done. unfold hb.
    destruct pol; rewrite list_lookup_insert_ne by done.
    + rewrite lookup_app_l by lia. unfold ha. by rewrite list_lookup_insert_ne.
    + unfold ha. by rewrite list_lookup_insert_ne.
Qed.

Lemma previous_pos_short h s p states us :
  h !! s = Some (OPlayer p) -> universe_states p = Some states ->
  h !! states = Some (OList us) -> (length us < 2)%nat ->
  previous_pos s h = (h, Raise IndexError).
Proof.
  intros Hs Hst Hl Hlen. unfold previous_pos.
  rewrite (run_bind _ _ _ _ _ (run_getattr _ _ _ _ _ _ Hs Hst)).
  apply run_bind_raise. eapply run_list_getitem_out; [done|by apply getitem_short].
Qed.

(** C4: with an integer seed in the game state, [_set_initial] has seeded
    the stream of the session with the seed plus the offset when it calls
    the hook, and the offset is the bound bot index unless the attribute
    [seed_offset] is set.  Two sessions with the same seed get different
    seeds for different bot indices, and the same seed, hence the same
    stream, for the same index, whatever else their stores hold. *)
Theorem C4_seeded_stream z
    h s p i lu u lg g h' s' p' i' lu' u' lg' g' :
  h !! s = Some (OPlayer p) -> _index p = Some i ->
  h !! lu = Some (OUniverse u) -> h !! lg = Some (ODict g) ->
  g !! "seed" = Some (VInt z) ->
  h' !! s' = Some (OPlayer p') -> _index p' = Some i' ->
  h' !! lu' = Some (OUniverse u') -> h' !! lg' = Some (ODict g') ->
  g' !! "seed" = Some (VInt z) ->
  ∃ h1 h1',
    _set_initial s lu lg h = set_initial s h1 ∧
    stream h1 s = Some (Seeded (z + default i (seed_offset p))) ∧
    _set_initial s' lu' lg' h' = set_initial s' h1' ∧
    stream h1' s' = Some (Seeded (z + default i' (seed_offset p'))) ∧
    (seed_offset p = None -> seed_offset p' = None ->
     stream_seed h1 s = Some (z + i) ∧ stream_seed h1' s' = Some (z + i') ∧
     (i ≠ i' -> stream_seed h1 s ≠ stream_seed h1' s') ∧
     (i = i' -> stream h1 s = stream h1' s')).
Proof.
  intros Hs Hi Hu Hg Hseed Hs' Hi' Hu' Hg' Hseed'.
  destruct (run_set_initial h s p i lu u lg g) as (h1 & p1 & e & Hrun & Hs1 & Hp1); auto.
  { unfold seed_ok. by rewrite Hseed. }
  destruct (run_set_initial h' s' p' i' lu' u' lg' g') as (h1' & p1' & e' & Hrun' & Hs1' & Hp1'); auto.
  { unfold seed_ok. by rewrite Hseed'. }
  destruct Hp1 as (_ & _ & _ & _ & _ & _ & Hrnd & _).
  destruct Hp1' as (_ & _ & _ & _ & _ & _ & Hrnd' & _).
  unfold stream_of_seed in *. rewrite Hseed in Hrnd. rewrite Hseed' in Hrnd'.
  exists h1, h1'. unfold stream_seed, stream, player_at.
  rewrite Hs1, Hs1', Hrnd, Hrnd'.
  do 4 (split; [done|]).
  intros -> ->. simpl. do 2 (split; [done|]). split; [|congruence].
  intros Hne [=]. lia.
Qed.

(** C5: the storage policy is chosen by [_set_initial] from the flag
    [_remote_game] and kept by every later move request, whatever the flag
    is by then.  Under the copy policy the entry stored for a snapshot is a
    new object: changing the original snapshot afterwards leaves what the
    history reports for it as it was.  Under the reference policy the entry
    is the original snapshot itself, and the history reports the change. *)
Theorem C5_storage_policy
    h s p i lu u lg g v
    h2 s2 p2 pol states us rs lu2 u2 lg2 v2 :
  h !! s = Some (OPlayer p) -> _index p = Some i ->
  h !! lu = Some (OUniverse u) -> h !! lg = Some (ODict g) -> seed_ok g ->
  h2 !! s2 = Some (OPlayer p2) -> _store_universe p2 = Some pol ->
  universe_states p2 = Some states -> h2 !! states = Some (OList us) ->
  reports h2 s2 = Some rs ->
  h2 !! lu2 = Some (OUniverse u2) ->
  (∃ h1,
     _set_initial s lu lg h = set_initial s h1 ∧
     policy h1 s = Some (policy_of_flag (_remote_game p)) ∧
     reports h1 s = Some [u] ∧
     reports (mutate lu v h1) s =
       Some [match policy_of_flag (_remote_game p) with
             | store_copy => u
             | store_ref => v
             end]) ∧
  (∃ h3 rs',
     enter_get_move s2 lu2 lg2 h2 = (h3, Ok tt) ∧
     policy h3 s2 = Some pol ∧
     reports h3 s2 = Some (rs ++ [u2]) ∧
     reports (mutate lu2 v2 h3) s2 =
       Some (rs' ++ [match pol with store_copy => u2 | store_ref => v2 end]) ∧
     length rs' = length rs ∧ (lu2 ∉ us -> rs' = rs)).
Proof.
  intros Hs Hi Hu Hg Hok Hs2 Hpol Hst Hl Hrs Hu2. split.
  - destruct (run_set_initial h s p i lu u lg g)
      as (h1 & p1 & e & Hrun & Hs1 & _ & _ & _ & Hpol1 & _ & Hst1 & _ & Hl1 & He1 & He & Hlen & Hfr);
      auto.
    pose proof (lookup_lt_Some _ _ _ Hs) as Hslt.
    pose proof (lookup_lt_Some _ _ _ Hu) as Hult.
    assert (lu ≠ s) by (intros ->; by rewrite Hs in Hu).
    exists h1. split; [done|]. split; [unfold policy, player_at; by rewrite Hs1|].
    split.
    + eapply reports_Some; eauto.
    + eapply reports_Some.
      * unfold mutate. rewrite list_lookup_insert_ne by done. exact Hs1.
      * exact Hst1.
      * unfold mutate. rewrite list_lookup_insert_ne by lia. exact Hl1.
      * constructor; [|constructor]. unfold mutate. rewrite He.
        destruct (policy_of_flag (_remote_game p)).
        -- rewrite list_lookup_insert_ne by lia. by rewrite <- He.
        -- apply list_lookup_insert_eq. lia.
  - destruct (run_enter_get_move h2 s2 p2 pol states us lu2 u2 lg2)
      as (h3 & p3 & e & Hrun & Hs3 & _ & _ & Hpol3 & Hst3 & _ & _ & Hl3 & He3 & He & Hlen & Hfr);
      auto.
    pose proof (lookup_lt_Some _ _ _ Hs2) as Hslt.
    pose proof (lookup_lt_Some _ _ _ Hu2) as Hult.
    pose proof (lookup_lt_Some _ _ _ Hl) as Hllt.
    assert (lu2 ≠ s2) by (intros ->; by rewrite Hs2 in Hu2).
    assert (lu2 ≠ states) by (intros ->; by rewrite Hl in Hu2).
    (* the entries stored before are universes, and untouched *)
    assert (Hold : Forall2 (λ l r, h2 !! l = Some (OUniverse r)) us rs).
    { unfold reports, history, player_at in Hrs. rewrite Hs2, Hst, Hl in Hrs.
      apply mapM_Some in Hrs. eapply Forall2_impl; [exact Hrs|].
      intros l r. apply snapshot_Some. }
    assert (Hold3 : Forall2 (λ l r, h3 !! l = Some (OUniverse r)) us rs).
    { eapply Forall2_impl; [exact Hold|]. intros l r Hlr. simpl.
      rewrite Hfr; [done|exact (lookup_lt_Some _ _ _ Hlr)|..]; intros ->; simplify_eq. }
    exists h3, ((λ '(l, r), if decide (l = lu2) then v2 else r) <$> zip us rs).
    split; [done|]. split; [unfold policy, player_at; by rewrite Hs3|].
    split; [|split; [|split]].
    + eapply reports_Some; eauto. apply Forall2_app; [done|]. by constructor.
    + eapply reports_Some.
      * unfold mutate. rewrite list_lookup_insert_ne by done. exact Hs3.
      * exact Hst3.
      * unfold mutate. rewrite list_lookup_insert_ne by done. exact Hl3.
      * apply Forall2_app.
        -- clear -Hold3 Hlen Hult. induction Hold3 as [|l r us rs Hlr _ IH]; [constructor|].
           simpl. constructor; [|exact IH]. unfold mutate. destruct (decide (l = lu2)) as [->|].
           ++ apply list_lookup_insert_eq. lia.
           ++ by rewrite list_lookup_insert_ne.
        -- constructor; [|constructor]. unfold mutate. rewrite He. destruct pol.
           ++ rewrite list_lookup_insert_ne by lia. by rewrite <- He.
           ++ apply list_lookup_insert_eq. lia.
    + rewrite length_fmap, length_zip. apply Forall2_length in Hold. lia.
    + intros Hnin. clear -Hold Hnin. induction Hold as [|l r us rs Hlr _ IH]; [done|].
      simpl. rewrite decide_False by set_solver. f_equal. apply IH. set_solver.
Qed.

(** C8 (as amended): [previous_pos] raises IndexError while only the initial
    snapshot is stored, which is the case from initialization up to the
    first move request; within the first move request the current snapshot
    has been stored as well, and [previous_pos] answers with the position
    of the bot in the initial snapshot. *)
Theorem C8_previous_pos h s p i pol states e u0 lu u lg :
  h !! s = Some (OPlayer p) -> _index p = Some i ->
  _store_universe p = Some pol -> universe_states p = Some states ->
  h !! states = Some (OList [e]) -> h !! e = Some (OUniverse u0) ->
  h !! lu = Some (OUniverse u) ->
  previous_pos s h = (h, Raise IndexError) ∧
  ∃ h',
    enter_get_move s lu lg h = (h', Ok tt) ∧
    previous_pos s h' =
      (h', match getitem (bots u0) i with
           | Some b => Ok (datamodel.current_pos b)
           | None => Raise IndexError
           end).
Proof.
  intros Hs Hi Hpol Hst Hl He Hu. split.
  - eapply previous_pos_short; eauto.
  - destruct (run_enter_get_move h s p pol states [e] lu u lg)
      as (h' & p' & e' & Hrun & Hs' & _ & Hi' & _ & Hst' & _ & _ & Hl' & _ & _ & _ & Hfr);
      auto.
    exists h'. split; [done|]. unfold previous_pos.
    rewrite (run_bind _ _ _ _ _ (run_getattr _ _ _ _ _ _ Hs' Hst')).
    rewrite (run_bind _ _ _ _ _ (run_list_getitem _ _ _ _ _ Hl' (getitem_before_last [] e e'))).
    assert (He' : h' !! e = Some (OUniverse u0)).
    { rewrite Hfr; [done|exact (lookup_lt_Some _ _ _ He)|..]; intros ->; simplify_eq. }
    rewrite (run_bind _ _ _ _ _ (run_universe_of _ _ _ _ He')).
    rewrite Hi in Hi'.
    rewrite (run_bind _ _ _ _ _ (run_getattr _ _ _ _ _ _ Hs' Hi')).
    unfold bots_getitem. by destruct (getitem (bots u0) i).
Qed.

End lifecycle.

(** ** Binding bots to players *)

Section binding.
Context `{W : World} `{U : !Code}.
Implicit Types (h : heap) (s l : loc) (p : player) (t : Team.attrs).

Lemma kept_refl h : kept h h.
Proof. intros l o Hl. destruct o; simpl; eauto. Qed.

(** The hook of Player2 itself, which most classes inherit. *)
Lemma default_hook_returns c :
  match c with InitialExceptionPlayer | UserPlayer _ => False | _ => True end ->
  hook_returns c.
Proof.
  intros Hc h s p Hs Hcls. exists h. split; [|apply kept_refl].
  unfold set_initial. rewrite (run_bind _ _ _ _ _ (run_self_player _ _ _ _ Hs)), Hcls.
  by destruct c.
Qed.

Lemma hook_returns_keeps c : hook_returns c -> hook_keeps c.
Proof.
  intros Hret h s p h' r Hs Hc Hrun.
  destruct (Hret h s p Hs Hc) as (h'' & Hrun' & Hk).
  rewrite Hrun in Hrun'. by injection Hrun' as -> _.
Qed.

(** One turn of the loop of [set_initial], whose outcome is that of
    [_set_initial] and of the hook: it is a normal return when the seed is
    well typed and the hook returns, and a normal return has bound and
    registered the player. *)
Lemma run_bind_one h self t lu u lg g b pl p :
  h !! self = Some (OTeam t) -> h !! lu = Some (OUniverse u) ->
  h !! lg = Some (ODict g) ->
  h !! pl = Some (OPlayer p) -> hook_keeps (cls p) ->
  ∃ h' r,
    (SimpleTeam.call_set_index pl (index b) ;;
     SimpleTeam.call_set_initial pl lu lg ;;
     SimpleTeam.register self (index b) pl) h = (h', r) ∧
    (seed_ok g -> hook_returns (cls p) -> r = Ok tt) ∧
    (r = Ok tt ->
     ∃ q,
       h' !! self = Some (OTeam (registered (index b) pl t)) ∧
       h' !! pl = Some (OPlayer q) ∧ cls q = cls p ∧ _index q = Some (index b) ∧
       (∀ l o, h !! l = Some o -> l ≠ self -> l ≠ pl -> keeps o (h' !! l))).
Proof.
  intros Hself Hu Hg Hpl Hkeep.
  pose proof (lookup_lt_Some _ _ _ Hself) as Hselflt.
  pose proof (lookup_lt_Some _ _ _ Hpl) as Hpllt.
  assert (Hn1 : self ≠ pl) by (intros ->; by rewrite Hself in Hpl).
  assert (Hn2 : lu ≠ pl) by (intros ->; by rewrite Hu in Hpl).
  assert (Hn3 : lg ≠ pl) by (intros ->; by rewrite Hg in Hpl).
  set (h1 := <[pl := OPlayer (with_index (index b) p)]> h).
  assert (Hpl1 : h1 !! pl = Some (OPlayer (with_index (index b) p))).
  { by apply list_lookup_insert_eq. }
  assert (Hfr1 : ∀ l, l ≠ pl -> h1 !! l = h !! l).
  { intros l Hl. unfold h1. by rewrite list_lookup_insert_ne. }
  assert (Hlen1 : length h1 = length h) by apply length_insert.
  assert (Hstart :
    (SimpleTeam.call_set_index pl (index b) ;;
     SimpleTeam.call_set_initial pl lu lg ;;
     SimpleTeam.register self (index b) pl) h =
    (_set_initial pl lu lg ;; SimpleTeam.register self (index b) pl) h1).
  { unfold SimpleTeam.call_set_index, SimpleTeam.call_set_initial.
    rewrite bind_assoc. rewrite (run_bind _ _ _ _ _ (run_load _ _ _ Hpl)).
    unfold _set_index. rewrite (run_bind _ _ _ _ _ (run_setattr _ _ _ _ _ Hpl)). fold h1.
    rewrite bind_assoc. by rewrite (run_bind _ _ _ _ _ (run_load _ _ _ Hpl1)). }
  rewrite Hstart.
  assert (Hu1 : h1 !! lu = Some (OUniverse u)) by by rewrite Hfr1.
  assert (Hg1 : h1 !! lg = Some (ODict g)) by by rewrite Hfr1.
  assert (Hsok : seed_ok g ∨ ¬ seed_ok g).
  { unfold seed_ok. destruct (g !! "seed") as [[| | |]|]; tauto. }
  destruct Hsok as [Hok|Hbad].
  - destruct (run_set_initial h1 pl (with_index (index b) p) (index b) lu u lg g)
      as (h2 & p2 & e & Hrun2 & Hpl2 & Hcls2 & Hi2 & _ & _ & _ & _ & _ & _ & _ & _ & Hlen2 & Hfr2);
      auto.
    destruct (set_initial pl h2) as [h3 r3] eqn:Hrun3.
    pose proof (Hkeep h2 pl p2 h3 r3 Hpl2 Hcls2 Hrun3) as Hkept.
    destruct r3 as [[]|e3].
    + assert (Hself3 : h3 !! self = Some (OTeam t)).
      { apply (Hkept self (OTeam t)). rewrite Hfr2, Hfr1 by (try done; lia). done. }
      destruct (Hkept _ _ Hpl2) as (q & Hpl3 & Hcls3 & Hi3).
      exists (<[self := OTeam (registered (index b) pl t)]> h3), (Ok tt). split.
      { rewrite (run_bind _ _ _ _ _ Hrun2). unfold SimpleTeam.register.
        by rewrite (run_bind _ _ _ _ _ (run_self_team _ _ _ _ Hself3)). }
      split; [done|]. intros _. exists q.
      split; [apply list_lookup_insert_eq; by eapply lookup_lt_Some|].
      rewrite list_lookup_insert_ne by done.
      split; [done|]. split; [by rewrite Hcls3|]. split; [by rewrite Hi3|].
      intros l o Hl H1 H2. rewrite list_lookup_insert_ne by done.
      apply Hkept. rewrite Hfr2, Hfr1; [done..| |done].
      rewrite Hlen1. by eapply lookup_lt_Some.
    + exists h3, (Raise e3). split; [by apply run_bind_raise|]. split; [|done].
      intros _ Hret. destruct (Hret h2 pl p2 Hpl2 Hcls2) as (h'' & Hr & _).
      rewrite Hrun3 in Hr. discriminate.
  - destruct (run_set_initial_bad_seed h1 pl (with_index (index b) p) (index b) lu u lg g)
      as (h2 & e & Hrun2); auto.
    exists h2, (Raise e). split; [by apply run_bind_raise|]. split; [|done].
    intros Hok. by destruct Hbad.
Qed.

Lemma keeps_trans o r h' l :
  keeps o r -> (∀ o', r = Some o' -> keeps o' (h' !! l)) -> keeps o (h' !! l).
Proof.
  intros Hk Hnext. destruct o; simpl in *; try by apply (Hnext _ Hk).
  destruct Hk as (q' & -> & Hc & Hi).
  destruct (Hnext _ eq_refl) as (q'' & -> & Hc' & Hi'). exists q''.
  split; [done|]. split; congruence.
Qed.

(** The loop of [set_initial]: it stops at the first turn that raises;
    when it returns every pair has been registered in turn, and a player
    that is not bound again later keeps the index it was given. *)
Lemma run_bind_bots self lu u lg g pairs : forall h t,
  h !! self = Some (OTeam t) -> h !! lu = Some (OUniverse u) ->
  h !! lg = Some (ODict g) ->
  Forall (λ pl, ∃ p, h !! pl = Some (OPlayer p) ∧ hook_keeps (cls p)) pairs.*2 ->
  ∃ h' r,
    SimpleTeam.bind_bots self lu lg pairs h = (h', r) ∧
    (seed_ok g ->
     Forall (λ pl, ∃ p, h !! pl = Some (OPlayer p) ∧ hook_returns (cls p)) pairs.*2 ->
     r = Ok tt) ∧
    (r = Ok tt ->
     h' !! self = Some (OTeam (foldl (λ t' '(b, pl), registered (index b) pl t') t pairs)) ∧
     (∀ l o, h !! l = Some o -> l ≠ self -> l ∉ pairs.*2 -> keeps o (h' !! l)) ∧
     (∀ j b pl, pairs !! j = Some (b, pl) ->
        (∀ j' b', (j < j')%nat -> pairs !! j' ≠ Some (b', pl)) ->
        ∃ q, h' !! pl = Some (OPlayer q) ∧ _index q = Some (index b))).
Proof.
  induction pairs as [|[b pl] pairs IH]; intros h t Hself Hu Hg HF.
  - exists h, (Ok tt). split; [done|]. split; [done|]. intros _.
    split; [done|]. split; [|done]. intros l o Hl _ _. by apply kept_refl.
  - apply Forall_cons in HF as [(p & Hpl & Hkeep) HF]. simpl in Hpl.
    destruct (run_bind_one h self t lu u lg g b pl p Hself Hu Hg Hpl Hkeep)
      as (h1 & r1 & Hrun1 & Hret1 & Hok1).
    destruct r1 as [[]|e1].
    + destruct (Hok1 eq_refl) as (q & Hself1 & Hpl1 & Hcls1 & Hi1 & Hfr1).
      assert (Hn1 : self ≠ pl) by (intros ->; by rewrite Hself in Hpl).
      assert (Hk1 : ∀ l o, h !! l = Some o -> l ≠ self ->
                match o with
                | OPlayer q0 => ∃ q', h1 !! l = Some (OPlayer q') ∧ cls q' = cls q0
                | _ => h1 !! l = Some o
                end).
      { intros l o Hl Hne. destruct (decide (l = pl)) as [->|Hne'].
        - rewrite Hpl in Hl. simplify_eq. by exists q.
        - pose proof (Hfr1 _ _ Hl Hne Hne') as Hk. destruct o; try done.
          destruct Hk as (q' & ? & ? & _). by exists q'. }
      destruct (IH h1 (registered (index b) pl t)) as (h' & r & Hrun & Hret & Hok); auto.
      { destruct (decide (lu = self)) as [->|]; [by rewrite Hself in Hu|].
        by apply (Hk1 _ _ Hu). }
      { destruct (decide (lg = self)) as [->|]; [by rewrite Hself in Hg|].
        by apply (Hk1 _ _ Hg). }
      { eapply Forall_impl; [exact HF|]. intros l (p' & Hl & Hh).
        destruct (decide (l = self)) as [->|]; [by rewrite Hself in Hl|].
        destruct (Hk1 _ _ Hl) as (q' & Hq' & Hc'); [done|].
        exists q'. split; [done|]. by rewrite Hc'. }
      exists h', r. split.
      { rewrite <- Hrun.
        rewrite <- (run_bind _ (λ _, SimpleTeam.bind_bots self lu lg pairs) _ _ _ Hrun1).
        cbn [SimpleTeam.bind_bots]. unfold bind.
        destruct (SimpleTeam.call_set_index pl (index b) h) as [ha [[]|]]; [|done].
        by destruct (SimpleTeam.call_set_initial pl lu lg ha) as [hb [[]|]]. }
      split.
      { intros Hsok HFr. apply Hret; [done|].
        apply Forall_cons in HFr as [_ HFr].
        eapply Forall_impl; [exact HFr|]. intros l (p' & Hl & Hh).
        destruct (decide (l = self)) as [->|]; [by rewrite Hself in Hl|].
        destruct (Hk1 _ _ Hl) as (q' & Hq' & Hc'); [done|].
        exists q'. split; [done|]. by rewrite Hc'. }
      intros ->. destruct (Hok eq_refl) as (Hself' & Hfr & Hidx).
      split; [done|]. split.
      * intros l o Hl Hne Hnin. simpl in Hnin.
        apply keeps_trans with (r := h1 !! l).
        -- apply Hfr1; [done..|]. intros ->. apply Hnin, elem_of_cons. by left.
        -- intros o' Ho'. apply Hfr; [done..|]. intros Hin. apply Hnin, elem_of_cons. by right.
      * intros [|j] b0 pl0 Hj Hlater; simpl in Hj.
        -- simplify_eq.
           destruct (Hfr pl0 (OPlayer q) Hpl1) as (q' & Hq' & _ & Hi'); [done| |].
           { intros Hin. apply list_elem_of_lookup in Hin as [j Hj].
             rewrite list_lookup_fmap in Hj.
             destruct (pairs !! j) as [[b' pl']|] eqn:E; simpl in Hj; simplify_eq.
             apply (Hlater (S j) b'); [lia|exact E]. }
           exists q'. split; [done|]. by rewrite Hi'.
        -- apply (Hidx j b0 pl0 Hj). intros j' b' Hlt.
           apply (Hlater (S j') b'). lia.
    + exists h1, (Raise e1). split.
      { rewrite <- (run_bind_raise _ (λ _, SimpleTeam.bind_bots self lu lg pairs) _ _ _ Hrun1).
        cbn [SimpleTeam.bind_bots]. unfold bind.
        destruct (SimpleTeam.call_set_index pl (index b) h) as [ha [[]|]]; [|done].
        by destruct (SimpleTeam.call_set_initial pl lu lg ha) as [hb [[]|]]. }
      split; [|done]. intros Hsok HFr.
      apply Forall_cons in HFr as [(p' & Hpl' & Hret') _]. simpl in Hpl'.
      rewrite Hpl in Hpl'. injection Hpl' as <-. by apply Hret1.
Qed.


Lemma foldl_registered_attrs pairs : forall t,
  Team.team_name (foldl (λ t' '(b, pl), registered (index b) pl t') t pairs) = Team.team_name t ∧
  Team._players (foldl (λ t' '(b, pl), registered (index b) pl t') t pairs) = Team._players t.
Proof.
  induction pairs as [|[b pl] pairs IH]; intros t; [done|]. simpl.
  destruct (IH (registered (index b) pl t)) as [-> ->]. done.
Qed.

Lemma foldl_registered_other (pairs : list (Bot * loc)) k : forall t,
  (∀ j b pl, pairs !! j = Some (b, pl) -> index b ≠ k) ->
  Team._bot_players (foldl (λ t' '(b, pl), registered (index b) pl t') t pairs) !! k
  = Team._bot_players t !! k.
Proof.
  induction pairs as [|[b pl] pairs IH]; intros t Hne; [done|]. simpl.
  rewrite IH.
  - simpl. apply lookup_insert_ne. by apply (Hne 0%nat b pl).
  - intros j b' pl' Hj. by apply (Hne (S j) b' pl').
Qed.

Lemma foldl_registered_lookup (pairs : list (Bot * loc)) : forall t j b pl,
  pairs !! j = Some (b, pl) ->
  (∀ j' b' pl', (j < j')%nat -> pairs !! j' = Some (b', pl') -> index b' ≠ index b) ->
  Team._bot_players (foldl (λ t' '(b, pl), registered (index b) pl t') t pairs) !! index b
  = Some pl.
Proof.
  induction pairs as [|[b0 pl0] pairs IH]; intros t j b pl Hj Hlater; [done|].
  destruct j as [|j]; simpl in *.
  - simplify_eq. rewrite foldl_registered_other.
    + simpl. apply lookup_insert_eq.
    + intros j b' pl' Hj. apply (Hlater (S j) b' pl'); [lia|done].
  - apply (IH _ j); [done|]. intros j' b' pl' Hlt Hj'.
    apply (Hlater (S j') b' pl'); [lia|done].
Qed.

(** C2 (as amended): a team of Player2 instances whose hooks
    [set_initial], whatever they do, leave the class and the bound index of
    every player and every other object as they were, given a universe, a
    game state and at most as many bots as players.  Whenever
    [set_initial] returns it returns the team name; the i-th player is then
    registered under the i-th bot index unless a later bot has the same
    index, and has that index as its own unless the same player object is
    bound again later.  It does return when the seed of the game state is
    missing, None or an integer and the hooks return.  A team made without
    a name has the empty name. *)
Theorem C2_set_initial_binds h self t team_id lu u lg g :
  h !! self = Some (OTeam t) -> h !! lu = Some (OUniverse u) ->
  h !! lg = Some (ODict g) ->
  Forall (λ pl, ∃ p, h !! pl = Some (OPlayer p) ∧ hook_keeps (cls p)) (Team._players t) ->
  (length (team_bots u team_id) <= length (Team._players t))%nat ->
  (∀ h' r,
     SimpleTeam.set_initial self team_id lu lg h = (h', Ok r) ->
     r = Team.team_name t ∧
     ∃ t',
       h' !! self = Some (OTeam t') ∧
       ∀ j b pl,
         team_bots u team_id !! j = Some b -> Team._players t !! j = Some pl ->
         ((∀ j' b', (j < j')%nat -> team_bots u team_id !! j' = Some b' -> index b' ≠ index b) ->
          Team._bot_players t' !! index b = Some pl) ∧
         ((∀ j', (j < j' < length (team_bots u team_id))%nat -> Team._players t !! j' ≠ Some pl) ->
          ∃ q, h' !! pl = Some (OPlayer q) ∧ _index q = Some (index b))) ∧
  (seed_ok g ->
   Forall (λ pl, ∃ p, h !! pl = Some (OPlayer p) ∧ hook_returns (cls p)) (Team._players t) ->
   ∃ h', SimpleTeam.set_initial self team_id lu lg h = (h', Ok (Team.team_name t))) ∧
  (∀ h0 first rest h1 self0,
     Forall (λ o, is_Some (h0 !! o)) (first :: rest) ->
     (∀ name, h0 !! first ≠ Some (OStr name)) ->
     SimpleTeam.__init__ (first :: rest) h0 = (h1, Ok self0) ->
     ∃ t0, team_at h1 self0 = Some t0 ∧ Team.team_name t0 = EmptyString).
Proof.
  intros Hself Hu Hg HF Hlen.
  set (bs := team_bots u team_id) in *.
  set (pairs := zip bs (Team._players t)).
  assert (Hsub : ∀ pl, pl ∈ pairs.*2 -> pl ∈ Team._players t).
  { intros pl Hin. apply list_elem_of_fmap in Hin as ([b pl'] & -> & Hin).
    apply list_elem_of_lookup in Hin as [j Hj].
    apply lookup_zip_Some in Hj as [_ Hj]. by eapply list_elem_of_lookup_2. }
  destruct (run_bind_bots self lu u lg g pairs h t) as (hb & rb & Hrun & Hret & Hok); auto.
  { apply Forall_forall. intros pl Hin. rewrite Forall_forall in HF. by apply HF, Hsub. }
  set (t' := foldl (λ t' '(b, pl), registered (index b) pl t') t pairs) in *.
  destruct (foldl_registered_attrs pairs t) as [Hname _]. fold t' in Hname.
  assert (Hloop : SimpleTeam.set_initial self team_id lu lg h =
            (SimpleTeam.bind_bots self lu lg pairs ;;
             let* t := SimpleTeam.self_team "team_name" self in
             ret (Team.team_name t)) h).
  { unfold SimpleTeam.set_initial.
    rewrite (run_bind _ _ _ _ _ (run_universe_of _ _ _ _ Hu)).
    rewrite (run_bind _ _ _ _ _ (run_self_team _ _ _ _ Hself)).
    fold bs. by rewrite bool_decide_eq_false_2 by lia. }
  split; [|split].
  - intros h' r Hset. rewrite Hloop in Hset.
    destruct rb as [[]|e]; [|by rewrite (run_bind_raise _ _ _ _ _ Hrun) in Hset].
    destruct (Hok eq_refl) as (Hself' & _ & Hidx).
    rewrite (run_bind _ _ _ _ _ Hrun) in Hset.
    rewrite (run_bind _ _ _ _ _ (run_self_team _ _ _ _ Hself')) in Hset.
    injection Hset as <- <-. split; [done|]. exists t'. split; [done|].
    intros j b pl Hb Hpl.
    assert (Hj : pairs !! j = Some (b, pl)) by by apply lookup_zip_Some.
    split.
    + intros Hlater. apply (foldl_registered_lookup pairs t j b pl Hj).
      intros j' b' pl' Hlt Hj'. apply lookup_zip_Some in Hj' as [Hb' _].
      by apply (Hlater j' b').
    + intros Hlater. apply (Hidx j b pl Hj). intros j' b' Hlt Hj'.
      apply lookup_zip_Some in Hj' as [Hb' Hpl'].
      apply (Hlater j'); [|done]. split; [done|]. by eapply lookup_lt_Some.
  - intros Hsok HFr.
    assert (rb = Ok tt) as ->.
    { apply Hret; [done|]. apply Forall_forall. intros pl Hin.
      rewrite Forall_forall in HFr. by apply HFr, Hsub. }
    destruct (Hok eq_refl) as (Hself' & _ & _).
    exists hb. rewrite Hloop, (run_bind _ _ _ _ _ Hrun).
    rewrite (run_bind _ _ _ _ _ (run_self_team _ _ _ _ Hself')). by rewrite Hname.
  - intros h0 first rest h1 self0 Hvalid Hnostr Hinit.
    pose proof (run_init h0 first rest Hvalid) as Hrun0. rewrite Hinit in Hrun0.
    destruct (missing_method h0 (split_args h0 (first :: rest)).2); [done|].
    destruct Hrun0 as (h1' & [= <- ->] & Hteam).
    eexists. split; [exact Hteam|].
    simpl. destruct (h0 !! first) as [[]|] eqn:E; try done. by destruct (Hnostr s).
Qed.

End binding.

(** ** Teams and sessions on the small world *)

Section grid_lifecycle.
Import Grid.

(** C3 on a team of one player that is assigned two bots. *)
Lemma C3_witness :
  SimpleTeam.set_initial 4%nat 1 0%nat 1%nat (fielded [2%nat]) =
    (fielded [2%nat], Raise (ValueError "Tried to set 2 bot_ids with only 1 Players.")).
Proof.
  apply (C3_set_initial_too_many_bots (fielded [2%nat]) 4%nat
           {| Team.team_name := EmptyString; Team._players := [2%nat];
              Team._bot_players := ∅; Team._remote_game := false |}
           1 0%nat [bot 3 (1, 1); bot 7 (2, 2)] 1%nat).
  - reflexivity.
  - reflexivity.
  - vm_compute. lia.
Defined.

(** C2 on players A and B at 2 and 3, bot indices 3 and 7. *)
Lemma C2_witness :
  ∃ h' t',
    SimpleTeam.set_initial 4%nat 1 0%nat 1%nat (fielded [2%nat; 3%nat]) = (h', Ok EmptyString) ∧
    team_at h' 4%nat = Some t' ∧
    Team._bot_players t' !! 3 = Some 2%nat ∧ Team._bot_players t' !! 7 = Some 3%nat ∧
    bound_index h' 2%nat = Some 3 ∧ bound_index h' 3%nat = Some 7.
Proof.
  destruct (C2_set_initial_binds (fielded [2%nat; 3%nat]) 4%nat
              {| Team.team_name := EmptyString; Team._players := [2%nat; 3%nat];
                 Team._bot_players := ∅; Team._remote_game := false |}
              1 0%nat [bot 3 (1, 1); bot 7 (2, 2)] 1%nat {["seed" := VInt 42]})
    as (Hbinds & Hreturns & _).
  - reflexivity.
  - reflexivity.
  - reflexivity.
  - repeat constructor; eexists; (split; [reflexivity|]);
      by apply hook_returns_keeps, default_hook_returns.
  - vm_compute. lia.
  - destruct Hreturns as [h' Hrun].
    + exact I.
    + repeat constructor; eexists; (split; [reflexivity|]);
        by apply default_hook_returns.
    + destruct (Hbinds h' _ Hrun) as (_ & t' & Hself & Hbind).
      assert (Htb : team_bots [bot 3 (1, 1); bot 7 (2, 2)] 1 = [bot 3 (1, 1); bot 7 (2, 2)])
        by (vm_compute; reflexivity).
      rewrite Htb in Hbind.
      destruct (Hbind 0%nat (bot 3 (1, 1)) 2%nat eq_refl eq_refl) as [Hmap0 Hidx0].
      destruct (Hbind 1%nat (bot 7 (2, 2)) 3%nat eq_refl eq_refl) as [Hmap1 Hidx1].
      exists h', t'. split; [exact Hrun|]. unfold team_at, bound_index, player_at.
      rewrite Hself. split; [reflexivity|].
      split.
      { apply Hmap0. intros [|[|j']] b' Hlt Hb'; [lia| |done].
        injection Hb' as <-. simpl. lia. }
      split.
      { apply Hmap1. intros [|[|j']] b' Hlt Hb'; [lia..|done]. }
      split.
      * destruct Hidx0 as (q & -> & Hq); [|exact Hq].
        intros [|[|j']] [Hlt Hlt']; simpl in *; [lia|discriminate|lia].
      * destruct Hidx1 as (q & -> & Hq); [|exact Hq].
        intros j' [Hlt Hlt']. simpl in *. lia.
Defined.

(** C2, as first stated, fails on a team of one InitialExceptionPlayer that
    is assigned one bot: the exception of the hook leaves [set_initial]. *)
Lemma C2_hook_failure_reaches_caller :
  length (team_bots two_bots 0) = 1%nat ∧
  ((let* self := SimpleTeam.__init__ [2%nat] in
    SimpleTeam.set_initial self 0 0%nat 1%nat) (store0 InitialExceptionPlayer)).2
  = Raise (Exception "Exception from InitialExceptionPlayer.").
Proof. split; by vm_compute. Qed.

(** C4 on seed 42 and bot indices 3 and 7. *)
Lemma C4_witness :
  ∃ h1 h1',
    _set_initial 2%nat 0%nat 1%nat (bound StoppingPlayer 3) = set_initial 2%nat h1 ∧
    stream h1 2%nat = Some (Seeded (42 + 3)) ∧
    _set_initial 2%nat 0%nat 1%nat (bound StoppingPlayer 7) = set_initial 2%nat h1' ∧
    stream h1' 2%nat = Some (Seeded (42 + 7)) ∧
    stream_seed h1 2%nat = Some 45 ∧ stream_seed h1' 2%nat = Some 49 ∧
    stream_seed h1 2%nat ≠ stream_seed h1' 2%nat.
Proof.
  destruct (C4_seeded_stream 42
              (bound StoppingPlayer 3) 2%nat (with_index 3 (new_player StoppingPlayer)) 3
              0%nat two_bots 1%nat {["seed" := VInt 42]}
              (bound StoppingPlayer 7) 2%nat (with_index 7 (new_player StoppingPlayer)) 7
              0%nat two_bots 1%nat {["seed" := VInt 42]})
    as (h1 & h1' & Hrun & Hst & Hrun' & Hst' & Hdef); try reflexivity.
  destruct Hdef as (Hseed & Hseed' & Hne & _); [reflexivity..|].
  exists h1, h1'. repeat split; try assumption. apply Hne. lia.
Defined.

(** C5 on a remote session at its initialization and on a local session at
    its first move request; the original snapshot is then changed. *)
Lemma C5_witness :
  (∃ h1,
     _set_initial 2%nat 0%nat 1%nat (remote StoppingPlayer) = set_initial 2%nat h1 ∧
     policy h1 2%nat = Some store_ref ∧
     reports h1 2%nat = Some [two_bots] ∧
     reports (mutate 0%nat [bot 0 (9, 9)] h1) 2%nat = Some [[bot 0 (9, 9)]]) ∧
  (∃ h3,
     enter_get_move 2%nat 0%nat 1%nat (started StoppingPlayer) = (h3, Ok tt) ∧
     policy h3 2%nat = Some store_copy ∧
     reports h3 2%nat = Some [two_bots; two_bots] ∧
     reports (mutate 0%nat [bot 0 (9, 9)] h3) 2%nat = Some [two_bots; two_bots]).
Proof.
  destruct (C5_storage_policy
              (remote StoppingPlayer) 2%nat
              (with_remote_game true (with_index 0 (new_player StoppingPlayer))) 0
              0%nat two_bots 1%nat {["seed" := VInt 42]} [bot 0 (9, 9)]
              (started StoppingPlayer) 2%nat
              (with_rnd (Seeded 42) (with_universe_states 3%nat (with_current_state 1%nat
                 (with_store_universe store_copy (with_index 0 (new_player StoppingPlayer))))))
              store_copy 3%nat [4%nat] [two_bots] 0%nat two_bots 1%nat [bot 0 (9, 9)])
    as [HA (h3 & rs' & Hrun & Hpol & Hrep & Hmut & _ & Hsame)]; try reflexivity.
  split; [exact HA|].
  exists h3. rewrite Hsame in Hmut; [by repeat split|].
  intros Hin. apply list_elem_of_singleton in Hin. lia.
Defined.

(** C7 on three arguments of which the second lacks [_get_move] and
    [_set_initial] and the third all three methods. *)
Lemma C7_witness :
  ∃ before o after m,
    [0%nat; 1%nat; 2%nat] = before ++ o :: after ∧
    SimpleTeam.__init__ [0%nat; 1%nat; 2%nat] Samples.crowd =
      (Samples.crowd, Raise (TypeError ("player missing " +:+ m +:+ "()"))) ∧
    o = 1%nat ∧ m = "_get_move".
Proof.
  destruct (C7_team_construction Samples.crowd [0%nat; 1%nat; 2%nat])
    as [[? _]|[(_ & before & o & after & m & Hsplit & Hbefore & Hm & Hrun)|(_ & Hcap & _)]].
  - repeat constructor; by eexists.
  - done.
  - exists before, o, after, m. split; [exact Hsplit|]. split; [exact Hrun|].
    change ((split_args Samples.crowd [0%nat; 1%nat; 2%nat]).2)
      with [0%nat; 1%nat; 2%nat] in Hsplit.
    destruct before as [|b0 [|b1 [|b2 before]]]; injection Hsplit as Hsplit; subst.
    + exfalso. destruct Hm as [[_ Hm]|[(_ & _ & Hm)|(_ & _ & _ & Hm)]]; discriminate Hm.
    + destruct Hm as [[_ Hm]|[(-> & _ & _)|(_ & _ & Hm & _)]];
        [discriminate Hm|done|discriminate Hm].
    + exfalso. apply Forall_cons in Hbefore as [_ Hbefore].
      apply Forall_cons in Hbefore as [(_ & Hb & _) _]. discriminate Hb.
    + exfalso. by destruct before.
  - exfalso. apply Forall_cons in Hcap as [_ Hcap].
    apply Forall_cons in Hcap as [(_ & Hb & _) _]. discriminate Hb.
Defined.

(** C7, as first stated, fails on a name without players: the team is made. *)
Lemma C7_team_of_a_name_only :
  SimpleTeam.__init__ [0%nat] [OStr "the team"] =
    ([OStr "the team";
      OTeam {| Team.team_name := "the team"; Team._players := [];
               Team._bot_players := ∅; Team._remote_game := false |}],
     Ok 1%nat).
Proof. reflexivity. Qed.

(** C8 on a session that has just been initialized. *)
Lemma C8_witness :
  previous_pos 2%nat (started (UserPlayer 0)) = (started (UserPlayer 0), Raise IndexError) ∧
  ∃ h',
    enter_get_move 2%nat 0%nat 1%nat (started (UserPlayer 0)) = (h', Ok tt) ∧
    previous_pos 2%nat h' = (h', Ok (1, 1)).
Proof.
  apply (C8_previous_pos (started (UserPlayer 0)) 2%nat
           (with_rnd (Seeded 42) (with_universe_states 3%nat (with_current_state 1%nat
              (with_store_universe store_copy (with_index 0 (new_player (UserPlayer 0)))))))
           0 store_copy 3%nat 4%nat two_bots 0%nat two_bots 1%nat); reflexivity.
Defined.

(** C8, as first stated, fails: a player that answers its first move request
    with [previous_pos] gets its initial position, not an IndexError. *)
Lemma C8_previous_pos_in_first_move_request :
  history (started (UserPlayer 0)) 2%nat = Some [4%nat] ∧
  (_get_move 2%nat 0%nat 1%nat (started (UserPlayer 0))).2 =
    Ok {| resp_move := Some (1, 1); resp_say := EmptyString |}.
Proof. split; by vm_compute. Qed.

End grid_lifecycle.

(** * Further properties *)

(** ** Scripted players *)

Section scripted.
Context `{W : World} `{U : !Code}.
Implicit Types (h : heap) (s l : loc) (p : player).

Lemma calls_raise {A} (c : M A) h e n :
  c h = (h, Raise e) -> calls (S n) c h = (h, Raise e).
Proof. intros Hc. simpl. by apply run_bind_raise. Qed.

Lemma stepping_list_get_move h s p m ms :
  h !! s = Some (OPlayer p) -> cls p = SteppingPlayer ->
  moves p = Some (list_iter (m :: ms)) ->
  get_move s h = (<[s := OPlayer (with_moves (list_iter ms) p)]> h, Ok (Some m)).
Proof.
  intros Hs Hc Hm. unfold get_move.
  rewrite (run_bind _ _ _ _ _ (run_self_player _ _ _ _ Hs)), Hc.
  unfold try_except, next_move. rewrite bind_assoc.
  rewrite (run_bind _ _ _ _ _ (run_getattr _ _ _ _ _ _ Hs Hm)).
  rewrite bind_assoc. by rewrite (run_bind _ _ _ _ _ (run_setattr _ _ _ _ _ Hs)).
Qed.

Lemma stepping_list_get_move_exhausted h s p :
  h !! s = Some (OPlayer p) -> cls p = SteppingPlayer ->
  moves p = Some (list_iter []) ->
  get_move s h = (h, Raise (ValueError EmptyString)).
Proof.
  intros Hs Hc Hm. unfold get_move.
  rewrite (run_bind _ _ _ _ _ (run_self_player _ _ _ _ Hs)), Hc.
  unfold try_except, next_move. rewrite bind_assoc.
  by rewrite (run_bind _ _ _ _ _ (run_getattr _ _ _ _ _ _ Hs Hm)).
Qed.

Lemma stepping_list_plays ms : forall h s p,
  h !! s = Some (OPlayer p) -> cls p = SteppingPlayer ->
  moves p = Some (list_iter ms) ->
  calls (length ms) (get_move s) h =
    (<[s := OPlayer (with_moves (list_iter []) p)]> h, Ok (Some <$> ms)).
Proof.
  induction ms as [|m ms IH]; intros h s p Hs Hc Hm.
  - simpl. unfold ret. f_equal. symmetry. apply list_insert_id. rewrite Hs.
    destruct p as [? ? ? ? ? ? ? ? ? mv]. simpl in Hm. by subst mv.
  - simpl. rewrite (run_bind _ _ _ _ _ (stepping_list_get_move _ _ _ _ _ Hs Hc Hm)).
    pose proof (lookup_lt_Some _ _ _ Hs) as Hlt.
    erewrite run_bind;
      [|eapply IH; [by apply list_lookup_insert_eq|exact Hc|reflexivity]].
    unfold ret. by rewrite list_insert_insert_eq.
Qed.

(** The generator reaches a symbol that is no key of [_MOVES]. *)
Lemma stepping_get_move_unknown h s p c cs :
  h !! s = Some (OPlayer p) -> cls p = SteppingPlayer ->
  moves p = Some (gen_iter (String c cs)) ->
  _MOVES !! String c EmptyString = None ->
  get_move s h = (<[s := OPlayer (with_moves (gen_iter EmptyString) p)]> h,
                  Raise (KeyError (String c EmptyString))).
Proof.
  intros Hs Hc Hm Hk. unfold get_move.
  rewrite (run_bind _ _ _ _ _ (run_self_player _ _ _ _ Hs)), Hc.
  unfold try_except, next_move. rewrite bind_assoc.
  rewrite (run_bind _ _ _ _ _ (run_getattr _ _ _ _ _ _ Hs Hm)), Hk.
  rewrite bind_assoc. by rewrite (run_bind _ _ _ _ _ (run_setattr _ _ _ _ _ Hs)).
Qed.

(** The first symbols of a string are played whatever follows them. *)
Lemma stepping_plays_prefix good : forall ms tail h s p,
  shorthand good = Some ms ->
  h !! s = Some (OPlayer p) -> cls p = SteppingPlayer ->
  moves p = Some (gen_iter (good +:+ tail)) ->
  calls (length ms) (get_move s) h =
    (<[s := OPlayer (with_moves (gen_iter tail) p)]> h, Ok (Some <$> ms)).
Proof.
  induction good as [|c cs IH]; intros ms tail h s p Hsh Hs Hc Hm.
  - simpl in Hsh. simplify_eq. simpl. unfold ret. f_equal.
    symmetry. apply list_insert_id. rewrite Hs.
    destruct p as [? ? ? ? ? ? ? ? ? mv]. simpl in Hm. by subst mv.
  - simpl in Hsh. destruct (_MOVES !! String c EmptyString) as [m|] eqn:Hk; [|done].
    destruct (shorthand cs) as [ms'|] eqn:Hcs; [|done]. simplify_eq. simpl.
    rewrite (run_bind _ _ _ _ _ (stepping_get_move _ _ _ _ _ _ Hs Hc Hm Hk)).
    pose proof (lookup_lt_Some _ _ _ Hs) as Hlt.
    erewrite run_bind;
      [|eapply (IH ms' tail); [reflexivity|by apply list_lookup_insert_eq|exact Hc|reflexivity]].
    unfold ret. by rewrite list_insert_insert_eq.
Qed.

(** X1: a SteppingPlayer made from any string of symbols of [_MOVES] answers
    as many move requests as the string has symbols, with the moves the
    symbols stand for, in order; every later request raises ValueError and
    leaves the store as it is. *)
Theorem stepping_string_script symbols ms h n :
  shorthand symbols = Some ms ->
  ∃ h',
    (let* s := SteppingPlayer__init__ (inl symbols) in
     let* r := calls (length ms) (get_move s) in
     ret (s, r)) h = (h', Ok (length h, Some <$> ms)) ∧
    calls (S n) (get_move (length h)) h' = (h', Raise (ValueError EmptyString)).
Proof.
  intros Hsh.
  set (p0 := with_moves (gen_iter symbols) (new_player SteppingPlayer)).
  set (h0 := h ++ [OPlayer p0]).
  assert (Hs : h0 !! length h = Some (OPlayer p0)) by by apply list_lookup_middle.
  exists (<[length h := OPlayer (with_moves (gen_iter EmptyString) p0)]> h0). split.
  - unfold SteppingPlayer__init__.
    erewrite run_bind; [|reflexivity].
    erewrite run_bind; [reflexivity|].
    apply (stepping_plays symbols ms); [exact Hsh|exact Hs|reflexivity..].
  - apply calls_raise. eapply stepping_get_move_exhausted;
      [apply list_lookup_insert_eq; by eapply lookup_lt_Some|reflexivity..].
Qed.

(** X2: a SteppingPlayer made from a list of moves answers as many move
    requests as the list is long, with its moves in order; every later
    request raises ValueError and leaves the store as it is. *)
Theorem stepping_list_script (ms : list move) h n :
  ∃ h',
    (let* s := SteppingPlayer__init__ (inr ms) in
     let* r := calls (length ms) (get_move s) in
     ret (s, r)) h = (h', Ok (length h, Some <$> ms)) ∧
    calls (S n) (get_move (length h)) h' = (h', Raise (ValueError EmptyString)).
Proof.
  set (p0 := with_moves (list_iter ms) (new_player SteppingPlayer)).
  set (h0 := h ++ [OPlayer p0]).
  assert (Hs : h0 !! length h = Some (OPlayer p0)) by by apply list_lookup_middle.
  exists (<[length h := OPlayer (with_moves (list_iter []) p0)]> h0). split.
  - unfold SteppingPlayer__init__.
    erewrite run_bind; [|reflexivity].
    erewrite run_bind; [reflexivity|].
    apply (stepping_list_plays ms); [exact Hs|reflexivity..].
  - apply calls_raise. eapply stepping_list_get_move_exhausted;
      [apply list_lookup_insert_eq; by eapply lookup_lt_Some|reflexivity..].
Qed.

(** X3: when the string holds a symbol that is no key of [_MOVES], the
    symbols before it are played; the request that reaches it raises
    KeyError for that symbol, and the generator is finished by it: every
    later request raises ValueError, and what follows the symbol is never
    played. *)
Theorem stepping_unknown_symbol good ms c tail h n :
  shorthand good = Some ms ->
  _MOVES !! String c EmptyString = None ->
  ∃ h1 h2,
    (let* s := SteppingPlayer__init__ (inl (good +:+ String c tail)) in
     let* r := calls (length ms) (get_move s) in
     ret (s, r)) h = (h1, Ok (length h, Some <$> ms)) ∧
    get_move (length h) h1 = (h2, Raise (KeyError (String c EmptyString))) ∧
    calls (S n) (get_move (length h)) h2 = (h2, Raise (ValueError EmptyString)).
Proof.
  intros Hsh Hk.
  set (p0 := with_moves (gen_iter (good +:+ String c tail)) (new_player SteppingPlayer)).
  set (h0 := h ++ [OPlayer p0]).
  assert (Hs : h0 !! length h = Some (OPlayer p0)) by by apply list_lookup_middle.
  pose proof (lookup_lt_Some _ _ _ Hs) as Hlt.
  set (p1 := with_moves (gen_iter (String c tail)) p0).
  set (h1 := <[length h := OPlayer p1]> h0).
  assert (Hs1 : h1 !! length h = Some (OPlayer p1)) by by apply list_lookup_insert_eq.
  exists h1, (<[length h := OPlayer (with_moves (gen_iter EmptyString) p1)]> h1).
  split; [|split].
  - unfold SteppingPlayer__init__.
    erewrite run_bind; [|reflexivity].
    erewrite run_bind; [reflexivity|].
    apply (stepping_plays_prefix good ms); [exact Hsh|exact Hs|reflexivity..].
  - eapply stepping_get_move_unknown; [exact Hs1|reflexivity|reflexivity|exact Hk].
  - apply calls_raise. eapply stepping_get_move_exhausted;
      [apply list_lookup_insert_eq; unfold h1; by rewrite length_insert|reflexivity..].
Qed.

End scripted.

(** ** Turn-based players *)

Section turn_based.
Context `{W : World}.

Lemma getitem_nat {A} (l : list A) (n : nat) : getitem l (Z.of_nat n) = l !! n.
Proof.
  unfold getitem. destruct (Z.of_nat n <? 0) eqn:Hneg; [apply Z.ltb_lt in Hneg; lia|].
  rewrite Nat2Z.id. destruct (_ && _) eqn:Hb; [done|].
  symmetry. apply lookup_ge_None.
  apply andb_false_iff in Hb as [Hb|Hb]; [apply Z.leb_gt in Hb | apply Z.ltb_ge in Hb]; lia.
Qed.

Lemma nth_move_from (t : TurnBasedPlayer.table) n : forall i,
  (0 <= i) ->
  TurnBasedPlayer.nth_move n
    {| TurnBasedPlayer.moves := t; TurnBasedPlayer.turn_index := Some (i - 1) |}
  = Ok (default stop (TurnBasedPlayer.entry t (Z.to_nat i + n))).
Proof.
  induction n as [|n IH]; intros i Hi.
  - simpl. unfold TurnBasedPlayer.get_move. simpl.
    replace (i - 1 + 1) with (Z.of_nat (Z.to_nat i)) by lia.
    rewrite Nat.add_0_r. destruct t as [l|d]; simpl.
    + rewrite getitem_nat. by destruct (l !! Z.to_nat i).
    + by destruct (d !! Z.of_nat (Z.to_nat i)).
  - cbn [TurnBasedPlayer.nth_move].
    replace ((TurnBasedPlayer.get_move _).1)
      with {| TurnBasedPlayer.moves := t; TurnBasedPlayer.turn_index := Some (i + 1 - 1) |}.
    + rewrite IH by lia. do 3 f_equal. lia.
    + unfold TurnBasedPlayer.get_move. simpl.
      replace (i + 1 - 1) with (i - 1 + 1) by lia.
      by destruct (TurnBasedPlayer.moves_getitem t (i - 1 + 1)) as [?|[]].
Qed.

(** X4: a TurnBasedPlayer never raises: its request number [n], counted
    from 0, is answered with the entry of its table under [n], and with
    [stop] when the list is too short or the dict has no such key. *)
Theorem turn_based_answers (t : TurnBasedPlayer.table) n :
  TurnBasedPlayer.nth_move n (TurnBasedPlayer.__init__ t)
  = Ok (default stop (TurnBasedPlayer.entry t n)).
Proof.
  destruct n as [|n].
  - simpl. unfold TurnBasedPlayer.get_move. simpl. destruct t as [l|d]; simpl.
    + change (getitem l 0) with (getitem l (Z.of_nat 0)). rewrite getitem_nat.
      by destruct (l !! 0%nat).
    + change (Z.of_nat 0) with 0. by destruct (d !! 0).
  - cbn [TurnBasedPlayer.nth_move].
    replace ((TurnBasedPlayer.get_move _).1)
      with {| TurnBasedPlayer.moves := t; TurnBasedPlayer.turn_index := Some (1 - 1) |}.
    + by rewrite nth_move_from by lia.
    + unfold TurnBasedPlayer.get_move. simpl.
      by destruct (TurnBasedPlayer.moves_getitem t 0) as [?|[]].
Qed.

End turn_based.

(** ** Move requests *)

Section requests.
Context `{W : World} `{U : !Code}.
Implicit Types (h : heap) (s l : loc) (p : player).

Lemma history_Some h s p states us :
  h !! s = Some (OPlayer p) -> universe_states p = Some states ->
  h !! states = Some (OList us) -> history h s = Some us.
Proof. intros Hs Hst Hl. unfold history, player_at. by rewrite Hs, Hst, Hl. Qed.

(** X5: a move request to a StoppingPlayer is answered with [stop] and an
    empty text, whatever the player said before; the snapshot has been
    added to the history under the policy of the session, the game state is
    the new metadata, and no other object that existed has changed. *)
Theorem get_move_of_stopping_player h s p pol states us lu u lg :
  h !! s = Some (OPlayer p) -> cls p = StoppingPlayer ->
  _store_universe p = Some pol -> universe_states p = Some states ->
  h !! states = Some (OList us) -> h !! lu = Some (OUniverse u) ->
  ∃ h' e,
    _get_move s lu lg h = (h', Ok {| resp_move := Some stop; resp_say := EmptyString |}) ∧
    history h' s = Some (us ++ [e]) ∧ snapshot h' e = Some u ∧
    e = match pol with store_copy => length h | store_ref => lu end ∧
    metadata h' s = Some lg ∧
    (∀ l, (l < length h)%nat -> l ≠ s -> l ≠ states -> h' !! l = h !! l).
Proof.
  intros Hs Hc Hpol Hst Hl Hu.
  destruct (run_enter_get_move h s p pol states us lu u lg)
    as (h' & p' & e & Hrun & Hs' & Hc' & _ & _ & Hst' & Hcs' & Hsay' & Hl' & He' & He & _ & Hfr);
    auto.
  exists h', e. split; [|split; [|split; [|split; [|split]]]].
  - unfold _get_move. rewrite (run_bind _ _ _ _ _ Hrun).
    assert (Hgm : get_move s h' = (h', Ok (Some stop))).
    { unfold get_move. rewrite (run_bind _ _ _ _ _ (run_self_player _ _ _ _ Hs')).
      by rewrite Hc', Hc. }
    rewrite (run_bind _ _ _ _ _ Hgm).
    by rewrite (run_bind _ _ _ _ _ (run_getattr _ _ _ _ _ _ Hs' Hsay')).
  - by eapply history_Some.
  - by apply snapshot_Some.
  - done.
  - unfold metadata, player_at. by rewrite Hs'.
  - done.
Qed.

(** X20: what a player says outside a move request is never reported:
    the next request empties the text before the class is asked for its
    move, so that a StoppingPlayer answers with an empty text; after the
    request [current_state] is the game state of the request. *)
Theorem text_said_between_requests_is_dropped h s p pol states us lu u lg text :
  h !! s = Some (OPlayer p) -> cls p = StoppingPlayer ->
  _store_universe p = Some pol -> universe_states p = Some states ->
  h !! states = Some (OList us) -> h !! lu = Some (OUniverse u) ->
  ∃ h',
    (say s text ;; _get_move s lu lg) h
      = (h', Ok {| resp_move := Some stop; resp_say := EmptyString |}) ∧
    current_state s h' = (h', Ok lg).
Proof.
  intros Hs Hc Hpol Hst Hl Hu.
  pose proof (lookup_lt_Some _ _ _ Hs) as Hlt.
  set (h0 := <[s := OPlayer (with_say text p)]> h).
  assert (Hs0 : h0 !! s = Some (OPlayer (with_say text p))) by by apply list_lookup_insert_eq.
  assert (Hl0 : h0 !! states = Some (OList us)).
  { unfold h0. rewrite list_lookup_insert_ne; [done|]. intros ->. congruence. }
  assert (Hu0 : h0 !! lu = Some (OUniverse u)).
  { unfold h0. rewrite list_lookup_insert_ne; [done|]. intros ->. congruence. }
  destruct (run_enter_get_move h0 s (with_say text p) pol states us lu u lg)
    as (h' & p' & e & Hrun & Hs' & Hc' & _ & _ & _ & Hcs' & Hsay' & _); auto.
  exists h'. split.
  - unfold say. rewrite (run_bind _ _ _ _ _ (run_setattr _ _ _ _ _ Hs)). fold h0.
    unfold _get_move. rewrite (run_bind _ _ _ _ _ Hrun).
    assert (Hgm : get_move s h' = (h', Ok (Some stop))).
    { unfold get_move. rewrite (run_bind _ _ _ _ _ (run_self_player _ _ _ _ Hs')).
      rewrite Hc'. simpl. by rewrite Hc. }
    rewrite (run_bind _ _ _ _ _ Hgm).
    by rewrite (run_bind _ _ _ _ _ (run_getattr _ _ _ _ _ _ Hs' Hsay')).
  - unfold current_state. by eapply run_getattr.
Qed.

(** X6: a move request to a MoveExceptionPlayer raises the exception of its
    [get_move]; by then the snapshot has been added to the history and the
    game state is the new metadata, and they stay so. *)
Theorem get_move_failure_keeps_snapshot h s p pol states us lu u lg :
  h !! s = Some (OPlayer p) -> cls p = MoveExceptionPlayer ->
  _store_universe p = Some pol -> universe_states p = Some states ->
  h !! states = Some (OList us) -> h !! lu = Some (OUniverse u) ->
  ∃ h' e,
    _get_move s lu lg h = (h', Raise (Exception "Exception from MoveExceptionPlayer.")) ∧
    history h' s = Some (us ++ [e]) ∧ snapshot h' e = Some u ∧
    metadata h' s = Some lg.
Proof.
  intros Hs Hc Hpol Hst Hl Hu.
  destruct (run_enter_get_move h s p pol states us lu u lg)
    as (h' & p' & e & Hrun & Hs' & Hc' & _ & _ & Hst' & Hcs' & Hsay' & Hl' & He' & He & _ & Hfr);
    auto.
  exists h', e. split; [|split; [|split]].
  - unfold _get_move. rewrite (run_bind _ _ _ _ _ Hrun).
    apply run_bind_raise. unfold get_move.
    rewrite (run_bind _ _ _ _ _ (run_self_player _ _ _ _ Hs')).
    by rewrite Hc', Hc.
  - by eapply history_Some.
  - by apply snapshot_Some.
  - unfold metadata, player_at. by rewrite Hs'.
Qed.

(** X7: a move request to a player on which [_set_initial] has not run
    raises AttributeError for [_store_universe], whatever the class and
    its [get_move], which is not reached.  By then the game state is the
    metadata of the player; its bound index and its history are as they
    were, no object has been made and no other object has changed. *)
Theorem get_move_before_set_initial h s p lu lg :
  h !! s = Some (OPlayer p) -> _store_universe p = None ->
  ∃ h',
    _get_move s lu lg h = (h', Raise (AttributeError "_store_universe")) ∧
    metadata h' s = Some lg ∧
    bound_index h' s = bound_index h s ∧ policy h' s = None ∧
    history h' s = history h s ∧
    length h' = length h ∧
    (∀ l, l ≠ s -> h' !! l = h !! l).
Proof.
  intros Hs Hpol.
  pose proof (lookup_lt_Some _ _ _ Hs) as Hlt.
  set (h' := <[s := OPlayer (with_current_state lg p)]> h).
  assert (Hs' : h' !! s = Some (OPlayer (with_current_state lg p))).
  { by apply list_lookup_insert_eq. }
  assert (Hfr : ∀ l, l ≠ s -> h' !! l = h !! l).
  { intros l Hl. unfold h'. by rewrite list_lookup_insert_ne. }
  exists h'. split; [|split; [|split; [|split; [|split; [|split]]]]].
  - unfold _get_move, enter_get_move. rewrite !bind_assoc.
    rewrite (run_bind _ _ _ _ _ (run_setattr _ _ _ _ _ Hs)). fold h'.
    rewrite bind_assoc. apply run_bind_raise. unfold call_store_universe.
    apply run_bind_raise.
    by apply (run_getattr_unset _ _ _ _ (with_current_state lg p)).
  - unfold metadata, player_at. by rewrite Hs'.
  - unfold bound_index, player_at. by rewrite Hs', Hs.
  - unfold policy, player_at. by rewrite Hs'.
  - unfold history, player_at. rewrite Hs', Hs. simpl.
    destruct (universe_states p) as [states|]; [|done].
    destruct (decide (states = s)) as [->|Hne]; [by rewrite Hs', Hs|by rewrite Hfr].
  - apply length_insert.
  - exact Hfr.
Qed.

(** X8: [SimpleTeam.get_move] for a bot index under which no player is
    registered raises KeyError and leaves the store as it is. *)
Theorem team_get_move_unbound h self t bot_id lu lg :
  h !! self = Some (OTeam t) -> Team._bot_players t !! bot_id = None ->
  SimpleTeam.get_move self bot_id lu lg h = (h, Raise (KeyError (pretty bot_id))).
Proof.
  intros Hs Hb. unfold SimpleTeam.get_move.
  rewrite (run_bind _ _ _ _ _ (run_self_team _ _ _ _ Hs)). by rewrite Hb.
Qed.

Lemma run_current_pos h s p i states us e u :
  h !! s = Some (OPlayer p) -> _index p = Some i ->
  universe_states p = Some states -> h !! states = Some (OList (us ++ [e])) ->
  h !! e = Some (OUniverse u) ->
  current_pos s h = (h, bot_current_pos u i) ∧
  initial_pos s h = (h, bot_initial_pos u i).
Proof.
  intros Hs Hi Hst Hl He.
  assert (Hcur : _current_uni s h = (h, Ok e)).
  { eapply run_current_uni; eauto. apply last_snoc. }
  split.
  - unfold current_pos. rewrite (run_bind _ _ _ _ _ Hcur).
    rewrite (run_bind _ _ _ _ _ (run_universe_of _ _ _ _ He)).
    rewrite (run_bind _ _ _ _ _ (run_getattr _ _ _ _ _ _ Hs Hi)).
    unfold bots_getitem, bot_current_pos. by destruct (getitem (bots u) i).
  - unfold initial_pos. rewrite (run_bind _ _ _ _ _ Hcur).
    rewrite (run_bind _ _ _ _ _ (run_universe_of _ _ _ _ He)).
    rewrite (run_bind _ _ _ _ _ (run_getattr _ _ _ _ _ _ Hs Hi)).
    unfold bots_getitem, bot_initial_pos. by destruct (getitem (bots u) i).
Qed.

(** X9: positions across a move request.  Once the snapshot of a request
    is stored, [current_pos] and [initial_pos] are those of the bound bot
    in that snapshot, and [previous_pos] is what [current_pos] was before
    the request: the position of the bot in the snapshot stored last.  A
    bot index outside the list of bots gives IndexError in each. *)
Theorem positions_across_a_request h s p i pol states us e0 u0 lu u lg :
  h !! s = Some (OPlayer p) -> _index p = Some i ->
  _store_universe p = Some pol -> universe_states p = Some states ->
  h !! states = Some (OList (us ++ [e0])) -> h !! e0 = Some (OUniverse u0) ->
  h !! lu = Some (OUniverse u) ->
  current_pos s h = (h, bot_current_pos u0 i) ∧
  ∃ h',
    enter_get_move s lu lg h = (h', Ok tt) ∧
    current_pos s h' = (h', bot_current_pos u i) ∧
    initial_pos s h' = (h', bot_initial_pos u i) ∧
    previous_pos s h' = (h', bot_current_pos u0 i).
Proof.
  intros Hs Hi Hpol Hst Hl He0 Hu.
  split; [by eapply run_current_pos|].
  destruct (run_enter_get_move h s p pol states (us ++ [e0]) lu u lg)
    as (h' & p' & e & Hrun & Hs' & _ & Hi' & _ & Hst' & _ & _ & Hl' & He' & _ & _ & Hfr);
    auto.
  rewrite Hi in Hi'.
  exists h'. split; [done|].
  destruct (run_current_pos h' s p' i states (us ++ [e0]) e u) as [Hcur Hini]; auto.
  split; [done|]. split; [done|].
  unfold previous_pos.
  rewrite (run_bind _ _ _ _ _ (run_getattr _ _ _ _ _ _ Hs' Hst')).
  rewrite <- app_assoc in Hl'. simpl in Hl'.
  rewrite (run_bind _ _ _ _ _ (run_list_getitem _ _ _ _ _ Hl' (getitem_before_last us e0 e))).
  assert (He0' : h' !! e0 = Some (OUniverse u0)).
  { rewrite Hfr; [done|exact (lookup_lt_Some _ _ _ He0)|..]; intros ->; simplify_eq. }
  rewrite (run_bind _ _ _ _ _ (run_universe_of _ _ _ _ He0')).
  rewrite (run_bind _ _ _ _ _ (run_getattr _ _ _ _ _ _ Hs' Hi')).
  unfold bots_getitem, bot_current_pos. by destruct (getitem (bots u0) i).
Qed.

(** X10: the accessors of a player on which [_set_initial] has not run
    raise AttributeError for [universe_states] and change nothing. *)
Theorem accessors_before_set_initial h s :
  uninitialized h s ->
  _current_uni s h = (h, Raise (AttributeError "universe_states")) ∧
  current_pos s h = (h, Raise (AttributeError "universe_states")) ∧
  initial_pos s h = (h, Raise (AttributeError "universe_states")) ∧
  previous_pos s h = (h, Raise (AttributeError "universe_states")).
Proof.
  intros (p & Hs & Hst).
  assert (Hcur : _current_uni s h = (h, Raise (AttributeError "universe_states"))).
  { unfold _current_uni. apply run_bind_raise. by eapply run_getattr_unset. }
  split; [done|]. split; [by apply run_bind_raise|]. split; [by apply run_bind_raise|].
  unfold previous_pos. apply run_bind_raise. by eapply run_getattr_unset.
Qed.

End requests.

(** ** Initialization: edge cases *)

Section initialization.
Context `{W : World} `{U : !Code}.
Implicit Types (h : heap) (s l : loc) (p : player).

(** X11: [_set_initial] on a session that has a history already starts a
    new one: when the hook is called the history holds the new snapshot
    and nothing else, and the list of the old history is as it was. *)
Theorem set_initial_starts_a_new_history h s p i old us lu u lg g :
  h !! s = Some (OPlayer p) -> _index p = Some i ->
  universe_states p = Some old -> h !! old = Some (OList us) ->
  h !! lu = Some (OUniverse u) -> h !! lg = Some (ODict g) -> seed_ok g ->
  ∃ h1 e,
    _set_initial s lu lg h = set_initial s h1 ∧
    history h1 s = Some [e] ∧ reports h1 s = Some [u] ∧
    h1 !! old = Some (OList us).
Proof.
  intros Hs Hi Hold Hus Hu Hg Hok.
  destruct (run_set_initial h s p i lu u lg g)
    as (h1 & p1 & e & Hrun & Hs1 & _ & _ & _ & _ & _ & Hst1 & _ & Hl1 & He1 & _ & _ & Hfr);
    auto.
  exists h1, e. split; [done|]. split; [by eapply history_Some|].
  split; [eapply reports_Some; eauto|].
  rewrite Hfr; [done|exact (lookup_lt_Some _ _ _ Hus)|].
  intros ->. by rewrite Hs in Hus.
Qed.

(** X12: when the game state has no seed, or None for it, the stream of
    the session is a new system-seeded one when the hook is called, also
    for a session whose stream was seeded before. *)
Theorem set_initial_without_seed h s p i lu u lg g :
  h !! s = Some (OPlayer p) -> _index p = Some i ->
  h !! lu = Some (OUniverse u) -> h !! lg = Some (ODict g) ->
  g !! "seed" = None ∨ g !! "seed" = Some VNone ->
  ∃ h1,
    _set_initial s lu lg h = set_initial s h1 ∧
    stream h1 s = Some SystemSeeded.
Proof.
  intros Hs Hi Hu Hg Hseed.
  destruct (run_set_initial h s p i lu u lg g)
    as (h1 & p1 & e & Hrun & Hs1 & _ & _ & _ & _ & _ & _ & Hrnd & _); auto.
  { unfold seed_ok. by destruct Hseed as [-> | ->]. }
  exists h1. split; [done|]. unfold stream, player_at. rewrite Hs1, Hrnd.
  unfold stream_of_seed. by destruct Hseed as [-> | ->].
Qed.

(** X13: when the seed of the game state is a string or a list,
    [_set_initial] raises TypeError at the sum of the seed and the offset:
    the hook is not called, whatever the class; the snapshot has been
    stored and the stream is a system-seeded one. *)
Theorem set_initial_seed_of_wrong_type h s p i lu u lg g :
  h !! s = Some (OPlayer p) -> _index p = Some i ->
  h !! lu = Some (OUniverse u) -> h !! lg = Some (ODict g) ->
  ¬ seed_ok g ->
  ∃ h1 msg,
    _set_initial s lu lg h = (h1, Raise (TypeError msg)) ∧
    reports h1 s = Some [u] ∧ stream h1 s = Some SystemSeeded.
Proof.
  intros Hs Hi Hu Hg Hbad.
  destruct (run_set_initial_stored h s p lu u lg Hs Hu)
    as (hd & e & Hrun & Hsd & Hld & Hed & Hes & Hlen & Hfr).
  pose proof (lookup_lt_Some _ _ _ Hs) as Hslt.
  pose proof (lookup_lt_Some _ _ _ Hg) as Hglt.
  assert (Hng : lg ≠ s) by (intros ->; by rewrite Hs in Hg).
  set (pc := with_universe_states _ _) in Hsd.
  set (he := <[s := OPlayer (with_rnd SystemSeeded pc)]> hd).
  assert (Hse : he !! s = Some (OPlayer (with_rnd SystemSeeded pc))).
  { apply list_lookup_insert_eq. lia. }
  assert (Hge : he !! lg = Some (ODict g)).
  { unfold he. rewrite list_lookup_insert_ne by done. by rewrite Hfr. }
  assert (∃ v, g !! "seed" = Some v ∧ v ≠ VNone ∧
               ∃ msg, add_int v (default i (seed_offset p)) = Raise (TypeError msg))
    as (v & Hv & Hnone & msg & Hadd).
  { unfold seed_ok in Hbad. destruct (g !! "seed") as [[| | |]|]; try (by destruct Hbad);
      eexists; (split; [reflexivity|]); (split; [done|]); by eexists. }
  exists he, msg. split; [|split].
  - rewrite Hrun.
    rewrite (run_bind _ _ _ _ _ (run_getattr _ _ _ _ _ _ Hsd Hi)).
    rewrite (run_bind _ _ _ _ _ (run_self_player _ _ _ _ Hsd)).
    rewrite (run_bind _ _ _ _ _ (run_setattr _ _ _ _ _ Hsd)). fold he.
    rewrite (run_bind _ _ _ _ _ (run_dict_get _ _ _ "seed" Hge)). rewrite Hv. simpl.
    apply run_bind_raise.
    assert (Hfail : (let* seed := dict_getitem lg "seed" in
                     let* z := lift (add_int seed (default i (seed_offset p))) in
                     setattr "rnd" (with_rnd (Seeded z)) s) he = (he, Raise (TypeError msg))).
    { rewrite (run_bind _ _ _ _ _ (run_dict_getitem _ _ _ "seed" _ Hge Hv)).
      apply run_bind_raise. unfold lift. by rewrite Hadd. }
    by destruct v.
  - eapply reports_Some; [exact Hse|reflexivity| |].
    + unfold he. rewrite list_lookup_insert_ne by lia. exact Hld.
    + constructor; [|constructor]. unfold he. by rewrite list_lookup_insert_ne.
  - unfold stream, player_at. by rewrite Hse.
Qed.

(** X14: [_set_initial] on a player that has no bot index raises
    AttributeError for [_index]: the hook is not called, whatever the
    class, and the snapshot has been stored by then. *)
Theorem set_initial_without_index h s p lu u lg :
  h !! s = Some (OPlayer p) -> _index p = None ->
  h !! lu = Some (OUniverse u) ->
  ∃ h1,
    _set_initial s lu lg h = (h1, Raise (AttributeError "_index")) ∧
    reports h1 s = Some [u] ∧ metadata h1 s = Some lg.
Proof.
  intros Hs Hi Hu.
  destruct (run_set_initial_stored h s p lu u lg Hs Hu)
    as (hd & e & Hrun & Hsd & Hld & Hed & Hes & Hlen & Hfr).
  exists hd. split; [|split].
  - rewrite Hrun. apply run_bind_raise. by eapply run_getattr_unset.
  - eapply reports_Some; [exact Hsd|reflexivity|exact Hld|]. by repeat constructor.
  - unfold metadata, player_at. by rewrite Hsd.
Qed.

End initialization.

(** ** The remote flag and the initialization of a team *)

Section team_sessions.
Context `{W : World} `{U : !Code}.
Implicit Types (h : heap) (s l : loc) (p : player) (t : Team.attrs).

Lemma run_set_players_flag v players : forall h,
  Forall (λ pl, ∃ p, h !! pl = Some (OPlayer p)) players ->
  ∃ h',
    SimpleTeam.set_players_remote_game v players h = (h', Ok tt) ∧
    (∀ l, l ∉ players -> h' !! l = h !! l) ∧
    (∀ l p, l ∈ players -> h !! l = Some (OPlayer p) ->
            h' !! l = Some (OPlayer (with_remote_game v p))).
Proof.
  induction players as [|o players IH]; intros h HF.
  - exists h. split; [done|]. split; [done|]. intros l p Hin. by apply elem_of_nil in Hin.
  - apply Forall_cons in HF as [[po Ho] HF].
    pose proof (lookup_lt_Some _ _ _ Ho) as Holt.
    set (h1 := <[o := OPlayer (with_remote_game v po)]> h).
    assert (Hrun1 : SimpleTeam.set_player_remote_game v o h = (h1, Ok tt)).
    { unfold SimpleTeam.set_player_remote_game.
      by rewrite (run_bind _ _ _ _ _ (run_load _ _ _ Ho)). }
    assert (Ho1 : h1 !! o = Some (OPlayer (with_remote_game v po))).
    { by apply list_lookup_insert_eq. }
    destruct (IH h1) as (h' & Hrun & Hfr & Hin').
    { eapply Forall_impl; [exact HF|]. intros l [p Hl]. unfold h1.
      destruct (decide (o = l)) as [<-|Hne].
      - eexists. exact Ho1.
      - exists p. by rewrite list_lookup_insert_ne. }
    exists h'. simpl. rewrite (run_bind _ _ _ _ _ Hrun1). split; [done|]. split.
    + intros l Hl. apply not_elem_of_cons in Hl as [Hne Hl].
      rewrite Hfr by done. unfold h1. by rewrite list_lookup_insert_ne.
    + intros l p Hl Hp. destruct (decide (l = o)) as [->|Hne].
      * rewrite Ho in Hp. simplify_eq.
        destruct (decide (o ∈ players)) as [Hin|Hnin].
        -- by rewrite (Hin' o _ Hin Ho1).
        -- by rewrite Hfr.
      * apply elem_of_cons in Hl as [->|Hl]; [done|].
        apply Hin'; [done|]. unfold h1. by rewrite list_lookup_insert_ne.
Qed.

(** What the setter of [remote_game] does to a team of Player2 instances. *)
Lemma run_set_remote_game h self t v :
  h !! self = Some (OTeam t) ->
  Forall (λ pl, ∃ p, h !! pl = Some (OPlayer p)) (Team._players t) ->
  ∃ h',
    SimpleTeam.set_remote_game self v h = (h', Ok tt) ∧
    h' !! self = Some (OTeam (flagged v t)) ∧
    (∀ pl p, pl ∈ Team._players t -> h !! pl = Some (OPlayer p) ->
       h' !! pl = Some (OPlayer (with_remote_game v p))) ∧
    (∀ l, l ≠ self -> l ∉ Team._players t -> h' !! l = h !! l).
Proof.
  intros Hself HF.
  pose proof (lookup_lt_Some _ _ _ Hself) as Hlt.
  set (h1 := <[self := OTeam (flagged v t)]> h).
  assert (Hself1 : h1 !! self = Some (OTeam (flagged v t))) by by apply list_lookup_insert_eq.
  assert (Hnin : self ∉ Team._players t).
  { intros Hin. rewrite Forall_forall in HF. destruct (HF _ Hin) as [p Hp]. congruence. }
  destruct (run_set_players_flag v (Team._players t) h1) as (h' & Hrun & Hfr & Hin).
  { apply Forall_forall. intros pl Hpl. rewrite Forall_forall in HF.
    destruct (HF _ Hpl) as [p Hp]. exists p. unfold h1.
    rewrite list_lookup_insert_ne; [done|]. intros <-. done. }
  exists h'. split; [|split; [|split]].
  - unfold SimpleTeam.set_remote_game.
    rewrite (run_bind _ _ _ _ _ (run_self_team _ _ _ _ Hself)).
    erewrite run_bind; [exact Hrun|reflexivity].
  - by rewrite Hfr, Hself1.
  - intros pl p Hpl Hp. apply Hin; [done|]. unfold h1.
    rewrite list_lookup_insert_ne; [done|]. intros <-. done.
  - intros l Hne Hl. rewrite Hfr by done. unfold h1. by rewrite list_lookup_insert_ne.
Qed.

(** X15: setting [remote_game] on a team of Player2 instances sets the flag
    of the team and the attribute [_remote_game] of each of its players,
    and nothing else: the storage policy a player has chosen at its
    initialization is not chosen again, and its history is as it was. *)
Theorem remote_game_setter h self t v :
  h !! self = Some (OTeam t) ->
  Forall (λ pl, ∃ p, h !! pl = Some (OPlayer p)) (Team._players t) ->
  ∃ h',
    SimpleTeam.set_remote_game self v h = (h', Ok tt) ∧
    team_at h' self = Some (flagged v t) ∧
    (∀ pl p, pl ∈ Team._players t -> h !! pl = Some (OPlayer p) ->
       h' !! pl = Some (OPlayer (with_remote_game v p)) ∧
       policy h' pl = policy h pl ∧ history h' pl = history h pl) ∧
    (∀ l, l ≠ self -> l ∉ Team._players t -> h' !! l = h !! l).
Proof.
  intros Hself HF.
  destruct (run_set_remote_game h self t v Hself HF) as (h' & Hrun & Hself' & Hin & Hfr).
  exists h'. split; [done|]. split; [unfold team_at; by rewrite Hself'|]. split; [|done].
  intros pl p Hpl Hp. pose proof (Hin _ _ Hpl Hp) as Hp'.
  split; [done|]. split.
  - unfold policy, player_at. by rewrite Hp', Hp.
  - unfold history, player_at. rewrite Hp', Hp. simpl.
    destruct (universe_states p) as [states|]; [|done].
    destruct (decide (states = self)) as [->|Hne]; [by rewrite Hself, Hself'|].
    destruct (decide (states ∈ Team._players t)) as [Hst|Hst].
    + rewrite Forall_forall in HF. destruct (HF _ Hst) as [q Hq].
      by rewrite (Hin _ _ Hst Hq), Hq.
    + by rewrite Hfr.
Qed.

Lemma plain_hook h s p :
  h !! s = Some (OPlayer p) -> inherits_hook (cls p) -> set_initial s h = (h, Ok tt).
Proof.
  intros Hs Hc. unfold set_initial.
  rewrite (run_bind _ _ _ _ _ (run_self_player _ _ _ _ Hs)). by destruct (cls p).
Qed.

(** One turn of the loop of [set_initial] on a player that inherits the
    hook of Player2. *)
Lemma run_bind_one_plain h self t lu u lg g b pl p :
  h !! self = Some (OTeam t) -> h !! lu = Some (OUniverse u) ->
  h !! lg = Some (ODict g) -> seed_ok g ->
  h !! pl = Some (OPlayer p) -> inherits_hook (cls p) ->
  ∃ h',
    (SimpleTeam.call_set_index pl (index b) ;;
     SimpleTeam.call_set_initial pl lu lg ;;
     SimpleTeam.register self (index b) pl) h = (h', Ok tt) ∧
    h' !! self = Some (OTeam (registered (index b) pl t)) ∧
    set_up h lu u lg g b p h' pl ∧
    (length h < length h')%nat ∧
    (∀ l, (l < length h)%nat -> l ≠ self -> l ≠ pl -> h' !! l = h !! l).
Proof.
  intros Hself Hu Hg Hok Hpl Hhook.
  pose proof (lookup_lt_Some _ _ _ Hself) as Hselflt.
  pose proof (lookup_lt_Some _ _ _ Hpl) as Hpllt.
  pose proof (lookup_lt_Some _ _ _ Hu) as Hult.
  assert (Hn1 : self ≠ pl) by (intros ->; by rewrite Hself in Hpl).
  assert (Hn2 : lu ≠ pl) by (intros ->; by rewrite Hu in Hpl).
  assert (Hn3 : lg ≠ pl) by (intros ->; by rewrite Hg in Hpl).
  assert (Hn4 : lu ≠ self) by (intros ->; by rewrite Hu in Hself).
  set (h1 := <[pl := OPlayer (with_index (index b) p)]> h).
  assert (Hpl1 : h1 !! pl = Some (OPlayer (with_index (index b) p))).
  { by apply list_lookup_insert_eq. }
  assert (Hfr1 : ∀ l, l ≠ pl -> h1 !! l = h !! l).
  { intros l Hl. unfold h1. by rewrite list_lookup_insert_ne. }
  assert (Hlen1 : length h1 = length h) by apply length_insert.
  destruct (run_set_initial h1 pl (with_index (index b) p) (index b) lu u lg g)
    as (h2 & p2 & e & Hrun2 & Hpl2 & Hcls2 & Hi2 & _ & Hpol2 & Hcs2 & Hst2 & Hrnd2 &
        Hl2 & He2 & He & Hlen2 & Hfr2);
    auto; try (rewrite Hfr1 by done; done).
  rewrite Hlen1 in *.
  assert (Hhook2 : set_initial pl h2 = (h2, Ok tt)).
  { eapply plain_hook; [exact Hpl2|]. by rewrite Hcls2. }
  assert (Hself2 : h2 !! self = Some (OTeam t)).
  { rewrite Hfr2, Hfr1 by (try done; lia). done. }
  set (h3 := <[self := OTeam (registered (index b) pl t)]> h2).
  assert (Hfr3 : ∀ l, l ≠ self -> h3 !! l = h2 !! l).
  { intros l Hl. unfold h3. by rewrite list_lookup_insert_ne. }
  assert (He3 : e ≠ self).
  { rewrite He. simpl. destruct (policy_of_flag _); [lia|done]. }
  exists h3. split; [|split; [|split; [|split]]].
  - unfold SimpleTeam.call_set_index, SimpleTeam.call_set_initial.
    rewrite bind_assoc. rewrite (run_bind _ _ _ _ _ (run_load _ _ _ Hpl)).
    unfold _set_index. rewrite (run_bind _ _ _ _ _ (run_setattr _ _ _ _ _ Hpl)). fold h1.
    rewrite bind_assoc. rewrite (run_bind _ _ _ _ _ (run_load _ _ _ Hpl1)).
    rewrite (run_bind_same _ _ _ _ _ Hrun2). rewrite (run_bind _ _ _ _ _ Hhook2).
    unfold SimpleTeam.register.
    by rewrite (run_bind _ _ _ _ _ (run_self_team _ _ _ _ Hself2)).
  - apply list_lookup_insert_eq. by eapply lookup_lt_Some.
  - exists e. unfold bound_index, policy, metadata, stream, player_at.
    rewrite Hfr3, Hpl2 by done. do 4 (split; [done|]).
    split; [|split].
    + eapply history_Some; [by rewrite Hfr3|done|]. rewrite Hfr3 by lia. done.
    + eapply reports_Some; [by rewrite Hfr3|done| |].
      * rewrite Hfr3 by lia. done.
      * constructor; [|constructor]. by rewrite Hfr3.
    + simpl in He. rewrite He. destruct (policy_of_flag _); [lia|done].
  - unfold h3. rewrite length_insert. lia.
  - intros l Hl H1 H2. rewrite Hfr3, Hfr2, Hfr1; [done..|lia|done].
Qed.

(** Observations on an object that is found unchanged. *)
Lemma set_up_preserved h0 lu u lg g b p h h' pl :
  set_up h0 lu u lg g b p h pl ->
  (∀ l o, h !! l = Some o ->
          match o with OPlayer _ => l = pl | OTeam _ => False | _ => True end ->
          h' !! l = Some o) ->
  set_up h0 lu u lg g b p h' pl.
Proof.
  intros (e & Hi & Hpol & Hmeta & Hrnd & Hhist & Hrep & He) Hfr.
  exists e.
  unfold bound_index, policy, metadata, stream, reports, history, player_at in *.
  destruct (h !! pl) as [[| | | |q| |]|] eqn:Hq; try done.
  rewrite (Hfr _ _ Hq eq_refl). do 4 (split; [done|]).
  destruct (universe_states q) as [states|]; [|done].
  destruct (h !! states) as [[| |us| | | |]|] eqn:Hs; try done.
  rewrite (Hfr _ _ Hs I). split; [done|]. split; [|done].
  simplify_eq. apply mapM_Some in Hrep. apply mapM_Some.
  eapply Forall2_impl; [exact Hrep|]. intros l r Hl. apply snapshot_Some in Hl.
  apply snapshot_Some. by apply (Hfr _ _ Hl).
Qed.

(** The loop of [set_initial] over players that are told apart and inherit
    the hook: each is set up in its turn and left alone afterwards. *)
Lemma run_bind_bots_plain self lu u lg g pairs : forall h t,
  h !! self = Some (OTeam t) -> h !! lu = Some (OUniverse u) ->
  h !! lg = Some (ODict g) -> seed_ok g ->
  NoDup pairs.*2 -> Forall (plain_player h) pairs.*2 ->
  ∃ h',
    SimpleTeam.bind_bots self lu lg pairs h = (h', Ok tt) ∧
    h' !! self = Some (OTeam (foldl (λ t' '(b, pl), registered (index b) pl t') t pairs)) ∧
    (∀ l o, h !! l = Some o -> l ≠ self -> l ∉ pairs.*2 -> h' !! l = Some o) ∧
    (∀ b pl p, (b, pl) ∈ pairs -> h !! pl = Some (OPlayer p) ->
               set_up h lu u lg g b p h' pl).
Proof.
  induction pairs as [|[b pl] pairs IH]; intros h t Hself Hu Hg Hok Hnd HF.
  - exists h. split; [done|]. split; [done|]. split; [done|].
    intros b pl p Hin. by apply elem_of_nil in Hin.
  - simpl in Hnd. apply NoDup_cons in Hnd as [Hnin Hnd].
    apply Forall_cons in HF as [(p & Hpl & Hhook) HF]. simpl in Hpl.
    destruct (run_bind_one_plain h self t lu u lg g b pl p)
      as (h1 & Hrun1 & Hself1 & Hset1 & Hlen1 & Hfr1); auto.
    assert (Hn1 : self ≠ pl) by (intros ->; by rewrite Hself in Hpl).
    assert (Hold : ∀ l o, h !! l = Some o -> l ≠ self -> l ≠ pl -> h1 !! l = Some o).
    { intros l o Hl H1 H2. rewrite Hfr1; [done|by eapply lookup_lt_Some|done..]. }
    destruct (IH h1 (registered (index b) pl t)) as (h' & Hrun & Hself' & Hfr & Hset); auto.
    { apply Hold; [done|..]; intros ->; congruence. }
    { apply Hold; [done|..]; intros ->; congruence. }
    { apply Forall_forall. intros l Hl. rewrite Forall_forall in HF.
      destruct (HF _ Hl) as (q & Hq & Hh). exists q. split; [|done].
      apply Hold; [done|intros ->; congruence|]. intros ->. done. }
    exists h'. split.
    { rewrite <- Hrun. rewrite <- (run_bind _ (λ _, SimpleTeam.bind_bots self lu lg pairs) _ _ _ Hrun1).
      cbn [SimpleTeam.bind_bots]. unfold bind.
      destruct (SimpleTeam.call_set_index pl (index b) h) as [ha [[]|]]; [|done].
      by destruct (SimpleTeam.call_set_initial pl lu lg ha) as [hb [[]|]]. }
    split; [done|].
    assert (Hrest : ∀ l, l ∈ pairs.*2 -> ∃ q, h1 !! l = Some (OPlayer q) ∧ l ≠ pl).
    { intros l Hl. rewrite Forall_forall in HF. destruct (HF _ Hl) as (q & Hq & _).
      assert (l ≠ pl) by (intros ->; done).
      exists q. split; [|done]. apply Hold; [done|intros ->; congruence|done]. }
    split.
    + intros l o Hl Hne Hnin'. simpl in Hnin'. apply not_elem_of_cons in Hnin' as [H1 H2].
      apply Hfr; [by apply Hold|done..].
    + intros b0 pl0 p0 Hin Hp0. apply elem_of_cons in Hin as [Heq|Hin].
      * simplify_eq. eapply set_up_preserved; [exact Hset1|].
        intros l o Hl Ho. apply Hfr; [done|..].
        -- intros ->. rewrite Hself1 in Hl. by simplify_eq.
        -- intros Hin. destruct (Hrest _ Hin) as (q & Hq & Hne).
           rewrite Hq in Hl. by simplify_eq.
      * assert (Hpl0 : pl0 ∈ pairs.*2).
        { apply list_elem_of_fmap. by exists (b0, pl0). }
        destruct (Hrest _ Hpl0) as (q & Hq & Hne).
        assert (Hp1 : h1 !! pl0 = Some (OPlayer p0)).
        { apply Hold; [done|intros ->; congruence|done]. }
        destruct (Hset b0 pl0 p0 Hin Hp1) as (e & ? & ? & ? & ? & ? & ? & He).
        exists e. do 6 (split; [done|]).
        destruct (policy_of_flag (_remote_game p0)); [lia|done].
Qed.

Lemma snd_zip_take {A B} (l : list A) (k : list B) : (zip l k).*2 = take (length l) k.
Proof.
  revert k. induction l as [|x l IH]; intros [|y k]; simpl; try done.
  by rewrite IH.
Qed.

(** [set_initial] on a team of players that are told apart and inherit the
    hook of Player2. *)
Lemma run_team_set_initial_plain h self t team_id lu u lg g :
  h !! self = Some (OTeam t) -> h !! lu = Some (OUniverse u) ->
  h !! lg = Some (ODict g) -> seed_ok g ->
  NoDup (Team._players t) -> Forall (plain_player h) (Team._players t) ->
  (length (team_bots u team_id) <= length (Team._players t))%nat ->
  ∃ h',
    SimpleTeam.set_initial self team_id lu lg h = (h', Ok (Team.team_name t)) ∧
    h' !! self = Some (OTeam (foldl (λ t' '(b, pl), registered (index b) pl t') t
                                (zip (team_bots u team_id) (Team._players t)))) ∧
    (∀ l o, h !! l = Some o -> l ≠ self ->
            l ∉ take (length (team_bots u team_id)) (Team._players t) -> h' !! l = Some o) ∧
    (∀ j b pl p, team_bots u team_id !! j = Some b -> Team._players t !! j = Some pl ->
                 h !! pl = Some (OPlayer p) -> set_up h lu u lg g b p h' pl).
Proof.
  intros Hself Hu Hg Hok Hnd HF Hlen.
  set (bs := team_bots u team_id) in *.
  set (pairs := zip bs (Team._players t)).
  assert (Hsnd : pairs.*2 = take (length bs) (Team._players t)) by apply snd_zip_take.
  destruct (run_bind_bots_plain self lu u lg g pairs h t) as (h' & Hrun & Hself' & Hfr & Hset);
    auto.
  { rewrite Hsnd. eapply sublist_NoDup; [done|apply sublist_take]. }
  { rewrite Hsnd. by apply Forall_take. }
  pose proof (proj1 (foldl_registered_attrs pairs t)) as Hname.
  exists h'. split; [|split; [done|split]].
  - unfold SimpleTeam.set_initial.
    rewrite (run_bind _ _ _ _ _ (run_universe_of _ _ _ _ Hu)).
    rewrite (run_bind _ _ _ _ _ (run_self_team _ _ _ _ Hself)).
    fold bs. rewrite bool_decide_eq_false_2 by lia. fold pairs.
    rewrite (run_bind _ _ _ _ _ Hrun).
    rewrite (run_bind _ _ _ _ _ (run_self_team _ _ _ _ Hself')). by rewrite Hname.
  - intros l o Hl Hne Hnin. apply Hfr; [done..|]. by rewrite Hsnd.
  - intros j b pl p Hb Hpl Hp. apply Hset; [|done].
    apply list_elem_of_lookup. exists j. by apply lookup_zip_Some.
Qed.

(** X16: [set_initial] on a team of distinct Player2 instances that inherit
    the hook of Player2 returns the team name and sets up the player of
    every assigned bot: it is bound to the index of the bot, its metadata is
    the game state, its stream is seeded with the seed plus its offset (or
    system-seeded without a seed), its policy is the one of its flag and
    its history is one entry reporting the universe.  The players beyond
    the assigned bots and the universe itself are left as they were. *)
Theorem team_set_initial_sets_up_players h self t team_id lu u lg g :
  h !! self = Some (OTeam t) -> h !! lu = Some (OUniverse u) ->
  h !! lg = Some (ODict g) -> seed_ok g ->
  NoDup (Team._players t) -> Forall (plain_player h) (Team._players t) ->
  (length (team_bots u team_id) <= length (Team._players t))%nat ->
  ∃ h',
    SimpleTeam.set_initial self team_id lu lg h = (h', Ok (Team.team_name t)) ∧
    (∀ j b pl p, team_bots u team_id !! j = Some b -> Team._players t !! j = Some pl ->
                 h !! pl = Some (OPlayer p) -> set_up h lu u lg g b p h' pl) ∧
    (∀ j pl, (length (team_bots u team_id) <= j)%nat -> Team._players t !! j = Some pl ->
             h' !! pl = h !! pl) ∧
    h' !! lu = Some (OUniverse u).
Proof.
  intros Hself Hu Hg Hok Hnd HF Hlen.
  destruct (run_team_set_initial_plain h self t team_id lu u lg g)
    as (h' & Hrun & Hself' & Hfr & Hset); auto.
  assert (Hplayer : ∀ l, l ∈ Team._players t -> ∃ p, h !! l = Some (OPlayer p)).
  { intros l Hl. rewrite Forall_forall in HF. destruct (HF _ Hl) as (p & Hp & _). eauto. }
  exists h'. split; [done|]. split; [done|]. split.
  - intros j pl Hj Hpl.
    destruct (Hplayer pl) as [p Hp]; [by eapply list_elem_of_lookup_2|].
    rewrite Hp. apply Hfr; [done|intros ->; congruence|].
    intros Hin. apply list_elem_of_lookup in Hin as [j' Hj'].
    apply lookup_take_Some in Hj' as [Hj' Hlt].
    pose proof (NoDup_lookup _ _ _ _ Hnd Hpl Hj'). lia.
  - apply Hfr; [done|intros ->; congruence|].
    intros Hin. apply elem_of_take in Hin as (i & Hi & _).
    destruct (Hplayer lu) as [p Hp]; [by eapply list_elem_of_lookup_2|]. congruence.
Qed.

(** X17: after such a [set_initial], with bots of distinct indices, a move
    request for the index of an assigned bot is the move request of the
    player in the same position of the team. *)
Theorem team_get_move_routes h self t team_id lu u lg g :
  h !! self = Some (OTeam t) -> h !! lu = Some (OUniverse u) ->
  h !! lg = Some (ODict g) -> seed_ok g ->
  NoDup (Team._players t) -> Forall (plain_player h) (Team._players t) ->
  (length (team_bots u team_id) <= length (Team._players t))%nat ->
  NoDup (index <$> team_bots u team_id) ->
  ∃ h',
    SimpleTeam.set_initial self team_id lu lg h = (h', Ok (Team.team_name t)) ∧
    ∀ j b pl lu' lg',
      team_bots u team_id !! j = Some b -> Team._players t !! j = Some pl ->
      SimpleTeam.get_move self (index b) lu' lg' h' = _get_move pl lu' lg' h'.
Proof.
  intros Hself Hu Hg Hok Hnd HF Hlen Hndi.
  destruct (run_team_set_initial_plain h self t team_id lu u lg g)
    as (h' & Hrun & Hself' & Hfr & Hset); auto.
  exists h'. split; [done|]. intros j b pl lu' lg' Hb Hpl.
  assert (∃ p, h !! pl = Some (OPlayer p)) as [p Hp].
  { rewrite Forall_forall in HF. destruct (HF pl) as (p & Hp & _); [|eauto].
    by eapply list_elem_of_lookup_2. }
  destruct (Hset j b pl p Hb Hpl Hp) as (e & Hi & _).
  unfold bound_index, player_at in Hi.
  destruct (h' !! pl) as [[| | | |q| |]|] eqn:Hq; try done.
  unfold SimpleTeam.get_move.
  rewrite (run_bind _ _ _ _ _ (run_self_team _ _ _ _ Hself')).
  rewrite (foldl_registered_lookup _ t j b pl).
  - unfold SimpleTeam.call_get_move. by rewrite (run_bind _ _ _ _ _ (run_load _ _ _ Hq)).
  - by apply lookup_zip_Some.
  - intros j' b' pl' Hlt Hj' Heq. apply lookup_zip_Some in Hj' as [Hb' _].
    assert (j = j'); [|lia].
    eapply (NoDup_lookup _ _ _ _ Hndi); rewrite list_lookup_fmap.
    + by rewrite Hb.
    + rewrite Hb'. simpl. by rewrite Heq.
Qed.

(** X18: the flag [remote_game] set on a team before [set_initial] decides
    how every player stores its snapshots: with the flag the one entry of
    its history is the universe it was given itself, without it a copy
    made during [set_initial]. *)
Theorem remote_flag_then_set_initial h self t v team_id lu u lg g :
  h !! self = Some (OTeam t) -> h !! lu = Some (OUniverse u) ->
  h !! lg = Some (ODict g) -> seed_ok g ->
  NoDup (Team._players t) -> Forall (plain_player h) (Team._players t) ->
  (length (team_bots u team_id) <= length (Team._players t))%nat ->
  ∃ h',
    (SimpleTeam.set_remote_game self v ;;
     SimpleTeam.set_initial self team_id lu lg) h = (h', Ok (Team.team_name t)) ∧
    ∀ j b pl, team_bots u team_id !! j = Some b -> Team._players t !! j = Some pl ->
      policy h' pl = Some (if v then store_ref else store_copy) ∧
      ∃ e, history h' pl = Some [e] ∧ reports h' pl = Some [u] ∧
           if v then e = lu else (length h <= e)%nat.
Proof.
  intros Hself Hu Hg Hok Hnd HF Hlen.
  assert (Hplayer : ∀ l, l ∈ Team._players t -> ∃ p, h !! l = Some (OPlayer p) ∧ inherits_hook (cls p)).
  { intros l Hl. rewrite Forall_forall in HF. by apply HF. }
  destruct (run_set_remote_game h self t v Hself) as (h1 & Hrun1 & Hself1 & Hin1 & Hfr1).
  { apply Forall_forall. intros l Hl. destruct (Hplayer l Hl) as (p & Hp & _). eauto. }
  assert (Hlen1 : (length h <= length h1)%nat).
  { destruct (decide (length h <= length h1)%nat) as [|Hn]; [done|].
    pose proof (lookup_lt_Some _ _ _ Hself1). pose proof (lookup_lt_Some _ _ _ Hself).
    destruct (lookup_lt_is_Some_2 h (length h1)) as [o Ho]; [lia|].
    destruct (decide (length h1 ∈ Team._players t)) as [Hm|Hm].
    - destruct (Hplayer _ Hm) as (p & Hp & _).
      pose proof (lookup_lt_Some _ _ _ (Hin1 _ _ Hm Hp)). lia.
    - assert (h1 !! length h1 = h !! length h1) as Heq by (apply Hfr1; [lia|done]).
      rewrite Ho in Heq. apply lookup_lt_Some in Heq. lia. }
  assert (Hother : ∀ l o, h !! l = Some o ->
            match o with OPlayer _ | OTeam _ => False | _ => True end -> h1 !! l = Some o).
  { intros l o Hl Ho. rewrite Hfr1; [done|intros ->; rewrite Hself in Hl; by simplify_eq|].
    intros Hm. destruct (Hplayer _ Hm) as (p & Hp & _). rewrite Hp in Hl. by simplify_eq. }
  assert (Hu1 : h1 !! lu = Some (OUniverse u)) by by apply Hother.
  assert (Hg1 : h1 !! lg = Some (ODict g)) by by apply Hother.
  assert (HF1 : Forall (plain_player h1) (Team._players (flagged v t))).
  { apply Forall_forall. intros l Hl. destruct (Hplayer l Hl) as (p & Hp & Hc).
    exists (with_remote_game v p). split; [by apply Hin1|done]. }
  destruct (run_team_set_initial_plain h1 self (flagged v t) team_id lu u lg g
              Hself1 Hu1 Hg1 Hok Hnd HF1 Hlen) as (h' & Hrun & _ & _ & Hset).
  exists h'. split; [by rewrite (run_bind _ _ _ _ _ Hrun1)|].
  intros j b pl Hb Hpl.
  destruct (Hplayer pl) as (p & Hp & _); [by eapply list_elem_of_lookup_2|].
  destruct (Hset j b pl (with_remote_game v p) Hb Hpl) as (e & _ & Hpol & _ & _ & Hh & Hr & He).
  { apply Hin1; [by eapply list_elem_of_lookup_2|done]. }
  simpl in Hpol, He. unfold policy_of_flag in *. simpl in *.
  split; [by destruct v|]. exists e. split; [done|]. split; [done|].
  destruct v; [done|lia].
Qed.

(** [SimpleTeam(first, rest...)] on Player2 instances. *)
Lemma run_init_players h first rest :
  Forall (λ pl, ∃ p, h !! pl = Some (OPlayer p)) (first :: rest) ->
  ∃ h',
    SimpleTeam.__init__ (first :: rest) h = (h', Ok (length h)) ∧
    h' !! length h = Some (OTeam {| Team.team_name := EmptyString;
                                    Team._players := first :: rest;
                                    Team._bot_players := ∅;
                                    Team._remote_game := false |}) ∧
    (∀ pl p, pl ∈ first :: rest -> h !! pl = Some (OPlayer p) ->
       h' !! pl = Some (OPlayer (with_remote_game false p))) ∧
    (∀ l o, h !! l = Some o -> l ∉ first :: rest -> h' !! l = Some o).
Proof.
  intros HF.
  set (players := first :: rest) in *.
  set (t := {| Team.team_name := EmptyString; Team._players := players;
               Team._bot_players := ∅; Team._remote_game := false |}).
  assert (Hfirst : ∃ p, h !! first = Some (OPlayer p)).
  { rewrite Forall_forall in HF. apply HF. apply elem_of_cons. by left. }
  destruct Hfirst as [p0 Hp0].
  assert (Hcheck : SimpleTeam.check_players players h = (h, Ok tt)).
  { rewrite run_check_players.
    - assert (missing_method h players = None) as ->; [|done].
      apply missing_method_None. eapply Forall_impl; [exact HF|].
      intros o [p Ho]. unfold capable, has_attr. by rewrite Ho.
    - eapply Forall_impl; [exact HF|]. intros o [p Ho]. by rewrite Ho. }
  set (h0 := h ++ [OTeam t]).
  assert (Hself : h0 !! length h = Some (OTeam t)) by by apply list_lookup_middle.
  destruct (run_set_remote_game h0 (length h) t false Hself) as (h' & Hrun & Hself' & Hin & Hfr).
  { eapply Forall_impl; [exact HF|]. intros o [p Ho]. exists p.
    by apply lookup_app_l_Some. }
  exists h'. split; [|split; [done|split]].
  - unfold players at 1. cbn [SimpleTeam.__init__]. fold players.
    rewrite (run_bind _ _ _ _ _ (run_load _ _ _ Hp0)).
    rewrite (run_bind _ _ _ _ _ Hcheck).
    erewrite run_bind; [|reflexivity]. fold t. fold h0.
    by rewrite (run_bind _ _ _ _ _ Hrun).
  - intros pl p Hpl Hp. apply Hin; [done|]. by apply lookup_app_l_Some.
  - intros l o Hl Hnin. rewrite Hfr; [by apply lookup_app_l_Some| |done].
    apply lookup_lt_Some in Hl. lia.
Qed.

(** X21: a team made of distinct Player2 instances that inherit the hook of
    Player2, then initialized: the player of every assigned bot is bound to
    the index of its bot, stores copies, and its history is one entry, a
    copy of the universe made after the team; the universe given is as it
    was. *)
Theorem new_team_set_initial h first rest team_id lu u lg g :
  Forall (plain_player h) (first :: rest) -> NoDup (first :: rest) ->
  h !! lu = Some (OUniverse u) -> h !! lg = Some (ODict g) -> seed_ok g ->
  (length (team_bots u team_id) <= length (first :: rest))%nat ->
  ∃ h',
    (let* self := SimpleTeam.__init__ (first :: rest) in
     SimpleTeam.set_initial self team_id lu lg) h = (h', Ok EmptyString) ∧
    h' !! lu = Some (OUniverse u) ∧
    ∀ j b pl, team_bots u team_id !! j = Some b -> (first :: rest) !! j = Some pl ->
      bound_index h' pl = Some (index b) ∧ policy h' pl = Some store_copy ∧
      ∃ e, history h' pl = Some [e] ∧ reports h' pl = Some [u] ∧ (length h < e)%nat.
Proof.
  intros HF Hnd Hu Hg Hok Hlen.
  set (players := first :: rest) in *.
  assert (Hplayer : ∀ l, l ∈ players -> ∃ p, h !! l = Some (OPlayer p) ∧ inherits_hook (cls p)).
  { intros l Hl. rewrite Forall_forall in HF. by apply HF. }
  destruct (run_init_players h first rest) as (h1 & Hrun1 & Hself1 & Hin1 & Hfr1).
  { apply Forall_forall. intros l Hl. destruct (Hplayer l Hl) as (p & Hp & _). eauto. }
  fold players in Hrun1, Hself1, Hin1, Hfr1.
  set (t := {| Team.team_name := EmptyString; Team._players := players;
               Team._bot_players := ∅; Team._remote_game := false |}) in *.
  assert (Hother : ∀ l o, h !! l = Some o ->
            match o with OPlayer _ => False | _ => True end -> h1 !! l = Some o).
  { intros l o Hl Ho. apply Hfr1; [done|]. intros Hm.
    destruct (Hplayer _ Hm) as (p & Hp & _). rewrite Hp in Hl. by simplify_eq. }
  assert (Hu1 : h1 !! lu = Some (OUniverse u)) by by apply Hother.
  assert (Hg1 : h1 !! lg = Some (ODict g)) by by apply Hother.
  assert (HF1 : Forall (plain_player h1) (Team._players t)).
  { apply Forall_forall. intros l Hl. destruct (Hplayer l Hl) as (p & Hp & Hc).
    exists (with_remote_game false p). split; [by apply Hin1|done]. }
  destruct (run_team_set_initial_plain h1 (length h) t team_id lu u lg g
              Hself1 Hu1 Hg1 Hok Hnd HF1 Hlen) as (h' & Hrun & _ & Hfr & Hset).
  pose proof (lookup_lt_Some _ _ _ Hself1) as Hlt1.
  pose proof (lookup_lt_Some _ _ _ Hu) as Hult.
  exists h'. split; [by rewrite (run_bind _ _ _ _ _ Hrun1)|]. split.
  - apply Hfr; [done|lia|]. intros Hm. apply elem_of_take in Hm as (j & Hj & _).
    destruct (Hplayer lu) as (p & Hp & _); [by eapply list_elem_of_lookup_2|]. congruence.
  - intros j b pl Hb Hpl.
    destruct (Hplayer pl) as (p & Hp & _); [by eapply list_elem_of_lookup_2|].
    destruct (Hset j b pl (with_remote_game false p) Hb Hpl)
      as (e & Hi & Hpol & _ & _ & Hh & Hr & He).
    { apply Hin1; [by eapply list_elem_of_lookup_2|done]. }
    split; [done|]. split; [done|]. exists e. split; [done|]. split; [done|].
    simpl in He. lia.
Qed.

End team_sessions.

Section sharing.
Context `{W : World} `{U : !Code}.
Local Abbreviation heap := (list obj).
Local Abbreviation loc := nat.

(** X19: [simulate_move] appends to the list [universe_states] of what
    [copy] returns and detaches nothing itself.  When that object holds the
    same list as the caller (a shallow copy, or the caller itself), the
    simulated universe becomes the last entry of the caller's own history:
    the caller's current universe is then the simulated one, and the two
    sessions share one history. *)
Theorem simulate_move_with_shared_history h s p c i us u m u' g h2 fs q :
  session h s c i us -> current h s = Some u ->
  move_bot u i m = Ok (u', g) ->
  h !! s = Some (OPlayer p) ->
  copy s (h ++ [OUniverse u]) = (h2, Ok fs) ->
  preserved (h ++ [OUniverse u]) h2 ->
  h2 !! fs = Some (OPlayer q) ->
  universe_states q = universe_states p ->
  ∃ h',
    simulate_move s m h = (h', Ok fs) ∧
    history h' s = Some (us ++ [length h]) ∧
    current h' s = Some u' ∧
    history h' fs = history h' s.
Proof.
  intros Hsess Hcur Hmove Hsp Hcopy Hp2 Hfs Hshare.
  destruct (current_Some _ _ _ _ _ _ Hsess Hcur) as (cur & Hlast & Hcuru).
  destruct Hsess as (p0 & states & Hs & Hc & Hi & Hst & Hl & HF).
  assert (p0 = p) as -> by congruence.
  pose proof (lookup_lt_Some _ _ _ Hs) as Hslt.
  pose proof (lookup_lt_Some _ _ _ Hl) as Hllt.
  set (h1 := h ++ [OUniverse u]) in *.
  assert (Hp1 : preserved h h1) by apply preserved_app.
  assert (Hfu : h2 !! length h = Some (OUniverse u)).
  { apply Hp2. by apply list_lookup_middle. }
  assert (Hs2 : h2 !! s = Some (OPlayer p)) by by apply Hp2, Hp1.
  assert (Hl2 : h2 !! states = Some (OList us)) by by apply Hp2, Hp1.
  assert (Hne1 : fs ≠ length h) by (intros ->; congruence).
  assert (Hne2 : fs ≠ states) by (intros ->; congruence).
  assert (Hne3 : s ≠ states) by (intros ->; congruence).
  pose proof (lookup_lt_Some _ _ _ Hfs) as Hfslt.
  pose proof (lookup_lt_Some _ _ _ Hfu) as Hfult.
  pose proof (lookup_lt_Some _ _ _ Hl2) as Hl2lt.
  set (h3 := <[length h := OUniverse u']> h2).
  set (h4 := h3 ++ [ODict g]).
  assert (Hmb : bind (store (length h) (OUniverse u')) (λ _, alloc (ODict g)) h2
                = (h4, Ok (length h2))).
  { unfold bind, store, alloc, h4, h3. by rewrite length_insert. }
  assert (Hlen3 : length h3 = length h2) by apply length_insert.
  assert (Hfs4 : h4 !! fs = Some (OPlayer q)).
  { unfold h4. apply lookup_app_l_Some. unfold h3. by rewrite list_lookup_insert_ne. }
  assert (Hl4 : h4 !! states = Some (OList us)).
  { unfold h4. apply lookup_app_l_Some. unfold h3. by rewrite list_lookup_insert_ne by lia. }
  assert (Hstq : universe_states q = Some states) by by rewrite Hshare.
  set (h5 := <[states := OList (us ++ [length h])]> h4).
  assert (Hfs5 : h5 !! fs = Some (OPlayer q)).
  { unfold h5. by rewrite list_lookup_insert_ne. }
  set (q' := with_current_state (length h2) q).
  set (h6 := <[fs := OPlayer q']> h5).
  assert (Hlen4 : length h4 = S (length h2)).
  { unfold h4. rewrite length_app, Hlen3. simpl. lia. }
  assert (Hlen5 : length h5 = length h4) by apply length_insert.
  assert (Hfs6 : h6 !! fs = Some (OPlayer q')).
  { unfold h6. apply list_lookup_insert_eq. lia. }
  assert (Hl6 : h6 !! states = Some (OList (us ++ [length h]))).
  { unfold h6. rewrite list_lookup_insert_ne by done. unfold h5.
    apply list_lookup_insert_eq. lia. }
  assert (Hu6 : h6 !! length h = Some (OUniverse u')).
  { unfold h6, h5. rewrite !list_lookup_insert_ne by lia. unfold h4.
    apply lookup_app_l_Some. unfold h3. apply list_lookup_insert_eq. lia. }
  assert (Hs6 : ∃ r, h6 !! s = Some (OPlayer r) ∧ universe_states r = Some states).
  { destruct (decide (s = fs)) as [->|Hne].
    - exists q'. by split.
    - exists p. split; [|done]. unfold h6, h5. rewrite !list_lookup_insert_ne by done.
      unfold h4. apply lookup_app_l_Some. unfold h3. by rewrite list_lookup_insert_ne by lia. }
  destruct Hs6 as (r & Hr & Hrst).
  assert (Hhist : history h6 s = Some (us ++ [length h])).
  { unfold history, player_at. by rewrite Hr, Hrst, Hl6. }
  exists h6. split; [|split; [done|split]].
  - unfold simulate_move.
    rewrite (run_bind _ _ _ _ _ (run_current_uni _ _ _ _ _ _ Hs Hst Hl Hlast)).
    rewrite (run_bind _ _ _ _ _ (run_obj_copy _ _ _ Hcuru)).
    fold h1. rewrite (run_bind _ _ _ _ _ Hcopy).
    rewrite (run_bind _ _ _ _ _ (run_universe_of _ _ _ _ Hfu)).
    rewrite (run_bind _ _ _ _ _ (run_getattr _ _ _ _ _ _ Hs2 Hi)).
    unfold call_move_bot. rewrite Hmove.
    rewrite (run_bind _ _ _ _ _ Hmb).
    rewrite (run_bind _ _ _ _ _ (run_getattr _ _ _ _ _ _ Hfs4 Hstq)).
    rewrite (run_bind _ _ _ _ _ (run_list_append _ _ _ (length h) Hl4)).
    fold h5. by rewrite (run_bind _ _ _ _ _ (run_setattr _ _ _ _ _ Hfs5)).
  - unfold current. rewrite Hhist, last_snoc. by apply snapshot_Some.
  - rewrite Hhist. unfold history, player_at. rewrite Hfs6. simpl.
    by rewrite Hstq, Hl6.
Qed.

End sharing.

(** ** The further properties on the small world *)

Section grid_further.
Import Grid Samples.

(** X1 on the string of north and east. *)
Lemma stepping_string_script_witness :
  ∃ h',
    (let* s := SteppingPlayer__init__ (inl "^>") in
     let* r := calls 2 (get_move s) in
     ret (s, r)) [] = (h', Ok (0%nat, [Some north; Some east])) ∧
    calls 3 (get_move 0%nat) h' = (h', Raise (ValueError EmptyString)).
Proof.
  apply (stepping_string_script "^>" [north; east] [] 2). reflexivity.
Defined.

(** X3 on a string whose second symbol is unknown. *)
Lemma stepping_unknown_symbol_witness :
  ∃ h1 h2,
    (let* s := SteppingPlayer__init__ (inl "^x>") in
     let* r := calls 1 (get_move s) in
     ret (s, r)) [] = (h1, Ok (0%nat, [Some north])) ∧
    get_move 0%nat h1 = (h2, Raise (KeyError "x")) ∧
    calls 2 (get_move 0%nat) h2 = (h2, Raise (ValueError EmptyString)).
Proof.
  apply (stepping_unknown_symbol "^" [north] (Ascii.ascii_of_nat 120) ">" [] 1); reflexivity.
Defined.

(** X5 on the second request to an initialized StoppingPlayer. *)
Lemma get_move_of_stopping_player_witness :
  ∃ h' e,
    _get_move 2%nat 5%nat 1%nat (second_round StoppingPlayer)
      = (h', Ok {| resp_move := Some stop; resp_say := EmptyString |}) ∧
    history h' 2%nat = Some [4%nat; e] ∧ snapshot h' e = Some moved ∧
    e = 6%nat ∧ metadata h' 2%nat = Some 1%nat ∧
    (∀ l, (l < 6)%nat -> l ≠ 2%nat -> l ≠ 3%nat ->
          h' !! l = second_round StoppingPlayer !! l).
Proof.
  apply (get_move_of_stopping_player (second_round StoppingPlayer) 2%nat
           (started_player StoppingPlayer) store_copy 3%nat [4%nat] 5%nat moved 1%nat);
    reflexivity.
Defined.

(** X20 on an initialized StoppingPlayer that has said hello. *)
Lemma text_said_between_requests_is_dropped_witness :
  ∃ h',
    (say 2%nat "hello" ;; _get_move 2%nat 5%nat 1%nat) (second_round StoppingPlayer)
      = (h', Ok {| resp_move := Some stop; resp_say := EmptyString |}) ∧
    current_state 2%nat h' = (h', Ok 1%nat).
Proof.
  apply (text_said_between_requests_is_dropped (second_round StoppingPlayer) 2%nat
           (started_player StoppingPlayer) store_copy 3%nat [4%nat] 5%nat moved 1%nat "hello");
    reflexivity.
Defined.

(** X6 on an initialized MoveExceptionPlayer. *)
Lemma get_move_failure_keeps_snapshot_witness :
  ∃ h' e,
    _get_move 2%nat 5%nat 1%nat (second_round MoveExceptionPlayer)
      = (h', Raise (Exception "Exception from MoveExceptionPlayer.")) ∧
    history h' 2%nat = Some [4%nat; e] ∧ snapshot h' e = Some moved ∧
    metadata h' 2%nat = Some 1%nat.
Proof.
  apply (get_move_failure_keeps_snapshot (second_round MoveExceptionPlayer) 2%nat
           (started_player MoveExceptionPlayer) store_copy 3%nat [4%nat] 5%nat moved 1%nat);
    reflexivity.
Defined.

(** X7 on a player that is bound to a bot and not initialized. *)
Lemma get_move_before_set_initial_witness :
  ∃ h',
    _get_move 2%nat 0%nat 1%nat (bound StoppingPlayer 0)
      = (h', Raise (AttributeError "_store_universe")) ∧
    metadata h' 2%nat = Some 1%nat ∧
    bound_index h' 2%nat = Some 0 ∧ policy h' 2%nat = None ∧
    history h' 2%nat = None ∧
    length h' = 3%nat ∧
    (∀ l, l ≠ 2%nat -> h' !! l = bound StoppingPlayer 0 !! l).
Proof.
  apply (get_move_before_set_initial (bound StoppingPlayer 0) 2%nat
           (with_index 0 (new_player StoppingPlayer)) 0%nat 1%nat); reflexivity.
Defined.

(** X8 on a team on which [set_initial] has not run. *)
Lemma team_get_move_unbound_witness :
  SimpleTeam.get_move 4%nat 3 0%nat 1%nat (fielded [2%nat; 3%nat]) =
    (fielded [2%nat; 3%nat], Raise (KeyError "3")).
Proof.
  apply (team_get_move_unbound (fielded [2%nat; 3%nat]) 4%nat (team_of [2%nat; 3%nat])
           3 0%nat 1%nat); reflexivity.
Defined.

(** X9 on the request that reports bot 0 one step east. *)
Lemma positions_across_a_request_witness :
  current_pos 2%nat (second_round StoppingPlayer)
    = (second_round StoppingPlayer, Ok (1, 1)) ∧
  ∃ h',
    enter_get_move 2%nat 5%nat 1%nat (second_round StoppingPlayer) = (h', Ok tt) ∧
    current_pos 2%nat h' = (h', Ok (2, 1)) ∧
    initial_pos 2%nat h' = (h', Ok (1, 1)) ∧
    previous_pos 2%nat h' = (h', Ok (1, 1)).
Proof.
  apply (positions_across_a_request (second_round StoppingPlayer) 2%nat
           (started_player StoppingPlayer) 0 store_copy 3%nat [] 4%nat two_bots
           5%nat moved 1%nat); reflexivity.
Defined.

(** X10 on a new player. *)
Lemma accessors_before_set_initial_witness :
  _current_uni 2%nat (store0 StoppingPlayer)
    = (store0 StoppingPlayer, Raise (AttributeError "universe_states")) ∧
  current_pos 2%nat (store0 StoppingPlayer)
    = (store0 StoppingPlayer, Raise (AttributeError "universe_states")) ∧
  initial_pos 2%nat (store0 StoppingPlayer)
    = (store0 StoppingPlayer, Raise (AttributeError "universe_states")) ∧
  previous_pos 2%nat (store0 StoppingPlayer)
    = (store0 StoppingPlayer, Raise (AttributeError "universe_states")).
Proof.
  apply (accessors_before_set_initial (store0 StoppingPlayer) 2%nat).
  exists (new_player StoppingPlayer). split; reflexivity.
Defined.

(** X11 on an initialized player that is initialized again. *)
Lemma set_initial_starts_a_new_history_witness :
  ∃ h1 e,
    _set_initial 2%nat 5%nat 1%nat (second_round StoppingPlayer) = set_initial 2%nat h1 ∧
    history h1 2%nat = Some [e] ∧ reports h1 2%nat = Some [moved] ∧
    h1 !! 3%nat = Some (OList [4%nat]).
Proof.
  apply (set_initial_starts_a_new_history (second_round StoppingPlayer) 2%nat
           (started_player StoppingPlayer) 0 3%nat [4%nat] 5%nat moved 1%nat
           {["seed" := VInt 42]}); reflexivity || exact I.
Defined.

(** X12 on a game state without a seed. *)
Lemma set_initial_without_seed_witness :
  ∃ h1,
    _set_initial 2%nat 0%nat 1%nat (seeded_with ∅) = set_initial 2%nat h1 ∧
    stream h1 2%nat = Some SystemSeeded.
Proof.
  apply (set_initial_without_seed (seeded_with ∅) 2%nat
           (with_index 0 (new_player StoppingPlayer)) 0 0%nat two_bots 1%nat ∅);
    try reflexivity.
  left. reflexivity.
Defined.

(** X13 on a game state whose seed is a string. *)
Lemma set_initial_seed_of_wrong_type_witness :
  ∃ h1 msg,
    _set_initial 2%nat 0%nat 1%nat (seeded_with {["seed" := VStr "abc"]})
      = (h1, Raise (TypeError msg)) ∧
    reports h1 2%nat = Some [two_bots] ∧ stream h1 2%nat = Some SystemSeeded.
Proof.
  apply (set_initial_seed_of_wrong_type (seeded_with {["seed" := VStr "abc"]}) 2%nat
           (with_index 0 (new_player StoppingPlayer)) 0 0%nat two_bots 1%nat
           {["seed" := VStr "abc"]}); try reflexivity.
  intros H. exact H.
Defined.

(** X14 on a new player. *)
Lemma set_initial_without_index_witness :
  ∃ h1,
    _set_initial 2%nat 0%nat 1%nat (store0 StoppingPlayer)
      = (h1, Raise (AttributeError "_index")) ∧
    reports h1 2%nat = Some [two_bots] ∧ metadata h1 2%nat = Some 1%nat.
Proof.
  apply (set_initial_without_index (store0 StoppingPlayer) 2%nat
           (new_player StoppingPlayer) 0%nat two_bots 1%nat); reflexivity.
Defined.

(** X15 on a team of two players. *)
Lemma remote_game_setter_witness :
  ∃ h',
    SimpleTeam.set_remote_game 4%nat true (fielded [2%nat; 3%nat]) = (h', Ok tt) ∧
    team_at h' 4%nat = Some (flagged true (team_of [2%nat; 3%nat])) ∧
    (∀ pl p, pl ∈ [2%nat; 3%nat] -> fielded [2%nat; 3%nat] !! pl = Some (OPlayer p) ->
       h' !! pl = Some (OPlayer (with_remote_game true p)) ∧
       policy h' pl = policy (fielded [2%nat; 3%nat]) pl ∧
       history h' pl = history (fielded [2%nat; 3%nat]) pl) ∧
    (∀ l, l ≠ 4%nat -> l ∉ [2%nat; 3%nat] -> h' !! l = fielded [2%nat; 3%nat] !! l).
Proof.
  apply (remote_game_setter (fielded [2%nat; 3%nat]) 4%nat (team_of [2%nat; 3%nat]) true).
  - reflexivity.
  - repeat constructor; eexists; reflexivity.
Defined.

(** X16 on a team of two players that is assigned the bots 3 and 7. *)
Lemma team_set_initial_sets_up_players_witness :
  ∃ h',
    SimpleTeam.set_initial 4%nat 1 0%nat 1%nat (fielded [2%nat; 3%nat]) = (h', Ok EmptyString) ∧
    (∀ j b pl p, [bot 3 (1, 1); bot 7 (2, 2)] !! j = Some b -> [2%nat; 3%nat] !! j = Some pl ->
       fielded [2%nat; 3%nat] !! pl = Some (OPlayer p) ->
       set_up (fielded [2%nat; 3%nat]) 0%nat [bot 3 (1, 1); bot 7 (2, 2)] 1%nat
              {["seed" := VInt 42]} b p h' pl) ∧
    (∀ j pl, (2 <= j)%nat -> [2%nat; 3%nat] !! j = Some pl ->
       h' !! pl = fielded [2%nat; 3%nat] !! pl) ∧
    h' !! 0%nat = Some (OUniverse [bot 3 (1, 1); bot 7 (2, 2)]).
Proof.
  apply (team_set_initial_sets_up_players (fielded [2%nat; 3%nat]) 4%nat
           (team_of [2%nat; 3%nat]) 1 0%nat [bot 3 (1, 1); bot 7 (2, 2)] 1%nat
           {["seed" := VInt 42]}).
  - reflexivity.
  - reflexivity.
  - reflexivity.
  - exact I.
  - apply (bool_decide_unpack _). reflexivity.
  - repeat constructor; eexists; (split; [reflexivity|exact I]).
  - vm_compute. lia.
Defined.

(** X17 on the same team. *)
Lemma team_get_move_routes_witness :
  ∃ h',
    SimpleTeam.set_initial 4%nat 1 0%nat 1%nat (fielded [2%nat; 3%nat]) = (h', Ok EmptyString) ∧
    ∀ j b pl lu' lg',
      [bot 3 (1, 1); bot 7 (2, 2)] !! j = Some b -> [2%nat; 3%nat] !! j = Some pl ->
      SimpleTeam.get_move 4%nat (index b) lu' lg' h' = _get_move pl lu' lg' h'.
Proof.
  apply (team_get_move_routes (fielded [2%nat; 3%nat]) 4%nat
           (team_of [2%nat; 3%nat]) 1 0%nat [bot 3 (1, 1); bot 7 (2, 2)] 1%nat
           {["seed" := VInt 42]}).
  - reflexivity.
  - reflexivity.
  - reflexivity.
  - exact I.
  - apply (bool_decide_unpack _). reflexivity.
  - repeat constructor; eexists; (split; [reflexivity|exact I]).
  - vm_compute. lia.
  - apply (bool_decide_unpack _). reflexivity.
Defined.

(** X18 on the same team, in a remote game. *)
Lemma remote_flag_then_set_initial_witness :
  ∃ h',
    (SimpleTeam.set_remote_game 4%nat true ;;
     SimpleTeam.set_initial 4%nat 1 0%nat 1%nat) (fielded [2%nat; 3%nat])
      = (h', Ok EmptyString) ∧
    ∀ j b pl, [bot 3 (1, 1); bot 7 (2, 2)] !! j = Some b -> [2%nat; 3%nat] !! j = Some pl ->
      policy h' pl = Some store_ref ∧
      ∃ e, history h' pl = Some [e] ∧ reports h' pl = Some [[bot 3 (1, 1); bot 7 (2, 2)]] ∧
           e = 0%nat.
Proof.
  apply (remote_flag_then_set_initial (fielded [2%nat; 3%nat]) 4%nat
           (team_of [2%nat; 3%nat]) true 1 0%nat [bot 3 (1, 1); bot 7 (2, 2)] 1%nat
           {["seed" := VInt 42]}).
  - reflexivity.
  - reflexivity.
  - reflexivity.
  - exact I.
  - apply (bool_decide_unpack _). reflexivity.
  - repeat constructor; eexists; (split; [reflexivity|exact I]).
  - vm_compute. lia.
Defined.

(** X21 on players A and B at 2 and 3, bot indices 3 and 7. *)
Lemma new_team_set_initial_witness :
  ∃ h',
    (let* self := SimpleTeam.__init__ [2%nat; 3%nat] in
     SimpleTeam.set_initial self 1 0%nat 1%nat) lineup = (h', Ok EmptyString) ∧
    h' !! 0%nat = Some (OUniverse [bot 3 (1, 1); bot 7 (2, 2)]) ∧
    ∀ j b pl, [bot 3 (1, 1); bot 7 (2, 2)] !! j = Some b -> [2%nat; 3%nat] !! j = Some pl ->
      bound_index h' pl = Some (index b) ∧ policy h' pl = Some store_copy ∧
      ∃ e, history h' pl = Some [e] ∧
           reports h' pl = Some [[bot 3 (1, 1); bot 7 (2, 2)]] ∧ (4 < e)%nat.
Proof.
  apply (new_team_set_initial lineup 2%nat [3%nat] 1 0%nat [bot 3 (1, 1); bot 7 (2, 2)]
           1%nat {["seed" := VInt 42]}).
  - repeat constructor; eexists; (split; [reflexivity|exact I]).
  - apply (bool_decide_unpack _). reflexivity.
  - reflexivity.
  - reflexivity.
  - exact I.
  - vm_compute. lia.
Defined.

(** X19 on a user class whose [copy] is shallow. *)
Lemma simulate_move_with_shared_history_witness :
  ∃ h',
    simulate_move (U := Shallow.code) 2%nat east (started (UserPlayer 0)) = (h', Ok 6%nat) ∧
    history h' 2%nat = Some [4%nat; 5%nat] ∧
    current h' 2%nat = Some moved ∧
    history h' 6%nat = history h' 2%nat.
Proof.
  refine (simulate_move_with_shared_history (W := world) (U := Shallow.code)
           (started (UserPlayer 0)) 2%nat (started_player (UserPlayer 0)) (UserPlayer 0) 0
           [4%nat] two_bots east moved {["bot_moved" := VInt 0]}
           ((started (UserPlayer 0) ++ [OUniverse two_bots])
              ++ [OPlayer (started_player (UserPlayer 0))])
           6%nat (started_player (UserPlayer 0)) _ _ _ _ _ _ _ _).
  - apply started_session.
  - reflexivity.
  - vm_compute. reflexivity.
  - reflexivity.
  - reflexivity.
  - apply preserved_app.
  - reflexivity.
  - reflexivity.
Defined.

End grid_further.
